(** * BlueBubbles server: change detection and send reconciliation

    A shallow embedding of the parts of the BlueBubbles server that the
    specification's claims talk about, followed by the properties proved
    of them.

    - [JS]: the fragment of the JavaScript runtime the sources rely on
      (UTF-16 strings and their methods, [Date] time values, completions).
    - [Attachment], [Message]: the rows passed around.
    - [Imessage]: [getCacheName], [convertAudio], [convertImage],
      [convertVideo] (packages/server, imessage helpers).
    - [MessageInterface]: [sendMessageSync], [sendAttachmentSync],
      [sendMessagePrivateApi], [sendReaction].
    - [HelperProcess]: the [data] handler installed by [setupListeners].
    - [Transformers]: [AttributedBodyTransformer].
    - [ServerMain]: [startChatListener] and the tail of [start].
    - [MessageEdits]: [unsendMessage], [editMessage].
    - [AttachmentMetadata]: [getAttachmentMetadata].
    - [HelperCommands]: the connection callbacks, [startTyping],
      [stopTyping].
    - [ServerEvents]: [log], [initializeDatabase], [setupDefaults],
      [sendNotification] and the [new-entry] and [updated-entry] handlers.

    Definitions come first, the theorems after them. *)

From Stdlib Require Import ZArith NArith Ascii String.
From Stdlib Require Import DecimalString DecimalZ DecimalPos Lia.
From stdpp Require Import base option list gmap strings.

Local Open Scope Z_scope.
Set Warnings "-register-all".

(* ================================================================== *)
(** * Part I: the model                                                 *)
(* ================================================================== *)

(** ** The JavaScript fragment *)
Module JS.

(** A JavaScript string is a sequence of UTF-16 code units. *)
Definition JSString : Type := list N.

(** An ASCII source literal, code unit by code unit. *)
Definition lit (s : string) : JSString := map N_of_ascii (list_ascii_of_string s).
Arguments lit : simpl never.

(** [s === t] on strings. *)
Definition strictEq (s t : JSString) : bool := bool_decide (s = t).

(** A string is truthy when it is not empty. *)
Definition truthyStr (s : JSString) : bool :=
  match s with [] => false | _ :: _ => true end.

(** [s.startsWith(search)] (position 0). *)
Fixpoint startsWith (s search : JSString) {struct search} : bool :=
  match search with
  | [] => true
  | c :: search' =>
      match s with
      | [] => false
      | d :: s' => if N.eqb c d then startsWith s' search' else false
      end
  end.

(** [s.endsWith(search)]: the last [search.length] code units of [s] are
    compared with [search]; a [search] longer than [s] never matches. *)
Definition endsWith (s search : JSString) : bool :=
  let len := length s in
  let searchLength := length search in
  if (len <? searchLength)%nat then false
  else strictEq (drop (len - searchLength) s) search.

(** [s.substring(start, end)]: both indices are clamped to [0, s.length]
    and swapped when [start] is the larger one. *)
Definition clampIndex (len : nat) (i : Z) : nat :=
  Z.to_nat (Z.min (Z.max i 0) (Z.of_nat len)).

Definition substring (s : JSString) (start finish : Z) : JSString :=
  let a := clampIndex (length s) start in
  let b := clampIndex (length s) finish in
  let from := Nat.min a b in
  let to := Nat.max a b in
  take (to - from) (drop from s).

(** [s.replace(pattern, replacement)] with a string pattern: the first
    occurrence only.  The replacements used by the sources hold no [$],
    so no replacement pattern is expanded. *)
Fixpoint replace (s pattern replacement : JSString) : JSString :=
  if startsWith s pattern then replacement ++ drop (length pattern) s
  else
    match s with
    | [] => []
    | c :: s' => c :: replace s' pattern replacement
    end.

Fixpoint dropWhile (p : N -> bool) (s : JSString) : JSString :=
  match s with
  | [] => []
  | c :: s' => if p c then dropWhile p s' else s
  end.

Fixpoint takeWhile (p : N -> bool) (s : JSString) : JSString :=
  match s with
  | [] => []
  | c :: s' => if p c then c :: takeWhile p s' else []
  end.

Definition isSlash (c : N) : bool := N.eqb c 47.

(** [path.basename(p)] (POSIX, no extension argument): trailing slashes
    are skipped, then everything after the last remaining slash is kept. *)
Definition basename (p : JSString) : JSString :=
  rev (takeWhile (fun c => negb (isSlash c)) (dropWhile isSlash (rev p))).

(** The numbers met here are time values: an integer number of
    milliseconds, or NaN (the time value of an invalid [Date]). *)
Inductive Number : Type :=
  | NaN
  | Num (z : Z).

(** [Number::toString] as a template literal applies it.  Time values stay
    within 8.64e15 in absolute value, where the result is the plain decimal
    numeral, with a leading minus sign for negative values. *)
Definition numToString (n : Number) : JSString :=
  match n with
  | NaN => lit "NaN"
  | Num z => lit (NilZero.string_of_int (Z.to_int z))
  end.

(** [TimeClip]: a time value beyond 8.64e15 ms from the epoch is NaN. *)
Definition maxTime : Z := 8640000000000000.

Definition TimeClip (t : Number) : Number :=
  match t with
  | NaN => NaN
  | Num z => if (Z.abs z <=? maxTime) then Num z else NaN
  end.

(** [x - k] on numbers, for an integer [k]. *)
Definition numSub (x : Number) (k : Z) : Number :=
  match x with
  | NaN => NaN
  | Num z => Num (z - k)
  end.

(** A [Date] object holds its time value. *)
Record Date : Type := mkDate { timeValue : Number }.

(** [new Date(value)] and [d.getTime()]. *)
Definition newDate (value : Number) : Date := mkDate (TimeClip value).
Definition getTime (d : Date) : Number := timeValue d.

(** What can be thrown. *)
Inductive Exn : Type :=
  | Error (message : JSString)
  | TypeError (message : JSString).

(** [e.message] *)
Definition exnMessage (e : Exn) : JSString :=
  match e with
  | Error m => m
  | TypeError m => m
  end.

(** How the evaluation of a call ends: with a value, or by throwing (for
    an [async] function: the promise it returns is rejected). *)
Inductive Completion (A : Type) : Type :=
  | Return (a : A)
  | Throw (e : Exn).
Arguments Return {A} a.
Arguments Throw {A} e.

(** The double quote, as a one-unit string. *)
Definition dquote : JSString := [34%N].

(** An object that is handed on and never read here. *)
Definition JSObject : Type := list (JSString * JSString).

(** [`${v}`] for a value that may be [null]. *)
Definition renderOpt (v : option JSString) : JSString :=
  match v with
  | Some s => s
  | None => lit "null"
  end.

(** Modelled from the spec: the helper [isNotEmpty] of
    [@server/helpers/utils] is not among the sources.  It is taken as its
    name and its uses say: a missing value and an empty string or list are
    empty, anything else is not. *)
Definition isNotEmptyStr (v : option JSString) : bool :=
  match v with
  | Some s => truthyStr s
  | None => false
  end.

Definition isNotEmptyList {A : Type} (v : list A) : bool :=
  match v with [] => false | _ :: _ => true end.

End JS.
Import JS.

(** A line handed to [Server().log(message, type)]; [logType] is [None]
    when the call gives no type. *)
Record LogLine : Type := mkLog { logText : JSString; logType : option JSString }.

Definition logPlain (text : JSString) : LogLine := mkLog text None.
Definition logAs (text : JSString) (type : string) : LogLine := mkLog text (Some (lit type)).

(** ** Rows and records *)

Module Attachment.
(** The fields of the [Attachment] entity that the sources read or write.
    A column may hold no value ([null]). *)
Record t : Type := mk {
  guid : JSString;
  uti : option JSString;
  mimeType : option JSString;
  filePath : option JSString;
  transferName : option JSString
}.
End Attachment.

Module Message.
(** The fields of the [Message] entity that the sources read.
    [universalText] stands for the result of [message.universalText(false)]. *)
Record t : Type := mk {
  guid : JSString;
  dateDelivered : option Date;
  dateRead : option Date;
  universalText : option JSString;
  attachments : list Attachment.t
}.
End Message.

(** ** imessage helpers: cache names and attachment conversion *)
Module Imessage.

(** [date ? date.getTime() : 0]: a [Date] object is truthy whatever its
    time value, a date that is not set is [null]. *)
Definition timeOrZero (date : option Date) : Number :=
  match date with
  | Some d => getTime d
  | None => Num 0
  end.

(** [getCacheName]: the row's guid, then the delivery and read times in
    milliseconds, [0] standing for a date that is not set. *)
Definition getCacheName (message : Message.t) : JSString :=
  let delivered := timeOrZero (Message.dateDelivered message) in
  let read := timeOrZero (Message.dateRead message) in
  Message.guid message ++ lit ":" ++ numToString delivered ++ lit ":" ++ numToString read.

(** What the conversion functions use of [fs] and [FileSystem].  The
    converters read the attachment and write the file at the new path;
    they end normally or throw. *)
Record FileSystem : Type := mkFileSystem {
  convertDir : JSString;
  existsSync : JSString -> bool;
  convertCafToMp3 : Attachment.t -> JSString -> Completion unit;
  convertToJpg : JSString -> Attachment.t -> JSString -> Completion unit;
  convertToMp4 : Attachment.t -> JSString -> Completion unit
}.

(** The outcome of a conversion function: the value its promise resolves
    to ([None] is [null]), the attachment object as the call leaves it, and
    the lines logged. *)
Record Converted : Type := mkConverted {
  newPathOf : option JSString;
  attachmentOf : Attachment.t;
  logged : list LogLine
}.

(** The shared [if (!fs.existsSync(newPath)) { try { ... } catch { ... } }]
    block: [failed] and the lines logged.  [convert] is the call made when
    the extension was recognised. *)
Definition attemptConversion (fs : FileSystem) (newPath : JSString)
    (recognised : bool) (convert : Completion unit)
    (startLine failLine : JSString) : bool * list LogLine :=
  if existsSync fs newPath then (false, [])
  else
    if recognised then
      match convert with
      | Return _ => (false, [logPlain startLine])
      | Throw ex =>
          (true, [logPlain startLine; logAs failLine "debug"; logAs (exnMessage ex) "error"])
      end
    else (false, [logPlain startLine]).

(** The rewrite of the attachment after a successful conversion. *)
Definition rewritten (a : Attachment.t) (mime : string) (newPath ext newExt : JSString)
    : Attachment.t :=
  Attachment.mk (Attachment.guid a) (Attachment.uti a)
    (Some (lit mime))
    (Some newPath)
    (Some (replace (basename newPath) (lit "." ++ ext) newExt)).

Definition convertAudio (fs : FileSystem) (attachment : Attachment.t) : Converted :=
  let newPath := convertDir fs ++ lit "/" ++ Attachment.guid attachment ++ lit ".mp3" in
  let ext : option JSString :=
    if bool_decide (Attachment.uti attachment = Some (lit "com.apple.coreaudio-format"))
    then Some (lit "caf") else None in
  let '(failed, lines) :=
    attemptConversion fs newPath (bool_decide (ext = Some (lit "caf")))
      (convertCafToMp3 fs attachment newPath)
      (lit "Converting attachment, " ++ renderOpt (Attachment.transferName attachment)
         ++ lit ", to an MP3...")
      (lit "Failed to convert CAF to MP3 for attachment, "
         ++ renderOpt (Attachment.transferName attachment)) in
  match failed, ext with
  | false, Some e =>
      mkConverted (Some newPath) (rewritten attachment "audio/mp3" newPath e (lit ".mp3")) lines
  | _, _ => mkConverted None attachment lines
  end.

Definition convertImage (fs : FileSystem) (attachment : Attachment.t) : Converted :=
  let newPath := convertDir fs ++ lit "/" ++ Attachment.guid attachment ++ lit ".jpg" in
  let ext : option JSString :=
    if isNotEmptyStr (Attachment.mimeType attachment) then
      match Attachment.mimeType attachment with
      | Some m => if startsWith m (lit "image/heic") then Some (lit "heic") else None
      | None => None
      end
    else None in
  let '(failed, lines) :=
    attemptConversion fs newPath (bool_decide (ext = Some (lit "heic")))
      (convertToJpg fs (lit "heic") attachment newPath)
      (lit "Converting image attachment, " ++ renderOpt (Attachment.transferName attachment)
         ++ lit ", to an JPG...")
      (lit "Failed to convert image to JPG for attachment, "
         ++ renderOpt (Attachment.transferName attachment)) in
  match failed, ext with
  | false, Some e =>
      mkConverted (Some newPath) (rewritten attachment "image/jpg" newPath e (lit ".jpg")) lines
  | _, _ => mkConverted None attachment (lines ++ [logPlain (lit "Conversion returned null")])
  end.

Definition convertVideo (fs : FileSystem) (attachment : Attachment.t) : Converted :=
  let newPath := convertDir fs ++ lit "/" ++ Attachment.guid attachment ++ lit ".mp4" in
  let ext : option JSString :=
    if isNotEmptyStr (Attachment.mimeType attachment) then
      match Attachment.mimeType attachment with
      | Some m =>
          if bool_decide (Attachment.uti attachment = Some (lit "com.apple.quicktime-movie"))
             || startsWith m (lit "video/quicktime")
          then Some (lit "mov") else None
      | None => None
      end
    else None in
  let '(failed, lines) :=
    attemptConversion fs newPath (bool_decide (ext = Some (lit "mov")))
      (convertToMp4 fs attachment newPath)
      (lit "Converting video attachment, " ++ renderOpt (Attachment.transferName attachment)
         ++ lit ", to an MP4...")
      (lit "Failed to convert video to MP4 for attachment, "
         ++ renderOpt (Attachment.transferName attachment)) in
  match failed, ext with
  | false, Some e =>
      mkConverted (Some newPath) (rewritten attachment "video/mp4" newPath e (lit ".mp4")) lines
  | _, _ => mkConverted None attachment (lines ++ [logPlain (lit "Conversion returned null")])
  end.

(** The formats each conversion function recognises, and a conversion
    that is attempted and throws. *)
Definition audioRecognised (a : Attachment.t) : Prop :=
  Attachment.uti a = Some (lit "com.apple.coreaudio-format").

Definition imageRecognised (a : Attachment.t) : Prop :=
  exists m, Attachment.mimeType a = Some m /\ startsWith m (lit "image/heic") = true.

Definition videoRecognised (a : Attachment.t) : Prop :=
  Attachment.uti a = Some (lit "com.apple.quicktime-movie")
  \/ exists m, Attachment.mimeType a = Some m /\ startsWith m (lit "video/quicktime") = true.

Definition attemptThrows (fs : FileSystem) (newPath : JSString) (convert : Completion unit)
    : Prop :=
  existsSync fs newPath = false /\ exists ex, convert = Throw ex.

(** What the claim on the conversion functions says of one of them, [r]
    being its outcome on [a]: an unrecognised format or a failed attempt
    gives [null] and leaves the attachment as it was; a returned path is
    the new path, and comes only with a recognised format, no failure and
    the three fields rewritten. *)
Definition RewritesOnlyOnSuccess (a : Attachment.t) (recognised throws : Prop)
    (newPath : JSString) (mime : string) (oldExt newExt : string) (r : Converted) : Prop :=
  (~ recognised \/ throws -> newPathOf r = None /\ attachmentOf r = a)
  /\ (newPathOf r = None -> attachmentOf r = a)
  /\ (forall path, newPathOf r = Some path ->
        recognised /\ ~ throws /\ path = newPath
        /\ attachmentOf r =
           Attachment.mk (Attachment.guid a) (Attachment.uti a) (Some (lit mime))
             (Some newPath)
             (Some (replace (basename newPath) (lit oldExt) (lit newExt)))).

End Imessage.
Import Imessage.

(** ** The message interface: outbound sends *)
Module MessageInterface.

(** Modelled from the spec: the class [MessagePromise] (the Send Request)
    is not among the sources.  A request keeps what it is constructed
    with: the chat identity, the expected text (the transfer name for an
    attachment), whether it is an attachment, [sentAt], the subject and
    the caller's correlation token [tempGuid]. *)
Record MessagePromise : Type := mkPromise {
  chatGuid : option JSString;
  text : option JSString;
  isAttachment : bool;
  sentAt : Number;
  subject : option JSString;
  tempGuid : option JSString
}.

(** The part of [Server()] the interface writes to: the log and the
    Reconciliation Queue [messageManager], in insertion order. *)
Record Server : Type := mkServer {
  logs : list LogLine;
  messageManager : list MessagePromise
}.

(** The value a private-API call resolves to; [identifier] may be missing. *)
Record ApiResult : Type := mkApiResult { identifier : option JSString }.

Record SendMessagePrivateApiParams : Type := mkPrivateParams {
  pp_chatGuid : option JSString;
  pp_message : option JSString;
  pp_attributedBody : option JSObject;
  pp_subject : option JSString;
  pp_effectId : option JSString;
  pp_selectedMessageGuid : option JSString;
  pp_partIndex : option Z
}.

(** Everything the interface calls and does not own: the clock, the send
    primitives, the store lookups, the settlement of a request's promise,
    and the constants of [mappings] and [constants].  A lookup in a phrase
    mapping gives [None] for a key the mapping does not hold. *)
Record World : Type := mkWorld {
  clock : Z;
  checkPrivateApiStatus : Completion unit;
  sendMessageHandler : option JSString -> JSString -> option JSString -> Completion unit;
  copyAttachment : option JSString -> option JSString -> Completion JSString;
  startMessages : Completion unit;
  privateSendMessage :
    option JSString -> option JSString -> option JSObject -> option JSString ->
    option JSString -> option JSString -> Z -> Completion (option ApiResult);
  privateSendReaction :
    option JSString -> JSString -> JSString -> Z -> Completion (option ApiResult);
  getMessage : JSString -> nat -> Completion (option Message.t);
  awaitPromise : MessagePromise -> Completion (option Message.t);
  reactionTextMap : JSString -> option JSString;
  negativeReactionTextMap : JSString -> option JSString;
  invisibleMediaChar : JSString
}.

(** [result?.identifier] when it is truthy: [None] stands for a missing
    result, a missing identifier and an empty one. *)
Definition identifierOf (result : option ApiResult) : option JSString :=
  match result ≫= identifier with
  | Some id => if truthyStr id then Some id else None
  | None => None
  end.

(** A computation reads and writes the server state and ends with a
    value or by throwing; what was written before a throw stays written. *)
Definition M (A : Type) : Type := Server -> Completion A * Server.

#[global] Instance M_ret : MRet M := fun A a s => (Return a, s).

#[global] Instance M_bind : MBind M := fun A B f c s =>
  match c s with
  | (Return a, s') => f a s'
  | (Throw e, s') => (Throw e, s')
  end.

Definition throw {A : Type} (e : Exn) : M A := fun s => (Throw e, s).

(** A computation that leaves the server state as it finds it. *)
Definition stateless {A : Type} (c : M A) : Prop := forall s, snd (c s) = s.

(** [await call]: the outcome of an outside call. *)
Definition await {A : Type} (c : Completion A) : M A := fun s => (c, s).

(** [Server().log(message, type)] *)
Definition log (l : LogLine) : M unit :=
  fun s => (Return tt, mkServer (logs s ++ [l]) (messageManager s)).

(** Modelled from the spec: [Server().messageManager.add(awaiter)], of the
    outgoing message manager, which is not among the sources.  The
    Reconciliation Queue holds its requests in insertion order, so a new
    request goes to the end. *)
Definition add (awaiter : MessagePromise) : M unit :=
  fun s => (Return tt, mkServer (logs s) (messageManager s ++ [awaiter])).

(** [!v] for a string that may be missing. *)
Definition falsy (v : option JSString) : bool := negb (isNotEmptyStr v).

(** [new Date(new Date().getTime() - 10000).getTime()] *)
Definition backdatedNow (w : World) : Number :=
  getTime (newDate (numSub (getTime (mkDate (Num (clock w)))) 10000)).

(** [`${v}`] for a value that may be [undefined]. *)
Definition renderUndef (v : option JSString) : JSString :=
  match v with
  | Some s => s
  | None => lit "undefined"
  end.

(** The re-fetch loop shared by the private-API paths:
    [while (!retMessage) { tryCount += 1; if (tryCount >= limit) break;
    await waitMs(..); retMessage = await getMessage(identifier, ..) }].
    [remaining] is [limit - tryCount] and [attempt] numbers the lookup. *)
Fixpoint refetch (w : World) (id : JSString) (remaining attempt : nat)
    (retMessage : option Message.t) : M (option Message.t) :=
  match retMessage with
  | Some _ => mret retMessage
  | None =>
      match remaining with
      | O => mret None
      | S O => mret None
      | S r =>
          next ← await (getMessage w id attempt);
          refetch w id r (S attempt) next
      end
  end.


Definition sendMessagePrivateApi (w : World) (p : SendMessagePrivateApiParams)
    : M Message.t :=
  _ ← await (checkPrivateApiStatus w);
  result ← await (privateSendMessage w (pp_chatGuid p) (pp_message p) (pp_attributedBody p)
                    (pp_subject p) (pp_effectId p) (pp_selectedMessageGuid p)
                    (default 0 (pp_partIndex p)));
  match identifierOf result with
  | None => throw (Error (lit "Failed to send message!"))
  | Some id =>
      first ← await (getMessage w id 0);
      retMessage ← refetch w id 40 1 first;
      match retMessage with
      | Some m => mret m
      | None => throw (Error (lit "Failed to send message! Message not found after 5 seconds!"))
      end
  end.

Record SendMessageParams : Type := mkSendParams {
  sm_chatGuid : option JSString;
  sm_message : option JSString;
  sm_method : option JSString;
  sm_attributedBody : option JSObject;
  sm_subject : option JSString;
  sm_effectId : option JSString;
  sm_selectedMessageGuid : option JSString;
  sm_tempGuid : option JSString;
  sm_partIndex : option Z
}.

(** [method = "apple-script"]: the default of an omitted method. *)
Definition methodOf (p : SendMessageParams) : JSString :=
  default (lit "apple-script") (sm_method p).

Definition sendMessageSync (w : World) (p : SendMessageParams) : M (option Message.t) :=
  if falsy (sm_chatGuid p) then throw (Error (lit "No chat GUID provided"))
  else
    _ ← log (logAs (lit "Sending message " ++ dquote ++ renderOpt (sm_message p) ++ dquote
                      ++ lit " to " ++ renderOpt (sm_chatGuid p)) "debug");
    let now := backdatedNow w in
    let awaiter :=
      mkPromise (sm_chatGuid p) (sm_message p) false now (sm_subject p) (sm_tempGuid p) in
    _ ← log (logPlain (lit "Adding await for chat: " ++ dquote ++ renderOpt (sm_chatGuid p)
                         ++ dquote ++ lit "; text: " ++ renderOpt (text awaiter)
                         ++ lit "; tempGuid: " ++ default (lit "N/A") (sm_tempGuid p)));
    _ ← add awaiter;
    if strictEq (methodOf p) (lit "apple-script") then
      _ ← await (sendMessageHandler w (sm_chatGuid p) (default [] (sm_message p)) None);
      await (awaitPromise w awaiter)
    else if strictEq (methodOf p) (lit "private-api") then
      m ← sendMessagePrivateApi w
            (mkPrivateParams (sm_chatGuid p) (sm_message p) (sm_attributedBody p)
               (sm_subject p) (sm_effectId p) (sm_selectedMessageGuid p) (sm_partIndex p));
      mret (Some m)
    else throw (Error (lit "Invalid send method: " ++ methodOf p)).

Record SendAttachmentParams : Type := mkAttachmentParams {
  sa_chatGuid : option JSString;
  sa_attachmentPath : option JSString;
  sa_attachmentName : option JSString;
  sa_attachmentGuid : option JSString
}.

(** The name the request waits for: [.mp3] names are sent as [.caf]. *)
Definition awaitedName (attachmentName : option JSString) : option JSString :=
  match attachmentName with
  | Some aName =>
      if endsWith aName (lit ".mp3")
      then Some (substring aName 0 (Z.of_nat (length aName) - 4) ++ lit ".caf")
      else Some aName
  | None => None
  end.

Definition sendAttachmentSync (w : World) (p : SendAttachmentParams) : M (option Message.t) :=
  if falsy (sa_chatGuid p) then throw (Error (lit "No chat GUID provided"))
  else
    newPath ← await (copyAttachment w (sa_attachmentPath p) (sa_attachmentName p));
    _ ← log (logAs (lit "Sending attachment " ++ dquote ++ renderOpt (sa_attachmentName p)
                      ++ dquote ++ lit " to " ++ renderOpt (sa_chatGuid p)) "debug");
    _ ← await (startMessages w);
    let aName := awaitedName (sa_attachmentName p) in
    let now := backdatedNow w in
    let awaiter := mkPromise (sa_chatGuid p) aName true now None (sa_attachmentGuid p) in
    _ ← log (logPlain (lit "Adding await for chat: " ++ dquote ++ renderOpt (sa_chatGuid p)
                         ++ dquote ++ lit "; attachment: " ++ renderOpt aName
                         ++ lit "; tempGuid: " ++ default (lit "N/A") (sa_attachmentGuid p)));
    _ ← add awaiter;
    _ ← await (sendMessageHandler w (sa_chatGuid p) [] (Some newPath));
    await (awaitPromise w awaiter).

Record SendReactionParams : Type := mkReactionParams {
  sr_chatGuid : option JSString;
  sr_message : Message.t;
  sr_reaction : JSString;
  sr_tempGuid : option JSString;
  sr_partIndex : option Z
}.

(** The opening and closing curly quotes, U+201C and U+201D. *)
Definition openQuote : JSString := [8220%N].
Definition closeQuote : JSString := [8221%N].

(** [prefix]: the phrase of the reaction, from the negative mapping when
    the name starts with a minus sign. *)
Definition reactionPrefix (w : World) (reaction : JSString) : option JSString :=
  if startsWith reaction (lit "-")
  then negativeReactionTextMap w reaction
  else reactionTextMap w reaction.

(** [text] and [isOnlyMedia] of [sendReaction]. *)
Definition targetText (message : Message.t) : JSString :=
  default [] (Message.universalText message).

Definition isOnlyMedia (w : World) (message : Message.t) : bool :=
  (length (targetText message) =? 1)%nat && strictEq (targetText message) (invisibleMediaChar w).

(** [msg]: the quoted text, or the phrase naming the first attachment.
    Reading [mimeType.startsWith] of an attachment without a MIME type
    throws. *)
Definition reactionTarget (w : World) (message : Message.t) : Completion JSString :=
  if isOnlyMedia w message && isNotEmptyList (Message.attachments message) then
    match Message.attachments message with
    | first :: _ =>
        match Attachment.mimeType first with
        | Some mime =>
            if startsWith mime (lit "image") then Return (lit "an image")
            else if startsWith mime (lit "video") then Return (lit "a movie")
            else Return (lit "an attachment")
        | None => Throw (TypeError (lit "Cannot read properties of null (reading 'startsWith')"))
        end
    | [] => Throw (TypeError (lit "Cannot read properties of undefined (reading 'mimeType')"))
    end
  else Return (openQuote ++ targetText message ++ closeQuote).

(** [messageText]: the text the request is matched on. *)
Definition reactionMessageText (w : World) (message : Message.t) (reaction : JSString)
    : Completion JSString :=
  match reactionTarget w message with
  | Return msg => Return (renderUndef (reactionPrefix w reaction) ++ lit " " ++ msg)
  | Throw e => Throw e
  end.

Definition sendReaction (w : World) (p : SendReactionParams) : M Message.t :=
  _ ← await (checkPrivateApiStatus w);
  messageText ← await (reactionMessageText w (sr_message p) (sr_reaction p));
  let now := backdatedNow w in
  let awaiter := mkPromise (sr_chatGuid p) (Some messageText) false now None (sr_tempGuid p) in
  _ ← add awaiter;
  result ← await (privateSendReaction w (sr_chatGuid p) (Message.guid (sr_message p))
                    (sr_reaction p) (default 0 (sr_partIndex p)));
  match identifierOf result with
  | None => throw (Error (lit "Failed to send reaction! No message GUID returned."))
  | Some id =>
      _ ← log (logAs (lit "Reaction sent with Message GUID: " ++ id) "debug");
      first ← await (getMessage w id 0);
      fetched ← refetch w id 20 1 first;
      retMessage ← match fetched with
                   | Some m => mret (Some m)
                   | None => await (awaitPromise w awaiter)
                   end;
      match retMessage with
      | Some m => mret m
      | None => throw (Error (lit "Failed to send reaction! Message not found after 5 seconds!"))
      end
  end.

(** The requests a run adds to the Reconciliation Queue. *)
Definition enqueuedBy {A : Type} (c : M A) (s : Server) : list MessagePromise :=
  drop (length (messageManager s)) (messageManager (snd (c s))).

End MessageInterface.

(** ** The helper channel *)
Module HelperProcess.

(** The value [JSON.parse] gives; a number is kept by its literal, an
    object by its members in the order of the text. *)
Inductive JSON : Type :=
  | JNull
  | JBool (b : bool)
  | JNumber (literal : JSString)
  | JString (s : JSString)
  | JArray (items : list JSON)
  | JObject (members : list (JSString * JSON)).

(** The member an object holds under [key]: of two members of one name,
    [JSON.parse] keeps the later. *)
Fixpoint member (key : JSString) (members : list (JSString * JSON)) : option JSON :=
  match members with
  | [] => None
  | (k, v) :: rest =>
      match member key rest with
      | Some later => Some later
      | None => if strictEq k key then Some v else None
      end
  end.

(** [data.key] for one of the names [event] and [guid], which no string,
    number, boolean or array has; [None] is [undefined].  Reading a
    property of [null] throws. *)
Definition getProp (data : JSON) (key : JSString) : Completion (option JSON) :=
  match data with
  | JNull => Throw (TypeError (lit "Cannot read properties of null"))
  | JObject members => Return (member key members)
  | _ => Return None
  end.

(** [v === "literal"] *)
Definition isString (v : option JSON) (literal : string) : bool :=
  match v with
  | Some (JString s) => strictEq s (lit literal)
  | _ => false
  end.

(** What [Server().emitMessage("typing-indicator", { display, guid })]
    sends. *)
Record Notification : Type := mkNotification {
  kind : JSString;
  display : bool;
  guid : option JSON
}.

(** What a run of the handler leaves behind. *)
Record Effects : Type := mkEffects {
  emitted : list Notification;
  logged : list LogLine
}.

(** The [data] handler that [setupListeners] installs.  [parse] is
    [JSON.parse].  Where [data] is rendered into a log line it is an
    object, which a template literal renders as [[object Object]]. *)
Definition onData (parse : JSString -> Completion JSON) (event : JSString)
    : Completion unit * Effects :=
  match parse event with
  | Throw e => (Throw e, mkEffects [] [])
  | Return data =>
      match getProp data (lit "event") with
      | Throw e => (Throw e, mkEffects [] [])
      | Return ev =>
          let last := logPlain (lit "Helper gave new data! " ++ event) in
          if isString ev "started-typing" then
            match getProp data (lit "guid") with
            | Throw e => (Throw e, mkEffects [] [])
            | Return g =>
                (Return tt,
                 mkEffects [mkNotification (lit "typing-indicator") true g]
                   [logPlain (lit "Started typing! [object Object]"); last])
            end
          else if isString ev "stopped-typing" then
            match getProp data (lit "guid") with
            | Throw e => (Throw e, mkEffects [] [])
            | Return g =>
                (Return tt,
                 mkEffects [mkNotification (lit "typing-indicator") false g]
                   [logPlain (lit "Stopped typing! [object Object]"); last])
            end
          else (Return tt, mkEffects [] [last])
      end
  end.

(** The [event] and [guid] fields of a received line, when it parses to
    a value that has them. *)
Definition fieldOf (parse : JSString -> Completion JSON) (event : JSString) (key : string)
    : option JSON :=
  match parse event with
  | Return (JObject members) => member (lit key) members
  | _ => None
  end.

End HelperProcess.

(** ** The attributed-body column transformer *)
Module Transformers.

(** One element of a decoded group's [values].  [V] is the type of the
    field values of an [NSAttributedString], which the transformer moves
    and never reads. *)
Inductive Archived (V : Type) : Type :=
  | Falsy
  | Other (className : JSString)
  | AttributedString (fields : gmap JSString V).
Arguments Falsy {V}.
Arguments Other {V} className.
Arguments AttributedString {V} fields.

(** An element of the array [decodeAll()] returns: [None] is a missing
    element, [values] is [None] when the element has no such array. *)
Record Group (V : Type) : Type := mkGroup { values : option (list (Archived V)) }.
Arguments mkGroup {V} values.
Arguments values {V} g.

(** [e && e instanceof NSAttributedString] *)
Definition keep {V : Type} (e : Archived V) : option (gmap JSString V) :=
  match e with
  | AttributedString fields => Some fields
  | _ => None
  end.

(** The renaming of [value] to [string]. *)
Definition rename {V : Type} (e : gmap JSString V) : gmap JSString V :=
  match e !! lit "value" with
  | Some v => delete (lit "value") (<[lit "string" := v]> e)
  | None => e
  end.

(** The body of the [try] block.  [isEmpty(attributedBody)] is taken as
    for [isNotEmpty]: it holds of the array without elements. *)
Definition decodeBody {V : Type} (attributedBody : Completion (list (option (Group V))))
    : Completion (option (list (gmap JSString V))) :=
  match attributedBody with
  | Throw e => Throw e
  | Return [] => Return None
  | Return (None :: _) => Throw (TypeError (lit "Cannot read properties of undefined (reading 'values')"))
  | Return (Some g :: _) =>
      match values g with
      | None => Throw (TypeError (lit "Cannot read properties of undefined (reading 'filter')"))
      | Some vs => Return (Some (map rename (omap keep vs)))
      end
  end.

(** [AttributedBodyTransformer.from]: [unarchive] is
    [Unarchiver.open(dbValue).decodeAll()]; the result is the value
    returned ([None] is [null]) and the lines logged. *)
Definition from {DbValue V : Type}
    (unarchive : DbValue -> Completion (list (option (Group V)))) (dbValue : DbValue)
    : Completion (option (list (gmap JSString V))) * list LogLine :=
  match decodeBody (unarchive dbValue) with
  | Return r => (Return r, [])
  | Throw e =>
      (Return None,
       [logAs (lit "Failed to deserialize attributedBody: " ++ exnMessage e) "debug"])
  end.

(** [AttributedBodyTransformer.to] *)
Definition to {A V : Type} (_ : A) : option (list (gmap JSString V)) := None.

End Transformers.

(** ** The server's start-up of its listeners *)
Module ServerMain.

(** [MessageRepository]: [db] is the store handle, [None] while the
    store has not been opened. *)
Record MessageRepository : Type := mkRepo { db : option N }.

(** The objects handlers are registered on with [.on(event, ..)]. *)
Inductive Emitter : Type :=
  | QueueService
  | NewMsgListener
  | UpdatedMsgListener
  | GroupChangeListener.

(** A listener as [startChatListener] constructs it. *)
Record Listener : Type := mkListener { source : Emitter; pollFrequency : Z }.

(** [alertService.create(type, message)] *)
Record Alert : Type := mkAlert { alertType : JSString; alertMessage : JSString }.

(** The fields of [BlueBubblesServer] that starting the listeners reads
    or writes.  The services are those [setup] has constructed. *)
Record BlueBubblesServer : Type := mkState {
  iMessageRepo : option MessageRepository;
  alerts : list Alert;
  console : list JSString;
  socketStarted : bool;
  fcmStarted : bool;
  queueStarted : bool;
  listeners : list Listener;
  handlers : list (Emitter * JSString);
  ipcHandlers : list JSString
}.

Definition createAlert (type message : string) (st : BlueBubblesServer) : BlueBubblesServer :=
  mkState (iMessageRepo st) (alerts st ++ [mkAlert (lit type) (lit message)]) (console st)
    (socketStarted st) (fcmStarted st) (queueStarted st) (listeners st) (handlers st)
    (ipcHandlers st).

(** [this.log(message)] without a type: the line goes to the console
    (the copy sent to the window is left out). *)
Definition log (message : string) (st : BlueBubblesServer) : BlueBubblesServer :=
  mkState (iMessageRepo st) (alerts st) (console st ++ [lit message])
    (socketStarted st) (fcmStarted st) (queueStarted st) (listeners st) (handlers st)
    (ipcHandlers st).

Definition startSockets (st : BlueBubblesServer) : BlueBubblesServer :=
  mkState (iMessageRepo st) (alerts st) (console st) true true (queueStarted st)
    (listeners st) (handlers st) (ipcHandlers st).

Definition startQueue (st : BlueBubblesServer) : BlueBubblesServer :=
  mkState (iMessageRepo st) (alerts st) (console st) (socketStarted st) (fcmStarted st) true
    (listeners st) (handlers st) (ipcHandlers st).

Definition construct (ls : list Listener) (st : BlueBubblesServer) : BlueBubblesServer :=
  mkState (iMessageRepo st) (alerts st) (console st) (socketStarted st) (fcmStarted st)
    (queueStarted st) (listeners st ++ ls) (handlers st) (ipcHandlers st).

Definition on (e : Emitter) (events : list string) (st : BlueBubblesServer) : BlueBubblesServer :=
  mkState (iMessageRepo st) (alerts st) (console st) (socketStarted st) (fcmStarted st)
    (queueStarted st) (listeners st) (handlers st ++ map (fun ev => (e, lit ev)) events)
    (ipcHandlers st).

Definition handle (channels : list string) (st : BlueBubblesServer) : BlueBubblesServer :=
  mkState (iMessageRepo st) (alerts st) (console st) (socketStarted st) (fcmStarted st)
    (queueStarted st) (listeners st) (handlers st) (ipcHandlers st ++ map lit channels).

(** The notice created when the store handle is missing. *)
Definition restartNotice : string :=
  "Restart the app once 'Full Disk Access' and 'Accessibility' permissions are enabled".

(** [startChatListener]; [pollMs] is [DEFAULT_POLL_FREQUENCY_MS]. *)
Definition startChatListener (pollMs : Z) (st : BlueBubblesServer)
    : Completion unit * BlueBubblesServer :=
  match iMessageRepo st with
  | None => (Throw (TypeError (lit "Cannot read properties of null (reading 'db')")), st)
  | Some repo =>
      match db repo with
      | None => (Return tt, createAlert "info" restartNotice st)
      | Some _ =>
          let st := startQueue st in
          let st := on QueueService ["message-timeout"; "message-match"] st in
          let st := construct [mkListener NewMsgListener pollMs;
                               mkListener UpdatedMsgListener pollMs;
                               mkListener GroupChangeListener (pollMs * 2)] st in
          let st := on NewMsgListener ["new-entry"] st in
          let st := on UpdatedMsgListener ["updated-entry"] st in
          let st := on GroupChangeListener
                      ["name-change"; "participant-removed"; "participant-added";
                       "participant-left"] st in
          (Return tt, st)
      end
  end.

(** The channels [startIpcListener] registers with [ipcMain.handle]. *)
Definition ipcChannels : list string :=
  ["set-config"; "get-config"; "get-message-count"; "get-chat-image-count";
   "get-group-message-counts"; "get-individual-message-counts"; "set-fcm-server";
   "set-fcm-client"; "get-devices"; "get-fcm-server"; "get-fcm-client";
   "complete-tutorial"; "get-alerts"; "mark-alert-as-read"].

Definition startIpcListener (st : BlueBubblesServer) : BlueBubblesServer :=
  handle ipcChannels st.

(** [start] from the end of [setup] to the call of [connectToNgrok]. *)
Definition startListeners (pollMs : Z) (st : BlueBubblesServer)
    : Completion unit * BlueBubblesServer :=
  let st := log "Starting socket service..." st in
  let st := startSockets st in
  let st := log "Starting chat listener..." st in
  match startChatListener pollMs st with
  | (Throw e, st) => (Throw e, st)
  | (Return _, st) =>
      let st := startIpcListener st in
      (Return tt, log "Connecting to Ngrok..." st)
  end.

End ServerMain.

(** ** Concrete rows and a concrete world, for the examples *)
Module Samples.

Definition rowPending : Message.t :=
  Message.mk (lit "msg-1") None None (Some (lit "hello")) [].

Definition rowDelivered : Message.t :=
  Message.mk (lit "msg-1") (Some (newDate (Num 1700000000000))) None (Some (lit "hello")) [].

(** The same row with a delivery date at the epoch instant, [new Date(0)]. *)
Definition rowDeliveredAtEpoch : Message.t :=
  Message.mk (lit "msg-1") (Some (newDate (Num 0))) None (Some (lit "hello")) [].

(** U+FFFC, the object replacement character. *)
Definition mediaChar : JSString := [65532%N].

Definition photo : Attachment.t :=
  Attachment.mk (lit "att-1") (Some (lit "public.png")) (Some (lit "image/png"))
    (Some (lit "~/Library/Messages/a.png")) (Some (lit "a.png")).

Definition untyped : Attachment.t :=
  Attachment.mk (lit "att-2") None None (Some (lit "~/Library/Messages/b.bin"))
    (Some (lit "b.bin")).

Definition rowPhoto : Message.t := Message.mk (lit "msg-2") None None (Some mediaChar) [photo].
Definition rowUntyped : Message.t := Message.mk (lit "msg-3") None None (Some mediaChar) [untyped].

(** A world in which every outside call succeeds, the private API gives
    [identifier] and the store finds the row at once.  The mappings hold
    the two phrases the specification names. *)
Definition world (identifier : option JSString) : MessageInterface.World :=
  MessageInterface.mkWorld
    1700000000000
    (Return tt)
    (fun _ _ _ => Return tt)
    (fun _ _ => Return (lit "/tmp/attachments/voice.mp3"))
    (Return tt)
    (fun _ _ _ _ _ _ _ => Return (Some (MessageInterface.mkApiResult identifier)))
    (fun _ _ _ _ => Return (Some (MessageInterface.mkApiResult identifier)))
    (fun _ _ => Return (Some rowDelivered))
    (fun _ => Return (Some rowDelivered))
    (fun k => if strictEq k (lit "love") then Some (lit "Loved") else None)
    (fun k => if strictEq k (lit "-love") then Some (lit "Removed a heart from") else None)
    mediaChar.

Definition idle : MessageInterface.Server := MessageInterface.mkServer [] [].

Definition textParams (chat : option JSString) : MessageInterface.SendMessageParams :=
  MessageInterface.mkSendParams chat (Some (lit "hello")) None None None None None None None.

Definition voiceParams (chat : option JSString) : MessageInterface.SendAttachmentParams :=
  MessageInterface.mkAttachmentParams chat (Some (lit "/tmp/voice.mp3"))
    (Some (lit "voice.mp3")) None.

Definition reactionParams (target : Message.t) : MessageInterface.SendReactionParams :=
  MessageInterface.mkReactionParams (Some (lit "chat-1")) target (lit "love") None None.

(** A file system with nothing converted yet; [converts] says whether
    the converters succeed. *)
Definition disk (converts : bool) : FileSystem :=
  let outcome := if converts then Return tt else Throw (Error (lit "afconvert failed")) in
  mkFileSystem (lit "/tmp/convert") (fun _ => false)
    (fun _ _ => outcome) (fun _ _ _ => outcome) (fun _ _ => outcome).

Definition voiceMemo : Attachment.t :=
  Attachment.mk (lit "att-3") (Some (lit "com.apple.coreaudio-format")) (Some (lit "audio/x-caf"))
    (Some (lit "~/Library/Messages/memo.caf")) (Some (lit "memo.caf")).

Definition heicPhoto : Attachment.t :=
  Attachment.mk (lit "att-4") (Some (lit "public.heic")) (Some (lit "image/heic"))
    (Some (lit "~/Library/Messages/c.heic")) (Some (lit "c.heic")).

Definition movie : Attachment.t :=
  Attachment.mk (lit "att-5") (Some (lit "com.apple.quicktime-movie")) (Some (lit "video/quicktime"))
    (Some (lit "~/Library/Messages/d.mov")) (Some (lit "d.mov")).

Definition privateParams : MessageInterface.SendMessagePrivateApiParams :=
  MessageInterface.mkPrivateParams (Some (lit "chat-1")) (Some (lit "hello")) None None None
    None None.

(** The helper line of a [started-typing] event for the chat [chat-1],
    and [JSON.parse] as far as this line goes. *)
Definition typingLine : JSString :=
  lit "{" ++ dquote ++ lit "event" ++ dquote ++ lit ":" ++ dquote ++ lit "started-typing"
    ++ dquote ++ lit "," ++ dquote ++ lit "guid" ++ dquote ++ lit ":" ++ dquote
    ++ lit "chat-1" ++ dquote ++ lit "}".

Definition parseTyping (line : JSString) : Completion HelperProcess.JSON :=
  if strictEq line typingLine then
    Return (HelperProcess.JObject
              [(lit "event", HelperProcess.JString (lit "started-typing"));
               (lit "guid", HelperProcess.JString (lit "chat-1"))])
  else Throw (Error (lit "Unexpected token")).

(** Three column values: one that decodes to nothing, one that does not
    decode, and one that decodes to an attributed string beside a value of
    another class. *)
Definition emptyArchive (dbValue : unit) : Completion (list (option (Transformers.Group JSString))) :=
  Return [].

Definition brokenArchive (dbValue : unit) : Completion (list (option (Transformers.Group JSString))) :=
  Throw (Error (lit "unexpected end of stream")).

Definition bodyArchive (dbValue : unit) : Completion (list (option (Transformers.Group JSString))) :=
  Return [Some (Transformers.mkGroup
                  (Some [Transformers.AttributedString {[ lit "value" := lit "hello" ]};
                         Transformers.Other (lit "NSDictionary");
                         Transformers.Falsy]))].

(** A server whose store could not be opened. *)
Definition withoutStore : ServerMain.BlueBubblesServer :=
  ServerMain.mkState (Some (ServerMain.mkRepo None)) [] [] false false false [] [] [].

End Samples.

(** ** The message interface, continued: edits and unsends *)
Module MessageEdits.
Import MessageInterface.

(** [w] with another store behind [getMessage]. *)
Definition withGetMessage (w : World)
    (lookups : JSString -> nat -> Completion (option Message.t)) : World :=
  mkWorld (clock w) (checkPrivateApiStatus w) (sendMessageHandler w) (copyAttachment w)
    (startMessages w) (privateSendMessage w) (privateSendReaction w) lookups (awaitPromise w)
    (reactionTextMap w) (negativeReactionTextMap w) (invisibleMediaChar w).

(** The two further primitives of [privateApiHelper]; what they resolve
    to is not read. *)
Record EditWorld : Type := mkEditWorld {
  world : World;
  privateUnsendMessage : option JSString -> JSString -> Z -> Completion unit;
  privateEditMessage :
    option JSString -> JSString -> option JSString -> option JSString -> Z -> Completion unit
}.

Record UnsendMessageParams : Type := mkUnsendParams {
  um_chatGuid : option JSString;
  um_messageGuid : JSString;
  um_partIndex : option Z
}.

Definition unsendMessage (ew : EditWorld) (p : UnsendMessageParams) : M Message.t :=
  let w := world ew in
  _ ← await (checkPrivateApiStatus w);
  _ ← await (privateUnsendMessage ew (um_chatGuid p) (um_messageGuid p)
               (default 0 (um_partIndex p)));
  first ← await (getMessage w (um_messageGuid p) 0);
  retMessage ← refetch w (um_messageGuid p) 40 1 first;
  match retMessage with
  | Some m => mret m
  | None => throw (Error (lit "Failed to unsend message! Message not found after 5 seconds!"))
  end.

Record EditMessageParams : Type := mkEditParams {
  em_chatGuid : option JSString;
  em_messageGuid : JSString;
  em_editedMessage : option JSString;
  em_backwardsCompatMessage : option JSString;
  em_partIndex : option Z
}.

Definition editMessage (ew : EditWorld) (p : EditMessageParams) : M Message.t :=
  let w := world ew in
  _ ← await (checkPrivateApiStatus w);
  _ ← await (privateEditMessage ew (em_chatGuid p) (em_messageGuid p) (em_editedMessage p)
               (em_backwardsCompatMessage p) (default 0 (em_partIndex p)));
  first ← await (getMessage w (em_messageGuid p) 0);
  retMessage ← refetch w (em_messageGuid p) 40 1 first;
  match retMessage with
  | Some m => mret m
  | None => throw (Error (lit "Failed to edit message! Message not found after 5 seconds!"))
  end.

End MessageEdits.

(** ** Further worlds, for the examples of the later sections *)
Module MoreSamples.
Import MessageInterface MessageEdits.

(** A store that finds the row at the fourth lookup, and one that never
    finds it. *)
Definition slowWorld : World :=
  withGetMessage (Samples.world (Some (lit "msg-9")))
    (fun _ attempt => if (attempt <? 3)%nat then Return None else Return (Some Samples.rowDelivered)).

Definition blindWorld : World :=
  withGetMessage (Samples.world (Some (lit "msg-9"))) (fun _ _ => Return None).

(** The same two stores, answering only while the loops look. *)
Definition cutOff (limit : nat) (w : World) : JSString -> nat -> Completion (option Message.t) :=
  fun id attempt =>
    if (attempt <? limit)%nat then getMessage w id attempt
    else Throw (Error (lit "store closed")).

Definition slowEdits : EditWorld :=
  mkEditWorld slowWorld (fun _ _ _ => Return tt) (fun _ _ _ _ _ => Return tt).

Definition unsendParams : UnsendMessageParams :=
  mkUnsendParams (Some (lit "chat-1")) (lit "msg-1") None.

Definition editParams : EditMessageParams :=
  mkEditParams (Some (lit "chat-1")) (lit "msg-1") (Some (lit "hello!")) (Some (lit "Edited"))
    None.

Definition oddMethodParams : SendMessageParams :=
  mkSendParams (Some (lit "chat-1")) (Some (lit "hello")) (Some (lit "carrier-pigeon")) None
    None None None None None.

(** A text send over the private API. *)
Definition privateApiSend : SendMessageParams :=
  mkSendParams (Some (lit "chat-1")) (Some (lit "hello")) (Some (lit "private-api")) None
    None None None None None.

End MoreSamples.


(** ** imessage helpers, continued: attachment metadata *)
Module AttachmentMetadata.

(** A guid such as the store gives attachments: not empty, without a
    slash and without a dot. *)
Definition plainGuid (g : JSString) : Prop :=
  g <> [] /\ Forall (fun c => c <> 47%N /\ c <> 46%N) g.

Section Metadata.

(** The values metadata fields hold.  The function reads only whether
    [height] and [width] are truthy. *)
Variable V : Type.
Variable truthy : V -> bool.

(** What an extractor resolves to: nothing, [null], or an object. *)
Inductive Metadata : Type :=
  | MUndefined
  | MNull
  | MObject (fields : gmap JSString V).

(** [image.getSize()] *)
Record Size : Type := mkSize { height : V; width : V }.

(** The extractors of [FileSystem], the list [handledImageMimes], and
    [nativeImage.createFromPath(FileSystem.getRealPath(path))] followed by
    [getSize()]: [None] when there is no image or no size. *)
Record Extractors : Type := mkExtractors {
  getAudioMetadata : option JSString -> Completion Metadata;
  getImageMetadata : option JSString -> Completion Metadata;
  getVideoMetadata : option JSString -> Completion Metadata;
  handledImageMimes : list JSString;
  nativeSize : option JSString -> Completion (option Size)
}.

(** [!metadata?.key] *)
Definition lacks (metadata : Metadata) (key : string) : bool :=
  match metadata with
  | MObject fields =>
      match fields !! lit key with
      | Some v => negb (truthy v)
      | None => true
      end
  | _ => true
  end.

(** [x.startsWith(prefix)] for a MIME type that may be missing: reading
    the method of a missing one throws. *)
Definition mimeStartsWith (mime : option JSString) (prefix : string) : Completion bool :=
  match mime with
  | Some m => Return (startsWith m (lit prefix))
  | None => Throw (TypeError (lit "Cannot read properties of null (reading 'startsWith')"))
  end.

(** The body of the [try] block in the image branch: the metadata as it
    is left, and the lines logged. *)
Definition fillFromNativeImage (ex : Extractors) (attachment : Attachment.t)
    (metadata : Metadata) : Completion Metadata * list LogLine :=
  let isHandled :=
    match Attachment.mimeType attachment with
    | Some m => bool_decide (m ∈ handledImageMimes ex)
    | None => false
    end in
  if isHandled && (lacks metadata "height" || lacks metadata "width") then
    let started := logAs (lit "Image metadata empty, getting size from NativeImage...") "debug" in
    match nativeSize ex (Attachment.filePath attachment) with
    | Throw e => (Throw e, [started])
    | Return None => (Return metadata, [started])
    | Return (Some size) =>
        if truthy (height size) && truthy (width size) then
          match metadata with
          | MNull =>
              (Return (MObject (<[lit "width" := width size]>
                                  (<[lit "height" := height size]> ∅))), [started])
          | MObject fields =>
              (Return (MObject (<[lit "width" := width size]>
                                  (<[lit "height" := height size]> fields))), [started])
          | MUndefined =>
              (Throw (TypeError (lit "Cannot set properties of undefined (setting 'height')")),
               [started])
          end
        else (Return metadata, [started])
    end
  else (Return metadata, []).

Definition getAttachmentMetadata (ex : Extractors) (attachment : Attachment.t)
    : Completion Metadata * list LogLine :=
  let isCoreAudio :=
    bool_decide (Attachment.uti attachment = Some (lit "com.apple.coreaudio-format")) in
  if negb isCoreAudio && negb (isNotEmptyStr (Attachment.mimeType attachment))
  then (Return MUndefined, [])
  else
    let isAudio :=
      if isCoreAudio then Return true
      else mimeStartsWith (Attachment.mimeType attachment) "audio" in
    match isAudio with
    | Throw e => (Throw e, [])
    | Return true => (getAudioMetadata ex (Attachment.filePath attachment), [])
    | Return false =>
        match mimeStartsWith (Attachment.mimeType attachment) "image" with
        | Throw e => (Throw e, [])
        | Return true =>
            match getImageMetadata ex (Attachment.filePath attachment) with
            | Throw e => (Throw e, [])
            | Return metadata =>
                match fillFromNativeImage ex attachment metadata with
                | (Return filled, lines) => (Return filled, lines)
                | (Throw _, lines) =>
                    (Return metadata,
                     lines ++ [logAs (lit "Failed to load size data from NativeImage!") "debug"])
                end
            end
        | Return false =>
            match mimeStartsWith (Attachment.mimeType attachment) "video" with
            | Throw e => (Throw e, [])
            | Return true => (getVideoMetadata ex (Attachment.filePath attachment), [])
            | Return false => (Return MUndefined, [])
            end
        end
    end.

End Metadata.

Arguments MUndefined {V}.
Arguments MNull {V}.
Arguments MObject {V} fields.
Arguments mkSize {V} height width.
Arguments height {V} s.
Arguments width {V} s.
Arguments mkExtractors {V} _ _ _ _ _.
Arguments getAudioMetadata {V} e _.
Arguments getImageMetadata {V} e _.
Arguments getVideoMetadata {V} e _.
Arguments handledImageMimes {V} e.
Arguments nativeSize {V} e _.
Arguments lacks {V} truthy metadata key.
Arguments fillFromNativeImage {V} truthy ex attachment metadata.
Arguments getAttachmentMetadata {V} truthy ex attachment.

End AttachmentMetadata.


(** ** The helper channel, continued: connections and outbound commands *)
Module HelperCommands.

(** [JSON.stringify] of a string ([QuoteJSONString]): the quote and the
    backslash are escaped, control characters get their short escape or a
    [\u] escape, a surrogate that is not part of a pair gets a [\u]
    escape, and every other code unit is kept. *)
Definition isHighSurrogate (c : N) : bool := (55296 <=? c)%N && (c <=? 56319)%N.
Definition isLowSurrogate (c : N) : bool := (56320 <=? c)%N && (c <=? 57343)%N.

Definition hexDigit (n : N) : N := if (n <? 10)%N then (48 + n)%N else (87 + n)%N.

Definition unicodeEscape (c : N) : JSString :=
  [92%N; 117%N; hexDigit (c / 4096); hexDigit ((c / 256) mod 16);
   hexDigit ((c / 16) mod 16); hexDigit (c mod 16)].

Definition escapeUnit (c : N) : JSString :=
  if (c =? 8)%N then [92%N; 98%N]
  else if (c =? 9)%N then [92%N; 116%N]
  else if (c =? 10)%N then [92%N; 110%N]
  else if (c =? 12)%N then [92%N; 102%N]
  else if (c =? 13)%N then [92%N; 114%N]
  else if (c =? 34)%N then [92%N; 34%N]
  else if (c =? 92)%N then [92%N; 92%N]
  else if (c <? 32)%N then unicodeEscape c
  else [c].

Fixpoint quoteBody (s : JSString) : JSString :=
  match s with
  | [] => []
  | c :: rest =>
      if isHighSurrogate c then
        match rest with
        | d :: rest' =>
            if isLowSurrogate d then c :: d :: quoteBody rest'
            else unicodeEscape c ++ quoteBody rest
        | [] => unicodeEscape c
        end
      else if isLowSurrogate c then unicodeEscape c ++ quoteBody rest
      else escapeUnit c ++ quoteBody rest
  end.

(** Whether a string holds no code unit below 32. *)
Definition printable (s : JSString) : bool := forallb (fun c => (32 <=? c)%N) s.

Definition quoteJSONString (s : JSString) : JSString := dquote ++ quoteBody s ++ dquote.

(** [JSON.stringify({ event, data })] for two strings. *)
Definition stringifyCommand (event : string) (data : JSString) : JSString :=
  lit "{" ++ quoteJSONString (lit "event") ++ lit ":" ++ quoteJSONString (lit event)
    ++ lit "," ++ quoteJSONString (lit "data") ++ lit ":" ++ quoteJSONString data ++ lit "}".

(** The service: whether [this.server] is set, the socket [this.helper]
    holds, every chunk handed to a socket with the socket it went to, and
    the lines logged. *)
Record Service : Type := mkService {
  server : bool;
  helper : option N;
  sent : list (N * JSString);
  logged : list LogLine
}.

(** The constructor creates the server and holds no socket yet. *)
Definition construct : Service := mkService true None [] [].

Definition logLine (l : LogLine) (st : Service) : Service :=
  mkService (server st) (helper st) (sent st) (logged st ++ [l]).

(** The connection callback of [net.createServer]. *)
Definition onConnection (socket : N) (st : Service) : Service :=
  logLine (logPlain (lit "Helper connected!"))
    (mkService (server st) (Some socket) (sent st) (logged st)).

(** The [close] handler registered for each connection. *)
Definition onClose (st : Service) : Service :=
  mkService (server st) None (sent st)
    (logged st ++ [logAs (lit "Helper disconnected!") "error"]).

(** [startTyping] and [stopTyping] differ in the event they send and in
    the verb of their log lines.  [accepted] is what [socket.write]
    returns for a chunk; the chunk is handed to the socket either way.
    The chunk is [`${JSON.stringify(data)}\n`]. *)
Definition command (event verb : string) (accepted : JSString -> bool)
    (chatGuid : option JSString) (st : Service) : Service :=
  match helper st with
  | Some socket =>
      if server st then
        match chatGuid with
        | Some guid =>
            if truthyStr guid then
              let chunk := stringifyCommand event guid ++ [10%N] in
              let st' :=
                mkService (server st) (helper st) (sent st ++ [(socket, chunk)]) (logged st) in
              if accepted chunk then st'
              else
                logLine (logAs (lit "Failed to " ++ lit verb
                                  ++ lit " typing, an error occured writing to the socket")
                           "error") st'
            else
              logLine (logAs (lit "Failed to " ++ lit verb ++ lit " typing, no chatGuid specified!")
                         "error") st
        | None =>
            logLine (logAs (lit "Failed to " ++ lit verb ++ lit " typing, no chatGuid specified!")
                       "error") st
        end
      else
        logLine (logAs (lit "Failed to " ++ lit verb
                          ++ lit " typing, BlueBubblesHelper is not running!") "error") st
  | None =>
      logLine (logAs (lit "Failed to " ++ lit verb
                        ++ lit " typing, BlueBubblesHelper is not running!") "error") st
  end.

Definition startTyping := command "start-typing" "start".
Definition stopTyping := command "stop-typing" "stop".

End HelperCommands.


(** ** The server, continued: logging, notifications and event handlers *)
Module ServerEvents.

(** [s.slice(start, end)]: a negative index counts from the end, both are
    clamped to [0, s.length], and nothing is taken when [start] is not
    before [end]. *)
Definition sliceIndex (len : nat) (i : Z) : nat :=
  if (i <? 0) then Z.to_nat (Z.max (Z.of_nat len + i) 0)
  else Z.to_nat (Z.min i (Z.of_nat len)).

Definition slice (s : JSString) (start finish : Z) : JSString :=
  let from := sliceIndex (length s) start in
  let to := sliceIndex (length s) finish in
  take (to - from) (drop from s).

(** A [Device] row. *)
Record Device : Type := mkDevice { identifier : JSString }.

(** The fields of a message row that the handlers read; [handleId] is
    [item.handle?.id]. *)
Record EventRow : Type := mkEventRow {
  isFromMe : bool;
  handleId : option JSString;
  cacheHasAttachments : bool;
  text : option JSString;
  dateDelivered : option Date;
  dateRead : option Date
}.

Section Events.

(** The payload of a notification, which the server hands on unread. *)
Variable P : Type.

(** What the server reaches outside itself: [getMessageResponse], the
    query of the device table of an open database, [JSON.stringify]
    of a payload, the push service, [createConnection] for the
    configuration database, [Date.prototype.toLocaleString], the keys of
    [DEFAULT_DB_ITEMS] each with the string of its default value, and
    whether the query for a configuration item, or its insertion, throws. *)
Record Outside : Type := mkOutside {
  getMessageResponse : EventRow -> Completion P;
  findDevices : Completion (option (list Device));
  stringify : P -> JSString;
  push : list JSString -> JSString -> JSString -> Completion unit;
  createConnection : Completion N;
  toLocaleString : Date -> JSString;
  defaultItems : list (JSString * JSString);
  queryFails : JSString -> option Exn;
  saveFails : JSString -> option Exn
}.

(** The fields of [BlueBubblesServer] that logging and notifying use.
    [fcmService] is [None] while the service is not constructed and holds
    whether [fcmService.app] is set; [configTable] is the [Config] table of
    the configuration database, name to value. *)
Record Server : Type := mkServer {
  window : bool;
  db : option N;
  configTable : gmap JSString JSString;
  alertService : bool;
  socketService : bool;
  fcmService : option bool;
  console : list (JSString * JSString);
  alerts : list ServerMain.Alert;
  uiEvents : list (JSString * JSString);
  socketEmits : list (JSString * P);
  pushes : list (list JSString * JSString * JSString)
}.

(** The constructor: every handle is [null]. *)
Definition constructed (window : bool) : Server :=
  mkServer window None ∅ false false None [] [] [] [] [].

Definition toConsole (method : string) (message : JSString) (st : Server) : Server :=
  mkServer (window st) (db st) (configTable st) (alertService st) (socketService st) (fcmService st)
    (console st ++ [(lit method, message)]) (alerts st) (uiEvents st) (socketEmits st)
    (pushes st).

(** [this.alertService.create(type, message)] *)
Definition createAlert (type : string) (message : JSString) (st : Server)
    : Completion unit * Server :=
  if alertService st then
    (Return tt,
     mkServer (window st) (db st) (configTable st) (alertService st) (socketService st) (fcmService st)
       (console st) (alerts st ++ [ServerMain.mkAlert (lit type) message]) (uiEvents st)
       (socketEmits st) (pushes st))
  else (Throw (TypeError (lit "Cannot read properties of null (reading 'create')")), st).

(** [emitToUI(event, data)] for a string. *)
Definition emitToUI (event : string) (data : JSString) (st : Server) : Server :=
  if window st then
    mkServer (window st) (db st) (configTable st) (alertService st) (socketService st) (fcmService st)
      (console st) (alerts st) (uiEvents st ++ [(lit event, data)]) (socketEmits st) (pushes st)
  else st.

(** [log(message, type)]; [type] is [None] when the call gives none. *)
Definition log (message : JSString) (type : option JSString) (st : Server)
    : Completion unit * Server :=
  let switched :=
    if bool_decide (type = Some (lit "error")) then
      createAlert "error" message (toConsole "error" message st)
    else if bool_decide (type = Some (lit "dir")) then
      (Return tt, toConsole "dir" message st)
    else if bool_decide (type = Some (lit "warn")) then
      createAlert "warn" message (toConsole "warn" message st)
    else (Return tt, toConsole "log" message st) in
  match switched with
  | (Return _, st') => (Return tt, emitToUI "new-log" message st')
  | (Throw e, st') => (Throw e, st')
  end.

(** [initializeDatabase] *)
Definition initializeDatabase (out : Outside) (st : Server) : Completion unit * Server :=
  match createConnection out with
  | Return connection =>
      (Return tt,
       mkServer (window st) (Some connection) (configTable st) (alertService st) (socketService st)
         (fcmService st) (console st) (alerts st) (uiEvents st) (socketEmits st) (pushes st))
  | Throw ex =>
      log (lit "Failed to connect to configuration database! " ++ exnMessage ex)
        (Some (lit "error")) st
  end.

(** The loop of [setupDefaults] over the keys of [DEFAULT_DB_ITEMS]:
    [findOne] by name, then [addConfigItem] for a name that is not there. *)
Fixpoint addDefaults (queryFails saveFails : JSString -> option Exn)
    (items : list (JSString * JSString)) (table : gmap JSString JSString)
    : Completion unit * gmap JSString JSString :=
  match items with
  | [] => (Return tt, table)
  | (name, value) :: rest =>
      match queryFails name with
      | Some ex => (Throw ex, table)
      | None =>
          match table !! name with
          | Some _ => addDefaults queryFails saveFails rest table
          | None =>
              match saveFails name with
              | Some ex => (Throw ex, table)
              | None => addDefaults queryFails saveFails rest (<[name := value]> table)
              end
          end
      end
  end.

Definition withTable (table : gmap JSString JSString) (st : Server) : Server :=
  mkServer (window st) (db st) table (alertService st) (socketService st) (fcmService st)
    (console st) (alerts st) (uiEvents st) (socketEmits st) (pushes st).

(** [setupDefaults] *)
Definition setupDefaults (out : Outside) (st : Server) : Completion unit * Server :=
  let failure (ex : Exn) (st : Server) :=
    log (lit "Failed to setup default configurations! " ++ exnMessage ex)
      (Some (lit "error")) st in
  match db st with
  | None =>
      failure (TypeError (lit "Cannot read properties of null (reading 'getRepository')")) st
  | Some _ =>
      match addDefaults (queryFails out) (saveFails out) (defaultItems out) (configTable st) with
      | (Return _, table) => (Return tt, withTable table st)
      | (Throw ex, table) => failure ex (withTable table st)
      end
  end.

(** [sendNotification(type, data)] *)
Definition sendNotification (out : Outside) (type : JSString) (data : P) (st : Server)
    : Completion unit * Server :=
  if socketService st then
    let st :=
      mkServer (window st) (db st) (configTable st) (alertService st) (socketService st) (fcmService st)
        (console st) (alerts st) (uiEvents st) (socketEmits st ++ [(type, data)]) (pushes st) in
    match fcmService st with
    | None => (Throw (TypeError (lit "Cannot read properties of null (reading 'app')")), st)
    | Some false => (Return tt, st)
    | Some true =>
        match db st with
        | None =>
            (Throw (TypeError (lit "Cannot read properties of null (reading 'getRepository')")),
             st)
        | Some _ =>
            match findDevices out with
            | Throw e => (Throw e, st)
            | Return None => (Return tt, st)
            | Return (Some []) => (Return tt, st)
            | Return (Some devices) =>
                let recipients := map identifier devices in
                let notifData := stringify out data in
                (push out recipients type notifData,
                 mkServer (window st) (db st) (configTable st) (alertService st)
                   (socketService st) (fcmService st) (console st) (alerts st) (uiEvents st)
                   (socketEmits st) (pushes st ++ [(recipients, type, notifData)]))
            end
        end
    end
  else (Throw (TypeError (lit "Cannot read properties of null (reading 'socketServer')")), st).

(** [item.isFromMe ? "You" : item.handle?.id], as a template renders it. *)
Definition sender (item : EventRow) : JSString :=
  if isFromMe item then lit "You"
  else match handleId item with Some id => id | None => lit "undefined" end.

(** The text shown for a new message, before it is cut to fifty units.
    Reading [slice] of a missing text throws; without attachments the
    text is passed on as it is, missing or not. *)
Definition shownText (item : EventRow) : Completion (option JSString) :=
  if cacheHasAttachments item then
    match text item with
    | Some t =>
        let rest := slice t 1 (Z.of_nat (length t)) in
        Return (Some (lit "Image: " ++ (if truthyStr rest then rest else lit "<No Text>")))
    | None => Throw (TypeError (lit "Cannot read properties of null (reading 'slice')"))
    end
  else Return (text item).

(** The [new-entry] handler of the new-message listener. *)
Definition onNewEntry (out : Outside) (item : EventRow) (st : Server)
    : Completion unit * Server :=
  match shownText item with
  | Throw e => (Throw e, st)
  | Return None =>
      (Throw (TypeError (lit "Cannot read properties of null (reading 'substring')")), st)
  | Return (Some shown) =>
      match log (lit "New message from [" ++ sender item ++ lit "]: ["
                   ++ substring shown 0 50 ++ lit "]") None st with
      | (Throw e, st) => (Throw e, st)
      | (Return _, st) =>
          match getMessageResponse out item with
          | Throw e => (Throw e, st)
          | Return response => sendNotification out (lit "new-message") response st
          end
      end
  end.

(** The [updated-entry] handler of the updated-message listener. *)
Definition onUpdatedEntry (out : Outside) (item : EventRow) (st : Server)
    : Completion unit * Server :=
  let time :=
    match dateDelivered item with
    | Some d => Some d
    | None => dateRead item
    end in
  let label :=
    match dateRead item with
    | Some _ => lit "Text Read"
    | None => lit "Text Delivered"
    end in
  match time with
  | None =>
      (Throw (TypeError (lit "Cannot read properties of null (reading 'toLocaleString')")), st)
  | Some t =>
      match log (lit "Updated message from [" ++ sender item ++ lit "]: [" ++ label
                   ++ lit " -> " ++ toLocaleString out t ++ lit "]") None st with
      | (Throw e, st) => (Throw e, st)
      | (Return _, st) =>
          match getMessageResponse out item with
          | Throw e => (Throw e, st)
          | Return response => sendNotification out (lit "updated-message") response st
          end
      end
  end.

End Events.

Arguments mkOutside {P} _ _ _ _ _ _ _ _ _.
Arguments getMessageResponse {P} o _.
Arguments findDevices {P} o.
Arguments stringify {P} o _.
Arguments push {P} o _ _ _.
Arguments createConnection {P} o.
Arguments toLocaleString {P} o _.
Arguments defaultItems {P} o.
Arguments queryFails {P} o _.
Arguments saveFails {P} o _.
Arguments mkServer {P} _ _ _ _ _ _ _ _ _ _ _.
Arguments window {P} s.
Arguments db {P} s.
Arguments configTable {P} s.
Arguments alertService {P} s.
Arguments socketService {P} s.
Arguments fcmService {P} s.
Arguments console {P} s.
Arguments alerts {P} s.
Arguments uiEvents {P} s.
Arguments socketEmits {P} s.
Arguments pushes {P} s.
Arguments constructed {P} window.
Arguments toConsole {P} method message st.
Arguments createAlert {P} type message st.
Arguments emitToUI {P} event data st.
Arguments log {P} message type st.
Arguments initializeDatabase {P} out st.
Arguments withTable {P} table st.
Arguments setupDefaults {P} out st.
Arguments sendNotification {P} out type data st.
Arguments onNewEntry {P} out item st.
Arguments onUpdatedEntry {P} out item st.

End ServerEvents.

(** ** Concrete extractors, a helper connection and a server, for the examples *)
Module EventSamples.

(** Metadata values as integers, [0] the falsy one. *)
Definition truthyZ (v : Z) : bool := negb (v =? 0).

(** Extractors that find an orientation but no size for an image, and a
    native image of 640 by 480. *)
Definition extractors : AttachmentMetadata.Extractors Z :=
  AttachmentMetadata.mkExtractors
    (fun _ => Return AttachmentMetadata.MNull)
    (fun _ => Return (AttachmentMetadata.MObject {[ lit "orientation" := 1 ]}))
    (fun _ => Return AttachmentMetadata.MUndefined)
    [lit "image/jpeg"; lit "image/png"]
    (fun _ => Return (Some (AttachmentMetadata.mkSize 480 640))).

(** A chat guid that holds a quote, a backslash and a line feed. *)
Definition oddGuid : JSString := lit "chat" ++ [34%N; 92%N; 10%N] ++ lit "1".

(** The helper service after its first connection, on socket [7]. *)
Definition connected : HelperCommands.Service :=
  HelperCommands.onConnection 7 HelperCommands.construct.

(** A world for the server's handlers, with string payloads, one
    registered device and two default configuration items. *)
Definition outside : ServerEvents.Outside JSString :=
  ServerEvents.mkOutside
    (fun _ => Return (lit "{}"))
    (Return (Some [ServerEvents.mkDevice (lit "device-1")]))
    HelperCommands.quoteJSONString
    (fun _ _ _ => Return tt)
    (Return 1%N)
    (fun d => numToString (getTime d))
    [(lit "socket_port", lit "1234"); (lit "tutorial_is_done", lit "0")]
    (fun _ => None)
    (fun _ => None).

(** The server with every service up and an empty configuration table. *)
Definition running : ServerEvents.Server JSString :=
  ServerEvents.mkServer true (Some 1%N) ∅ true true (Some true) [] [] [] [] [].

Definition incoming : ServerEvents.EventRow :=
  ServerEvents.mkEventRow false (Some (lit "+15550100")) false (Some (lit "hello")) None None.

End EventSamples.

(* ================================================================== *)
(** * Part II: properties                                               *)
(* ================================================================== *)

(** ** Strings and numbers *)
Section StringFacts.

Example startsWith_image : startsWith (lit "image/png") (lit "image") = true.
Proof. reflexivity. Qed.

Example endsWith_mp3 : endsWith (lit "voice.mp3") (lit ".mp3") = true.
Proof. reflexivity. Qed.

Example substring_voice : substring (lit "voice.mp3") 0 5 = lit "voice".
Proof. reflexivity. Qed.

Example replace_first_only :
  replace (lit "a.caf.caf") (lit ".caf") (lit ".mp3") = lit "a.mp3.caf".
Proof. reflexivity. Qed.

Example basename_of_path : basename (lit "/tmp/convert/ABC.mp3") = lit "ABC.mp3".
Proof. reflexivity. Qed.

Example numToString_negative : numToString (Num (-120)) = lit "-120".
Proof. reflexivity. Qed.

Lemma lit_inj (s t : string) : lit s = lit t -> s = t.
Proof.
  unfold lit. intros H.
  rewrite <- (string_of_list_ascii_of_string s), <- (string_of_list_ascii_of_string t).
  f_equal.
  revert H. generalize (list_ascii_of_string s) (list_ascii_of_string t).
  induction l as [|a l IH]; intros [|b l']; simpl; intros H; try discriminate; auto.
  injection H as Hab Hl.
  f_equal; [| now apply IH].
  rewrite <- (ascii_N_embedding a), <- (ascii_N_embedding b). now rewrite Hab.
Qed.

Lemma to_int_not_nil (z : Z) :
  Z.to_int z <> Decimal.Pos Decimal.Nil /\ Z.to_int z <> Decimal.Neg Decimal.Nil.
Proof.
  destruct z as [|p|p]; simpl; split; try discriminate; intros H; injection H as H;
    now apply Unsigned.to_uint_nonnil in H.
Qed.

Lemma decimal_inj (a b : Z) :
  NilZero.string_of_int (Z.to_int a) = NilZero.string_of_int (Z.to_int b) -> a = b.
Proof.
  intros H. apply to_int_inj.
  destruct (to_int_not_nil a) as [Ha1 Ha2], (to_int_not_nil b) as [Hb1 Hb2].
  pose proof (NilZero.isi _ Ha1 Ha2) as Ia. pose proof (NilZero.isi _ Hb1 Hb2) as Ib.
  rewrite H in Ia. rewrite Ia in Ib. now injection Ib.
Qed.

Lemma decimal_not_NaN (z : Z) : NilZero.string_of_int (Z.to_int z) <> "NaN"%string.
Proof.
  intros H. destruct (to_int_not_nil z) as [H1 H2].
  pose proof (NilZero.isi _ H1 H2) as I. rewrite H in I. discriminate I.
Qed.

(** The string of a number determines the number. *)
Lemma numToString_inj (a b : Number) : numToString a = numToString b -> a = b.
Proof.
  destruct a as [|a], b as [|b]; simpl; intros H; auto.
  - apply lit_inj in H. symmetry in H. now apply decimal_not_NaN in H.
  - apply lit_inj in H. now apply decimal_not_NaN in H.
  - apply lit_inj, decimal_inj in H. now subst.
Qed.

Lemma uint_noColon (d : Decimal.uint) :
  Forall (fun c => c <> 58%N) (lit (NilEmpty.string_of_uint d)).
Proof.
  induction d; simpl; try (constructor; [discriminate | assumption]). constructor.
Qed.

(** No colon occurs in the string of a number. *)
Lemma numToString_noColon (n : Number) : Forall (fun c => c <> 58%N) (numToString n).
Proof.
  destruct n as [|z]; simpl.
  - repeat constructor; discriminate.
  - destruct (Z.to_int z) as [d|d]; simpl.
    + destruct d; try apply (uint_noColon (_ _)). repeat constructor; discriminate.
    + constructor; [discriminate|].
      destruct d; try apply (uint_noColon (_ _)). repeat constructor; discriminate.
Qed.

(** Two strings cut at their first colon agree part by part. *)
Lemma split_at_colon (a a' b b' : JSString) :
  Forall (fun c => c <> 58%N) a -> Forall (fun c => c <> 58%N) a' ->
  a ++ lit ":" ++ b = a' ++ lit ":" ++ b' -> a = a' /\ b = b'.
Proof.
  revert a'. induction a as [|c a IH]; intros [|c' a'] Ha Ha' H; simpl in H.
  - injection H as H. auto.
  - injection H as Hc _. apply Forall_inv in Ha'. now symmetry in Hc.
  - injection H as Hc _. apply Forall_inv in Ha. contradiction.
  - injection H as Hc H. apply Forall_inv_tail in Ha, Ha'.
    destruct (IH a' Ha Ha' H) as [-> ->]. now subst.
Qed.

Lemma startsWith_app (p t : JSString) : startsWith (p ++ t) p = true.
Proof. induction p as [|c p IH]; simpl; [reflexivity|]. now rewrite N.eqb_refl. Qed.

Lemma startsWith_inv (s p : JSString) : startsWith s p = true -> exists t, s = p ++ t.
Proof.
  revert s. induction p as [|c p IH]; intros s H; simpl in H; [now exists s|].
  destruct s as [|d s]; [discriminate|].
  destruct (N.eqb_spec c d) as [->|]; [|discriminate].
  destruct (IH s H) as [t ->]. now exists t.
Qed.

Lemma startsWith_truthy (m p : JSString) :
  startsWith m p = true -> truthyStr p = true -> truthyStr m = true.
Proof. destruct p; [discriminate|]. destruct m; [discriminate|reflexivity]. Qed.

(** [endsWith] holds exactly of the strings that end in the suffix. *)
Lemma endsWith_spec (s suffix : JSString) :
  endsWith s suffix = true <-> exists base, s = base ++ suffix.
Proof.
  unfold endsWith, strictEq. split.
  - destruct (Nat.ltb_spec (length s) (length suffix)) as [_|_]; [discriminate|].
    intros H. apply bool_decide_eq_true in H.
    exists (take (length s - length suffix) s).
    rewrite <- (take_drop (length s - length suffix) s) at 1. now rewrite H.
  - intros [base ->]. rewrite length_app.
    destruct (Nat.ltb_spec (length base + length suffix) (length suffix)) as [Hlt|_]; [lia|].
    apply bool_decide_eq_true.
    replace (length base + length suffix - length suffix)%nat with (length base) by lia.
    now rewrite drop_app_length.
Qed.

(** Cutting the last [length rest] code units off [base ++ rest]. *)
Lemma substring_prefix (base rest : JSString) :
  substring (base ++ rest) 0 (Z.of_nat (length (base ++ rest)) - Z.of_nat (length rest)) = base.
Proof.
  unfold substring, clampIndex. rewrite length_app.
  replace (Z.to_nat (Z.min (Z.max 0 0) _)) with 0%nat by lia.
  replace (Z.to_nat (Z.min (Z.max _ 0) _)) with (length base) by lia.
  rewrite Nat.min_0_l, Nat.max_0_l, Nat.sub_0_r, drop_0. now rewrite take_app_length.
Qed.

End StringFacts.

(** ** The Dedup Cache key *)
Section CacheName.

(** With the guid fixed, two rows have the same key exactly when their
    delivery and read times, [0] for a date that is not set, are the same. *)
Lemma getCacheName_inj (m m' : Message.t) :
  Message.guid m = Message.guid m' ->
  getCacheName m = getCacheName m' <->
  timeOrZero (Message.dateDelivered m) = timeOrZero (Message.dateDelivered m')
  /\ timeOrZero (Message.dateRead m) = timeOrZero (Message.dateRead m').
Proof.
  intros Hg. unfold getCacheName. rewrite Hg. split.
  - intros H. apply app_inv_head in H. injection H as H.
    apply split_at_colon in H; try apply numToString_noColon.
    destruct H as [Hd Hr]. split; now apply numToString_inj.
  - intros [-> ->]. reflexivity.
Qed.

(** C1, amended.  The key of a row is its guid followed by its delivery
    and read times, a date that is not set counting as [0].  Two
    observations of a row with the same guid, delivery date and read date
    have the same key.  When the delivery date goes from not set to a date
    whose time value is not [0], the key changes. *)
Theorem getCacheName_tracks_state (m m' : Message.t) :
  Message.guid m = Message.guid m' ->
  (getCacheName m =
     Message.guid m ++ lit ":" ++ numToString (timeOrZero (Message.dateDelivered m))
       ++ lit ":" ++ numToString (timeOrZero (Message.dateRead m))
   /\ timeOrZero None = Num 0)
  /\ (Message.dateDelivered m = Message.dateDelivered m' ->
      Message.dateRead m = Message.dateRead m' ->
      getCacheName m = getCacheName m')
  /\ (forall d : Date,
        Message.dateDelivered m = None ->
        Message.dateDelivered m' = Some d ->
        getTime d <> Num 0 ->
        getCacheName m <> getCacheName m').
Proof.
  intros Hg. split; [split; reflexivity|]. split.
  - intros Hd Hr. apply getCacheName_inj; [assumption|]. now rewrite Hd, Hr.
  - intros d Hnone Hsome Ht Hkey.
    apply getCacheName_inj in Hkey; [|assumption].
    destruct Hkey as [Hd _]. rewrite Hnone, Hsome in Hd. simpl in Hd. congruence.
Qed.

(** C1 at a row first seen undelivered, then delivered: the unchanged row
    keeps its key, the delivered row gets another. *)
Lemma getCacheName_tracks_state_witness :
  Message.guid Samples.rowPending = Message.guid Samples.rowDelivered
  /\ getCacheName Samples.rowPending = getCacheName Samples.rowPending
  /\ getCacheName Samples.rowPending <> getCacheName Samples.rowDelivered.
Proof.
  pose proof (getCacheName_tracks_state Samples.rowPending Samples.rowDelivered eq_refl)
    as [_ [_ Hnew]].
  pose proof (getCacheName_tracks_state Samples.rowPending Samples.rowPending eq_refl)
    as [_ [Hsame _]].
  split; [reflexivity|]. split; [exact (Hsame eq_refl eq_refl)|].
  apply (Hnew (newDate (Num 1700000000000))); [reflexivity | reflexivity |].
  vm_compute. discriminate.
Defined.

(** C1 as it is worded fails at one date.  A delivery date newly set to
    the epoch instant, [new Date(0)], has time value [0], the value that
    stands for a date that is not set: the row keeps the key it had while
    undelivered. *)
Lemma getCacheName_epoch_delivery_same_key :
  Message.guid Samples.rowPending = Message.guid Samples.rowDeliveredAtEpoch
  /\ Message.dateRead Samples.rowPending = Message.dateRead Samples.rowDeliveredAtEpoch
  /\ Message.dateDelivered Samples.rowPending = None
  /\ Message.dateDelivered Samples.rowDeliveredAtEpoch = Some (newDate (Num 0))
  /\ getCacheName Samples.rowPending = getCacheName Samples.rowDeliveredAtEpoch.
Proof. repeat split. Qed.

Example getCacheName_pending : getCacheName Samples.rowPending = lit "msg-1:0:0".
Proof. reflexivity. Qed.

Example getCacheName_delivered :
  getCacheName Samples.rowDelivered = lit "msg-1:1700000000000:0".
Proof. reflexivity. Qed.

End CacheName.

(** ** Attachment conversion *)
Section Conversion.
Variable fs : FileSystem.
Local Opaque lit.

(** The attempt fails exactly when the format was recognised, the
    converted file is not there yet and the converter throws. *)
Lemma attemptConversion_failed newPath recognised convert startLine failLine :
  fst (attemptConversion fs newPath recognised convert startLine failLine) = true <->
  recognised = true /\ attemptThrows fs newPath convert.
Proof.
  unfold attemptConversion, attemptThrows.
  destruct (existsSync fs newPath), recognised, convert as [[]|ex]; cbn [fst];
    split; try discriminate; try (intros [? [? [? ?]]]; discriminate); try (intros [? ?]; discriminate).
  - intros _. split; [reflexivity|]. split; [reflexivity|]. now exists ex.
  - reflexivity.
Qed.

(** The common tail of the three conversion functions, by cases on
    whether the format was recognised and whether the attempt failed. *)
Lemma conversion_frame (a : Attachment.t) (recognised : Prop) (newPath ext : JSString)
    (found : option JSString) (convert : Completion unit) (l1 l2 : JSString)
    (ok : JSString -> list LogLine -> Converted) (null : list LogLine -> Converted) :
  (found = Some ext /\ recognised) \/ found = None ->
  (forall e lines, newPathOf (ok e lines) = Some newPath) ->
  (forall lines, newPathOf (null lines) = None /\ attachmentOf (null lines) = a) ->
  let r :=
    let '(failed, lines) :=
      attemptConversion fs newPath (bool_decide (found = Some ext)) convert l1 l2 in
    match failed, found with
    | false, Some e => ok e lines
    | _, _ => null lines
    end in
  (~ recognised \/ attemptThrows fs newPath convert -> newPathOf r = None /\ attachmentOf r = a)
  /\ (newPathOf r = None -> attachmentOf r = a)
  /\ (forall path, newPathOf r = Some path ->
        recognised /\ ~ attemptThrows fs newPath convert /\ path = newPath
        /\ exists lines, r = ok ext lines).
Proof.
  intros Hfound Hok Hnull. cbv zeta.
  pose proof (attemptConversion_failed newPath (bool_decide (found = Some ext)) convert l1 l2)
    as Hf.
  destruct (attemptConversion fs newPath _ convert l1 l2) as [failed lines]. cbn [fst] in Hf.
  destruct Hfound as [[-> Hrec]| ->].
  - rewrite bool_decide_eq_true_2 in Hf by reflexivity.
    destruct failed.
    + destruct (Hnull lines) as [Hn Ha]. rewrite Hn, Ha.
      split; [auto|]. split; [auto|]. discriminate.
    + rewrite (Hok ext lines). split; [|split].
      * intros [Hn|Ht]; [contradiction|].
        assert (false = true) by (apply Hf; now split). discriminate.
      * discriminate.
      * intros path [= <-]. split; [exact Hrec|]. split; [|split; [reflexivity|now exists lines]].
        intros Ht. assert (false = true) by (apply Hf; now split). discriminate.
  - destruct (Hnull lines) as [Hn Ha].
    destruct failed; rewrite Hn, Ha; (split; [auto|]; split; [auto|]; discriminate).
Qed.

Lemma convertImage_found (a : Attachment.t) :
  let found :=
    if isNotEmptyStr (Attachment.mimeType a) then
      match Attachment.mimeType a with
      | Some m => if startsWith m (lit "image/heic") then Some (lit "heic") else None
      | None => None
      end
    else None in
  (found = Some (lit "heic") /\ imageRecognised a) \/ found = None.
Proof.
  cbv zeta. unfold imageRecognised.
  destruct (Attachment.mimeType a) as [m|]; cbn [isNotEmptyStr].
  - destruct (startsWith m (lit "image/heic")) eqn:E.
    + left. rewrite (startsWith_truthy _ _ E) by reflexivity. split; [reflexivity|now exists m].
    + right. now destruct (truthyStr m).
  - now right.
Qed.

Lemma convertVideo_found (a : Attachment.t) :
  let found :=
    if isNotEmptyStr (Attachment.mimeType a) then
      match Attachment.mimeType a with
      | Some m =>
          if bool_decide (Attachment.uti a = Some (lit "com.apple.quicktime-movie"))
             || startsWith m (lit "video/quicktime")
          then Some (lit "mov") else None
      | None => None
      end
    else None in
  (found = Some (lit "mov") /\ videoRecognised a) \/ found = None.
Proof.
  cbv zeta. unfold videoRecognised.
  destruct (Attachment.mimeType a) as [m|]; cbn [isNotEmptyStr]; [|now right].
  destruct (truthyStr m); [|now right].
  destruct (decide (Attachment.uti a = Some (lit "com.apple.quicktime-movie"))) as [Hu|Hu].
  - rewrite (bool_decide_eq_true_2 _ Hu). left. split; [reflexivity|now left].
  - rewrite (bool_decide_eq_false_2 _ Hu). cbn [orb].
    destruct (startsWith m (lit "video/quicktime")) eqn:E; [|now right].
    left. split; [reflexivity|]. right. now exists m.
Qed.

Lemma convertAudio_found (a : Attachment.t) :
  let found :=
    if bool_decide (Attachment.uti a = Some (lit "com.apple.coreaudio-format"))
    then Some (lit "caf") else None in
  (found = Some (lit "caf") /\ audioRecognised a) \/ found = None.
Proof.
  cbv zeta. unfold audioRecognised.
  destruct (decide (Attachment.uti a = Some (lit "com.apple.coreaudio-format"))) as [Hu|Hu].
  - rewrite (bool_decide_eq_true_2 _ Hu). now left.
  - rewrite (bool_decide_eq_false_2 _ Hu). now right.
Qed.

Lemma convertAudio_frame (a : Attachment.t) :
  let newPath := convertDir fs ++ lit "/" ++ Attachment.guid a ++ lit ".mp3" in
  RewritesOnlyOnSuccess a (audioRecognised a)
    (attemptThrows fs newPath (convertCafToMp3 fs a newPath))
    newPath "audio/mp3" ".caf" ".mp3" (convertAudio fs a).
Proof.
  cbv zeta. unfold RewritesOnlyOnSuccess, convertAudio.
  match goal with |- context [attemptConversion fs ?np (bool_decide (?found = Some ?ext)) ?conv ?l1 ?l2] =>
    destruct (conversion_frame a (audioRecognised a) np ext found conv l1 l2
                (fun e lines => mkConverted (Some np) (rewritten a "audio/mp3" np e (lit ".mp3")) lines)
                (fun lines => mkConverted None a lines)
                (convertAudio_found a) (fun _ _ => eq_refl) (fun _ => conj eq_refl eq_refl))
      as [H1 [H2 H3]]
  end.
  split; [exact H1|]. split; [exact H2|].
  intros path Hp. destruct (H3 path Hp) as [Hr [Ht [-> [lines Hl]]]].
  split; [exact Hr|]. split; [exact Ht|]. split; [reflexivity|]. now rewrite Hl.
Qed.

Lemma convertImage_frame (a : Attachment.t) :
  let newPath := convertDir fs ++ lit "/" ++ Attachment.guid a ++ lit ".jpg" in
  RewritesOnlyOnSuccess a (imageRecognised a)
    (attemptThrows fs newPath (convertToJpg fs (lit "heic") a newPath))
    newPath "image/jpg" ".heic" ".jpg" (convertImage fs a).
Proof.
  cbv zeta. unfold RewritesOnlyOnSuccess, convertImage.
  match goal with |- context [attemptConversion fs ?np (bool_decide (?found = Some ?ext)) ?conv ?l1 ?l2] =>
    destruct (conversion_frame a (imageRecognised a) np ext found conv l1 l2
                (fun e lines => mkConverted (Some np) (rewritten a "image/jpg" np e (lit ".jpg")) lines)
                (fun lines => mkConverted None a (lines ++ [logPlain (lit "Conversion returned null")]))
                (convertImage_found a) (fun _ _ => eq_refl) (fun _ => conj eq_refl eq_refl))
      as [H1 [H2 H3]]
  end.
  split; [exact H1|]. split; [exact H2|].
  intros path Hp. destruct (H3 path Hp) as [Hr [Ht [-> [lines Hl]]]].
  split; [exact Hr|]. split; [exact Ht|]. split; [reflexivity|]. now rewrite Hl.
Qed.

Lemma convertVideo_frame (a : Attachment.t) :
  let newPath := convertDir fs ++ lit "/" ++ Attachment.guid a ++ lit ".mp4" in
  RewritesOnlyOnSuccess a (videoRecognised a)
    (attemptThrows fs newPath (convertToMp4 fs a newPath))
    newPath "video/mp4" ".mov" ".mp4" (convertVideo fs a).
Proof.
  cbv zeta. unfold RewritesOnlyOnSuccess, convertVideo.
  match goal with |- context [attemptConversion fs ?np (bool_decide (?found = Some ?ext)) ?conv ?l1 ?l2] =>
    destruct (conversion_frame a (videoRecognised a) np ext found conv l1 l2
                (fun e lines => mkConverted (Some np) (rewritten a "video/mp4" np e (lit ".mp4")) lines)
                (fun lines => mkConverted None a (lines ++ [logPlain (lit "Conversion returned null")]))
                (convertVideo_found a) (fun _ _ => eq_refl) (fun _ => conj eq_refl eq_refl))
      as [H1 [H2 H3]]
  end.
  split; [exact H1|]. split; [exact H2|].
  intros path Hp. destruct (H3 path Hp) as [Hr [Ht [-> [lines Hl]]]].
  split; [exact Hr|]. split; [exact Ht|]. split; [reflexivity|]. now rewrite Hl.
Qed.
(** The other direction: a recognised format whose attempt does not throw
    is converted.  For [convertVideo] the format counts as recognised only
    when the MIME type is not empty. *)
Lemma conversion_succeeds (a : Attachment.t) (newPath ext : JSString)
    (convert : Completion unit) (l1 l2 : JSString)
    (ok : JSString -> list LogLine -> Converted) (null : list LogLine -> Converted) :
  ~ attemptThrows fs newPath convert ->
  exists lines,
    (let '(failed, lines) :=
       attemptConversion fs newPath (bool_decide (Some ext = Some ext)) convert l1 l2 in
     match failed, Some ext with
     | false, Some e => ok e lines
     | _, _ => null lines
     end) = ok ext lines.
Proof.
  intros Hno.
  pose proof (attemptConversion_failed newPath (bool_decide (Some ext = Some ext)) convert l1 l2)
    as Hf.
  destruct (attemptConversion fs newPath _ convert l1 l2) as [failed lines]. cbn [fst] in Hf.
  destruct failed; [|now exists lines].
  destruct Hno. now apply Hf.
Qed.

Lemma convertAudio_converts (a : Attachment.t) :
  let newPath := convertDir fs ++ lit "/" ++ Attachment.guid a ++ lit ".mp3" in
  audioRecognised a ->
  ~ attemptThrows fs newPath (convertCafToMp3 fs a newPath) ->
  newPathOf (convertAudio fs a) = Some newPath.
Proof.
  cbv zeta. unfold audioRecognised, convertAudio. intros Hu Hno.
  rewrite (bool_decide_eq_true_2 _ Hu).
  match goal with |- context [attemptConversion fs ?np _ ?conv ?l1 ?l2] =>
    destruct (conversion_succeeds a np (lit "caf") conv l1 l2
                (fun e lines => mkConverted (Some np) (rewritten a "audio/mp3" np e (lit ".mp3")) lines)
                (fun lines => mkConverted None a lines) Hno) as [lines Hl]
  end.
  now rewrite Hl.
Qed.

Lemma convertImage_converts (a : Attachment.t) :
  let newPath := convertDir fs ++ lit "/" ++ Attachment.guid a ++ lit ".jpg" in
  imageRecognised a ->
  ~ attemptThrows fs newPath (convertToJpg fs (lit "heic") a newPath) ->
  newPathOf (convertImage fs a) = Some newPath.
Proof.
  cbv zeta. unfold imageRecognised, convertImage. intros [m [Hm Hs]] Hno.
  rewrite Hm. cbn [isNotEmptyStr]. rewrite (startsWith_truthy _ _ Hs) by reflexivity.
  rewrite Hs.
  match goal with |- context [attemptConversion fs ?np _ ?conv ?l1 ?l2] =>
    destruct (conversion_succeeds a np (lit "heic") conv l1 l2
                (fun e lines => mkConverted (Some np) (rewritten a "image/jpg" np e (lit ".jpg")) lines)
                (fun lines => mkConverted None a (lines ++ [logPlain (lit "Conversion returned null")]))
                Hno) as [lines Hl]
  end.
  now rewrite Hl.
Qed.

Lemma convertVideo_converts (a : Attachment.t) :
  let newPath := convertDir fs ++ lit "/" ++ Attachment.guid a ++ lit ".mp4" in
  videoRecognised a ->
  isNotEmptyStr (Attachment.mimeType a) = true ->
  ~ attemptThrows fs newPath (convertToMp4 fs a newPath) ->
  newPathOf (convertVideo fs a) = Some newPath.
Proof.
  cbv zeta. unfold convertVideo. intros Hrec Hmime Hno. rewrite Hmime.
  destruct (Attachment.mimeType a) as [m|] eqn:Hm; [|discriminate].
  assert (Hcond : bool_decide (Attachment.uti a = Some (lit "com.apple.quicktime-movie"))
                  || startsWith m (lit "video/quicktime") = true).
  { destruct Hrec as [Hu|[m' [Hm' Hs]]].
    - now rewrite (bool_decide_eq_true_2 _ Hu).
    - rewrite Hm in Hm'. injection Hm' as <-. rewrite Hs. apply orb_true_r. }
  rewrite Hcond.
  match goal with |- context [attemptConversion fs ?np _ ?conv ?l1 ?l2] =>
    destruct (conversion_succeeds a np (lit "mov") conv l1 l2
                (fun e lines => mkConverted (Some np) (rewritten a "video/mp4" np e (lit ".mp4")) lines)
                (fun lines => mkConverted None a (lines ++ [logPlain (lit "Conversion returned null")]))
                Hno) as [lines Hl]
  end.
  now rewrite Hl.
Qed.

End Conversion.

(** C10.  For each of [convertAudio], [convertImage] and [convertVideo]:
    when the attachment is not of the format the function recognises, or
    the conversion is attempted and throws, the function returns [null]
    and leaves the attachment as it was; whenever it returns [null] the
    attachment is as it was; and a path is returned only for a recognised
    format whose conversion did not fail, the path being the new path and
    the attachment's [mimeType], [filePath] and [transferName] rewritten. *)
Theorem conversion_rewrites_only_on_success (fs : FileSystem) (a : Attachment.t) :
  (let newPath := convertDir fs ++ lit "/" ++ Attachment.guid a ++ lit ".mp3" in
   RewritesOnlyOnSuccess a (audioRecognised a)
     (attemptThrows fs newPath (convertCafToMp3 fs a newPath))
     newPath "audio/mp3" ".caf" ".mp3" (convertAudio fs a))
  /\ (let newPath := convertDir fs ++ lit "/" ++ Attachment.guid a ++ lit ".jpg" in
      RewritesOnlyOnSuccess a (imageRecognised a)
        (attemptThrows fs newPath (convertToJpg fs (lit "heic") a newPath))
        newPath "image/jpg" ".heic" ".jpg" (convertImage fs a))
  /\ (let newPath := convertDir fs ++ lit "/" ++ Attachment.guid a ++ lit ".mp4" in
      RewritesOnlyOnSuccess a (videoRecognised a)
        (attemptThrows fs newPath (convertToMp4 fs a newPath))
        newPath "video/mp4" ".mov" ".mp4" (convertVideo fs a)).
Proof.
  split; [apply convertAudio_frame|]. split; [apply convertImage_frame|apply convertVideo_frame].
Qed.

(** C10 at three attachments: a voice memo whose conversion throws, a PNG
    image that [convertImage] does not recognise, and a QuickTime movie
    that is converted. *)
Lemma conversion_rewrites_only_on_success_witness :
  (newPathOf (convertAudio (Samples.disk false) Samples.voiceMemo) = None
   /\ attachmentOf (convertAudio (Samples.disk false) Samples.voiceMemo) = Samples.voiceMemo)
  /\ (newPathOf (convertImage (Samples.disk true) Samples.photo) = None
      /\ attachmentOf (convertImage (Samples.disk true) Samples.photo) = Samples.photo)
  /\ attachmentOf (convertVideo (Samples.disk true) Samples.movie) =
     Attachment.mk (lit "att-5") (Some (lit "com.apple.quicktime-movie")) (Some (lit "video/mp4"))
       (Some (lit "/tmp/convert/att-5.mp4")) (Some (lit "att-5.mp4")).
Proof.
  split; [|split].
  - destruct (conversion_rewrites_only_on_success (Samples.disk false) Samples.voiceMemo)
      as [[H _] _].
    apply H. right. split; [reflexivity|]. eexists. reflexivity.
  - destruct (conversion_rewrites_only_on_success (Samples.disk true) Samples.photo)
      as [_ [[H _] _]].
    apply H. left. intros [m [[= <-] Hm]]. vm_compute in Hm. discriminate.
  - destruct (conversion_rewrites_only_on_success (Samples.disk true) Samples.movie)
      as [_ [_ [_ [_ H]]]].
    destruct (H (lit "/tmp/convert/att-5.mp4")) as [_ [_ [_ Hr]]]; [vm_compute; reflexivity|].
    rewrite Hr. vm_compute. reflexivity.
Defined.

(** An attachment with the QuickTime type identifier and no MIME type is
    not converted: [convertVideo] looks at the type identifier only once
    the MIME type is not empty. *)
Example convertVideo_quicktime_uti_without_mime :
  newPathOf (convertVideo (Samples.disk true)
               (Attachment.mk (lit "att-6") (Some (lit "com.apple.quicktime-movie")) None
                  None None)) = None.
Proof. reflexivity. Qed.

Example convertAudio_voice_memo :
  attachmentOf (convertAudio (Samples.disk true) Samples.voiceMemo) =
  Attachment.mk (lit "att-3") (Some (lit "com.apple.coreaudio-format")) (Some (lit "audio/mp3"))
    (Some (lit "/tmp/convert/att-3.mp3")) (Some (lit "att-3.mp3")).
Proof. reflexivity. Qed.

(** ** The message interface *)
Section MessageInterfaceFacts.
Import MessageInterface.
Local Opaque lit.

Lemma bind_run {A B} (c : M A) (f : A -> M B) (s : Server) :
  (c ≫= f) s = match c s with (Return a, s') => f a s' | (Throw e, s') => (Throw e, s') end.
Proof. reflexivity. Qed.


Lemma stateless_await {A} (c : Completion A) : stateless (await c).
Proof. intros s. reflexivity. Qed.
Lemma stateless_throw {A} e : stateless (@throw A e).
Proof. intros s. reflexivity. Qed.
Lemma stateless_ret {A} (a : A) : stateless (mret a : M A).
Proof. intros s. reflexivity. Qed.
Lemma stateless_bind {A B} (c : M A) (f : A -> M B) :
  stateless c -> (forall a, stateless (f a)) -> stateless (c ≫= f).
Proof.
  intros Hc Hf s. rewrite bind_run. specialize (Hc s).
  destruct (c s) as [[a|e] s']; simpl in *; subst; [apply Hf | reflexivity].
Qed.

(** The re-fetch loop ends, whatever the store answers, and writes nothing. *)
Lemma stateless_refetch w id remaining :
  forall attempt ret, stateless (refetch w id remaining attempt ret).
Proof.
  induction remaining as [|r IH]; intros attempt [m|]; simpl; try apply stateless_ret.
  destruct r; [apply stateless_ret|].
  apply stateless_bind; [apply stateless_await|]. intros a. apply IH.
Qed.

(** [sendMessagePrivateApi] writes neither the log nor the queue. *)
Lemma stateless_sendMessagePrivateApi w p : stateless (sendMessagePrivateApi w p).
Proof.
  unfold sendMessagePrivateApi.
  apply stateless_bind; [apply stateless_await|]; intros _.
  apply stateless_bind; [apply stateless_await|]; intros result.
  destruct (identifierOf result); [|apply stateless_throw].
  apply stateless_bind; [apply stateless_await|]; intros first.
  apply stateless_bind; [apply stateless_refetch|].
  intros [m|]; [apply stateless_ret | apply stateless_throw].
Qed.

Lemma enqueuedBy_app {A} (c : M A) s new :
  messageManager (snd (c s)) = messageManager s ++ new -> enqueuedBy c s = new.
Proof. unfold enqueuedBy. intros ->. now rewrite drop_app_length. Qed.

Lemma enqueuedBy_stateless {A} (c : M A) s : stateless c -> enqueuedBy c s = [].
Proof. intros H. apply enqueuedBy_app. rewrite H. now rewrite app_nil_r. Qed.

Lemma queue_bind {A B} (c : M A) (f : A -> M B) s :
  messageManager (snd ((c ≫= f) s)) =
  match c s with
  | (Return a, s') => messageManager (snd (f a s'))
  | (Throw _, s') => messageManager s'
  end.
Proof. rewrite bind_run. now destruct (c s) as [[a|e] s']. Qed.

Ltac run :=
  repeat (rewrite bind_run; unfold log, add, await, throw, mret, M_ret; cbn beta iota).

(** The queue after [sendMessageSync]: untouched without a chat guid, one
    request longer otherwise, whatever the send does afterwards. *)
Lemma sendMessageSync_queue w p s :
  messageManager (snd (sendMessageSync w p s)) =
  if falsy (sm_chatGuid p) then messageManager s
  else messageManager s ++
         [mkPromise (sm_chatGuid p) (sm_message p) false (backdatedNow w) (sm_subject p)
            (sm_tempGuid p)].
Proof.
  unfold sendMessageSync. destruct (falsy (sm_chatGuid p)); [reflexivity|].
  run.
  destruct (strictEq (methodOf p) (lit "apple-script")).
  - run. destruct (sendMessageHandler w _ _ _); reflexivity.
  - destruct (strictEq (methodOf p) (lit "private-api")); [|reflexivity].
    run.
    match goal with |- context [sendMessagePrivateApi w ?q ?t] =>
      pose proof (stateless_sendMessagePrivateApi w q t) as H;
      destruct (sendMessagePrivateApi w q t) as [[m|e] s'] end; simpl in *; subst; reflexivity.
Qed.

(** The queue after [sendAttachmentSync]. *)
Lemma sendAttachmentSync_queue w p s :
  messageManager (snd (sendAttachmentSync w p s)) = messageManager s
  \/ messageManager (snd (sendAttachmentSync w p s)) =
     messageManager s ++
       [mkPromise (sa_chatGuid p) (awaitedName (sa_attachmentName p)) true (backdatedNow w) None
          (sa_attachmentGuid p)].
Proof.
  unfold sendAttachmentSync. destruct (falsy (sa_chatGuid p)); [now left|].
  run. destruct (copyAttachment w _ _) as [newPath|e]; [|now left].
  run. destruct (startMessages w) as [[]|e]; [|now left].
  right. run. destruct (sendMessageHandler w _ _ _); reflexivity.
Qed.

(** The queue after [sendReaction]. *)
Lemma sendReaction_queue w p s :
  messageManager (snd (sendReaction w p s)) = messageManager s
  \/ exists messageText,
       reactionMessageText w (sr_message p) (sr_reaction p) = Return messageText
       /\ messageManager (snd (sendReaction w p s)) =
          messageManager s ++
            [mkPromise (sr_chatGuid p) (Some messageText) false (backdatedNow w) None
               (sr_tempGuid p)].
Proof.
  unfold sendReaction.
  run. destruct (checkPrivateApiStatus w) as [[]|e]; [|now left].
  run. destruct (reactionMessageText w _ _) as [messageText|e]; [|now left].
  right. exists messageText. split; [reflexivity|].
  run. destruct (privateSendReaction w _ _ _ _) as [result|e]; [|reflexivity].
  destruct (identifierOf result) as [id|]; [|reflexivity].
  run. destruct (getMessage w id 0%nat) as [first|e]; [|reflexivity].
  run.
  match goal with |- context [refetch w id ?n ?a first ?t] =>
    pose proof (stateless_refetch w id n a first t) as H;
    destruct (refetch w id n a first t) as [[fetched|e] s'] end;
    cbn [snd] in H; subst s'; [|reflexivity].
  destruct fetched as [m|]; run; [reflexivity|].
  destruct (awaitPromise w _) as [[m|]|e]; reflexivity.
Qed.

Lemma awaitedName_mp3 (base : JSString) :
  awaitedName (Some (base ++ lit ".mp3")) = Some (base ++ lit ".caf").
Proof.
  unfold awaitedName.
  replace (endsWith (base ++ lit ".mp3") (lit ".mp3")) with true
    by (symmetry; apply endsWith_spec; now exists base).
  f_equal. f_equal. apply (substring_prefix base (lit ".mp3")).
Qed.

Lemma awaitedName_other (name : JSString) :
  (forall base, name <> base ++ lit ".mp3") -> awaitedName (Some name) = Some name.
Proof.
  intros H. unfold awaitedName.
  destruct (endsWith name (lit ".mp3")) eqn:E; [|reflexivity].
  apply endsWith_spec in E. destruct E as [base ->]. now destruct (H base).
Qed.

(** [new Date(t - 10000).getTime()] is [t - 10000] as long as that is a
    time value a [Date] can hold. *)
Lemma backdatedNow_in_range (w : World) :
  - maxTime + 10000 <= clock w <= maxTime -> backdatedNow w = Num (clock w - 10000).
Proof.
  intros H. unfold backdatedNow, newDate, getTime, numSub, TimeClip. cbn [timeValue].
  destruct (Z.leb_spec (Z.abs (clock w - 10000)) maxTime) as [_|Hgt]; [reflexivity|].
  unfold maxTime in *. lia.
Qed.

Lemma elem_of_enqueuedBy {A} (c : M A) s r new :
  messageManager (snd (c s)) = messageManager s ++ new -> r ∈ enqueuedBy c s -> r ∈ new.
Proof. intros H. now rewrite (enqueuedBy_app c s new H). Qed.


(** C3.  A request that [sendAttachmentSync] adds to the queue is an
    attachment request; when the caller's attachment name ends in [.mp3]
    the name it waits for is that name with [.caf] in place of [.mp3], and
    for a name that does not end in [.mp3] it is the caller's name. *)
Theorem sendAttachmentSync_awaits_caf_name (w : World) (p : SendAttachmentParams)
    (s : Server) (r : MessagePromise) :
  r ∈ enqueuedBy (sendAttachmentSync w p) s ->
  isAttachment r = true
  /\ (forall base, sa_attachmentName p = Some (base ++ lit ".mp3") ->
      text r = Some (base ++ lit ".caf"))
  /\ (forall name, sa_attachmentName p = Some name ->
      (forall base, name <> base ++ lit ".mp3") -> text r = Some name).
Proof.
  intros Hr.
  destruct (sendAttachmentSync_queue w p s) as [H|H].
  - rewrite <- (app_nil_r (messageManager s)) in H.
    apply (elem_of_enqueuedBy _ _ r _ H) in Hr. now apply elem_of_nil in Hr.
  - apply (elem_of_enqueuedBy _ _ r _ H), list_elem_of_singleton in Hr. subst r.
    cbn [isAttachment text]. split; [reflexivity|]. split.
    + intros base ->. apply awaitedName_mp3.
    + intros name -> Hno. now apply awaitedName_other.
Qed.

(** C3 at the attachment [voice.mp3]: the one request added waits for
    [voice.caf], not for [voice.mp3]. *)
Lemma sendAttachmentSync_awaits_caf_name_witness :
  exists r,
    enqueuedBy (sendAttachmentSync (Samples.world None) (Samples.voiceParams (Some (lit "chat-1"))))
      Samples.idle = [r]
    /\ text r = Some (lit "voice.caf") /\ text r <> Some (lit "voice.mp3").
Proof.
  pose (p := Samples.voiceParams (Some (lit "chat-1"))).
  eexists. split; [vm_compute; reflexivity|].
  match goal with |- text ?r = _ /\ _ =>
    assert (Hin : r ∈ enqueuedBy (sendAttachmentSync (Samples.world None) p) Samples.idle)
      by (vm_compute; apply list_elem_of_here);
    destruct (sendAttachmentSync_awaits_caf_name (Samples.world None) p Samples.idle r Hin)
      as [_ [Hmp3 _]];
    pose proof (Hmp3 (lit "voice") eq_refl) as Ht
  end.
  split; [exact Ht|]. rewrite Ht. vm_compute. discriminate.
Defined.

(** C4.  With a clock that reads a time value whose ten-second backdate
    is still a time value a [Date] can hold, every request that
    [sendMessageSync], [sendAttachmentSync] or [sendReaction] adds to the
    queue has [sentAt] equal to the clock reading minus 10000 ms. *)
Theorem sentAt_is_backdated_by_ten_seconds (w : World) (s : Server) (r : MessagePromise) :
  - maxTime + 10000 <= clock w <= maxTime ->
  (forall p, r ∈ enqueuedBy (sendMessageSync w p) s -> sentAt r = Num (clock w - 10000))
  /\ (forall p, r ∈ enqueuedBy (sendAttachmentSync w p) s -> sentAt r = Num (clock w - 10000))
  /\ (forall p, r ∈ enqueuedBy (sendReaction w p) s -> sentAt r = Num (clock w - 10000)).
Proof.
  intros Hclock. pose proof (backdatedNow_in_range w Hclock) as Hnow.
  split; [|split]; intros p Hr.
  - pose proof (sendMessageSync_queue w p s) as H.
    destruct (falsy (sm_chatGuid p)).
    + rewrite <- (app_nil_r (messageManager s)) in H.
      apply (elem_of_enqueuedBy _ _ r _ H) in Hr. now apply elem_of_nil in Hr.
    + apply (elem_of_enqueuedBy _ _ r _ H), list_elem_of_singleton in Hr. now subst r.
  - destruct (sendAttachmentSync_queue w p s) as [H|H].
    + rewrite <- (app_nil_r (messageManager s)) in H.
      apply (elem_of_enqueuedBy _ _ r _ H) in Hr. now apply elem_of_nil in Hr.
    + apply (elem_of_enqueuedBy _ _ r _ H), list_elem_of_singleton in Hr. now subst r.
  - destruct (sendReaction_queue w p s) as [H|[t [_ H]]].
    + rewrite <- (app_nil_r (messageManager s)) in H.
      apply (elem_of_enqueuedBy _ _ r _ H) in Hr. now apply elem_of_nil in Hr.
    + apply (elem_of_enqueuedBy _ _ r _ H), list_elem_of_singleton in Hr. now subst r.
Qed.

(** C4 with the clock at 1700000000000 ms: each of the three sends adds
    one request, stamped 1699999990000. *)
Lemma sentAt_is_backdated_by_ten_seconds_witness :
  (- maxTime + 10000 <= clock (Samples.world None) <= maxTime)
  /\ (exists r,
        enqueuedBy (sendMessageSync (Samples.world None) (Samples.textParams (Some (lit "chat-1"))))
          Samples.idle = [r] /\ sentAt r = Num 1699999990000)
  /\ (exists r,
        enqueuedBy (sendAttachmentSync (Samples.world None)
                      (Samples.voiceParams (Some (lit "chat-1")))) Samples.idle = [r]
        /\ sentAt r = Num 1699999990000)
  /\ (exists r,
        enqueuedBy (sendReaction (Samples.world None) (Samples.reactionParams Samples.rowPhoto))
          Samples.idle = [r] /\ sentAt r = Num 1699999990000).
Proof.
  assert (Hclock : - maxTime + 10000 <= clock (Samples.world None) <= maxTime)
    by (vm_compute; split; discriminate).
  split; [exact Hclock|].
  split; [|split]; eexists; (split; [vm_compute; reflexivity|]).
  - apply (proj1 (sentAt_is_backdated_by_ten_seconds (Samples.world None) Samples.idle _ Hclock)
             (Samples.textParams (Some (lit "chat-1")))).
    vm_compute. apply list_elem_of_here.
  - apply (proj1 (proj2 (sentAt_is_backdated_by_ten_seconds (Samples.world None) Samples.idle _
                           Hclock)) (Samples.voiceParams (Some (lit "chat-1")))).
    vm_compute. apply list_elem_of_here.
  - apply (proj2 (proj2 (sentAt_is_backdated_by_ten_seconds (Samples.world None) Samples.idle _
                           Hclock)) (Samples.reactionParams Samples.rowPhoto)).
    vm_compute. apply list_elem_of_here.
Defined.

(** C7.  A call of [sendMessageSync] or [sendAttachmentSync] whose chat
    guid is missing or empty throws [No chat GUID provided] and leaves the
    server as it was: the queue is unchanged and no request was added. *)
Theorem missing_chat_guid_is_rejected (w : World) (s : Server) :
  (forall p, falsy (sm_chatGuid p) = true ->
     sendMessageSync w p s = (Throw (Error (lit "No chat GUID provided")), s)
     /\ messageManager (snd (sendMessageSync w p s)) = messageManager s
     /\ enqueuedBy (sendMessageSync w p) s = [])
  /\ (forall p, falsy (sa_chatGuid p) = true ->
     sendAttachmentSync w p s = (Throw (Error (lit "No chat GUID provided")), s)
     /\ messageManager (snd (sendAttachmentSync w p s)) = messageManager s
     /\ enqueuedBy (sendAttachmentSync w p) s = []).
Proof.
  split; intros p Hp.
  - assert (H : sendMessageSync w p s = (Throw (Error (lit "No chat GUID provided")), s))
      by (unfold sendMessageSync; now rewrite Hp).
    split; [exact H|]. split; [now rewrite H|].
    apply enqueuedBy_app. rewrite H. cbn [snd]. now rewrite app_nil_r.
  - assert (H : sendAttachmentSync w p s = (Throw (Error (lit "No chat GUID provided")), s))
      by (unfold sendAttachmentSync; now rewrite Hp).
    split; [exact H|]. split; [now rewrite H|].
    apply enqueuedBy_app. rewrite H. cbn [snd]. now rewrite app_nil_r.
Qed.

(** C7 at a text send with no chat guid and an attachment send with an
    empty one. *)
Lemma missing_chat_guid_is_rejected_witness :
  sendMessageSync (Samples.world None) (Samples.textParams None) Samples.idle
  = (Throw (Error (lit "No chat GUID provided")), Samples.idle)
  /\ sendAttachmentSync (Samples.world None) (Samples.voiceParams (Some [])) Samples.idle
     = (Throw (Error (lit "No chat GUID provided")), Samples.idle).
Proof.
  destruct (missing_chat_guid_is_rejected (Samples.world None) Samples.idle) as [Hm Ha].
  split.
  - exact (proj1 (Hm (Samples.textParams None) eq_refl)).
  - exact (proj1 (Ha (Samples.voiceParams (Some [])) eq_refl)).
Defined.

(** C6, amended.  When the private send primitive resolves to a result
    without an identifier, [sendMessagePrivateApi] throws and has written
    nothing, so that it added no request of its own to the queue, and
    [sendReaction] throws.  With the private API enabled the errors are
    [Failed to send message!] and, once the reaction text is built,
    [Failed to send reaction! No message GUID returned.].  The failed
    request is in the queue all the same when the error is thrown:
    [sendReaction] added it before it called the primitive, and
    [sendMessageSync], the caller of [sendMessagePrivateApi] for the
    method [private-api], added it before the call and ends with the
    error of the call. *)
Theorem private_send_without_identifier_throws (w : World) (s : Server) :
  (forall p result,
     privateSendMessage w (pp_chatGuid p) (pp_message p) (pp_attributedBody p) (pp_subject p)
       (pp_effectId p) (pp_selectedMessageGuid p) (default 0 (pp_partIndex p)) = Return result ->
     identifierOf result = None ->
     (exists e, fst (sendMessagePrivateApi w p s) = Throw e
                /\ (checkPrivateApiStatus w = Return tt ->
                    e = Error (lit "Failed to send message!")))
     /\ snd (sendMessagePrivateApi w p s) = s
     /\ enqueuedBy (sendMessagePrivateApi w p) s = [])
  /\ (forall p result,
     privateSendReaction w (sr_chatGuid p) (Message.guid (sr_message p)) (sr_reaction p)
       (default 0 (sr_partIndex p)) = Return result ->
     identifierOf result = None ->
     (exists e, fst (sendReaction w p s) = Throw e
                /\ (checkPrivateApiStatus w = Return tt ->
                    (exists t, reactionMessageText w (sr_message p) (sr_reaction p) = Return t) ->
                    e = Error (lit "Failed to send reaction! No message GUID returned.")))
     /\ (forall t,
           checkPrivateApiStatus w = Return tt ->
           reactionMessageText w (sr_message p) (sr_reaction p) = Return t ->
           enqueuedBy (sendReaction w p) s =
           [mkPromise (sr_chatGuid p) (Some t) false (backdatedNow w) None (sr_tempGuid p)]))
  /\ (forall p result,
     falsy (sm_chatGuid p) = false ->
     methodOf p = lit "private-api" ->
     privateSendMessage w (sm_chatGuid p) (sm_message p) (sm_attributedBody p) (sm_subject p)
       (sm_effectId p) (sm_selectedMessageGuid p) (default 0 (sm_partIndex p)) = Return result ->
     identifierOf result = None ->
     (exists e, fst (sendMessageSync w p s) = Throw e
                /\ (checkPrivateApiStatus w = Return tt ->
                    e = Error (lit "Failed to send message!")))
     /\ enqueuedBy (sendMessageSync w p) s =
        [mkPromise (sm_chatGuid p) (sm_message p) false (backdatedNow w) (sm_subject p)
           (sm_tempGuid p)]).
Proof.
  split; [|split].
  - intros p result Hcall Hid. split; [|split].
    + unfold sendMessagePrivateApi. run.
      destruct (checkPrivateApiStatus w) as [[]|e].
      * run. rewrite Hcall. cbn beta iota. rewrite Hid.
        eexists. split; [reflexivity|]. reflexivity.
      * exists e. split; [reflexivity|]. discriminate.
    + apply stateless_sendMessagePrivateApi.
    + apply enqueuedBy_stateless, stateless_sendMessagePrivateApi.
  - intros p result Hcall Hid. split.
    + unfold sendReaction. run.
      destruct (checkPrivateApiStatus w) as [[]|e].
      * run. destruct (reactionMessageText w _ _) as [t|e].
        -- run. rewrite Hcall. cbn beta iota. rewrite Hid.
           eexists. split; [reflexivity|]. reflexivity.
        -- exists e. split; [reflexivity|]. intros _ [t Ht]. discriminate.
      * exists e. split; [reflexivity|]. discriminate.
    + intros t Hcheck Htext. apply enqueuedBy_app.
      unfold sendReaction. run. rewrite Hcheck. run. rewrite Htext. run.
      rewrite Hcall. cbn beta iota. rewrite Hid. reflexivity.
  - intros p result Hchat Hmethod Hcall Hid. split.
    + unfold sendMessageSync. rewrite Hchat, Hmethod. run.
      assert (Hother : strictEq (lit "private-api") (lit "apple-script") = false)
        by (apply bool_decide_eq_false_2; intros H; vm_compute in H; discriminate H).
      assert (Hthis : strictEq (lit "private-api") (lit "private-api") = true)
        by (apply bool_decide_eq_true_2; reflexivity).
      rewrite Hother, Hthis. run.
      unfold sendMessagePrivateApi. run. cbn [pp_chatGuid pp_message pp_attributedBody
        pp_subject pp_effectId pp_selectedMessageGuid pp_partIndex].
      destruct (checkPrivateApiStatus w) as [[]|e].
      * run. rewrite Hcall. cbn beta iota. rewrite Hid.
        eexists. split; [reflexivity|]. reflexivity.
      * exists e. split; [reflexivity|]. discriminate.
    + apply enqueuedBy_app. pose proof (sendMessageSync_queue w p s) as H.
      now rewrite Hchat in H.
Qed.

(** C6 in a world whose private API answers without an identifier: the
    three sends throw, [sendMessagePrivateApi] leaves the server as it
    was, and the other two leave their request in the queue. *)
Lemma private_send_without_identifier_throws_witness :
  (exists e, fst (sendMessagePrivateApi (Samples.world None) Samples.privateParams Samples.idle)
             = Throw e)
  /\ snd (sendMessagePrivateApi (Samples.world None) Samples.privateParams Samples.idle)
     = Samples.idle
  /\ (exists e, fst (sendReaction (Samples.world None) (Samples.reactionParams Samples.rowPhoto)
                       Samples.idle) = Throw e)
  /\ length (enqueuedBy (sendReaction (Samples.world None)
                           (Samples.reactionParams Samples.rowPhoto)) Samples.idle) = 1%nat
  /\ (exists e, fst (sendMessageSync (Samples.world None) MoreSamples.privateApiSend Samples.idle)
                = Throw e)
  /\ length (enqueuedBy (sendMessageSync (Samples.world None) MoreSamples.privateApiSend)
               Samples.idle) = 1%nat.
Proof.
  destruct (private_send_without_identifier_throws (Samples.world None) Samples.idle)
    as [Hm [Hr Hs]].
  destruct (Hm Samples.privateParams _ eq_refl eq_refl) as [[e [He _]] [Hstate _]].
  destruct (Hr (Samples.reactionParams Samples.rowPhoto) _ eq_refl eq_refl)
    as [[e' [He' _]] Hqueued].
  destruct (Hs MoreSamples.privateApiSend _ eq_refl eq_refl eq_refl eq_refl)
    as [[e'' [He'' _]] Hsync].
  split; [now exists e|]. split; [exact Hstate|]. split; [now exists e'|].
  split; [now rewrite (Hqueued _ eq_refl eq_refl)|].
  split; [now exists e''|]. now rewrite Hsync.
Defined.

(** C6 as it is worded fails on the way [sendMessagePrivateApi] is
    called.  For a text send with the method [private-api] whose primitive
    answers without an identifier, [sendMessageSync] throws [Failed to send
    message!] and the request it added before the call is in the queue. *)
Lemma failed_private_send_is_already_queued :
  identifierOf (Some (mkApiResult None)) = None
  /\ privateSendMessage (Samples.world None) (Some (lit "chat-1")) (Some (lit "hello")) None None
       None None 0 = Return (Some (mkApiResult None))
  /\ fst (sendMessageSync (Samples.world None) MoreSamples.privateApiSend Samples.idle)
     = Throw (Error (lit "Failed to send message!"))
  /\ enqueuedBy (sendMessageSync (Samples.world None) MoreSamples.privateApiSend) Samples.idle
     = [mkPromise (Some (lit "chat-1")) (Some (lit "hello")) false (Num 1699999990000) None
          None].
Proof. vm_compute. repeat split. Qed.

(** When the private API is reached through [sendMessageSync], the
    request was added to the queue by [sendMessageSync] before the call,
    and it stays there when the primitive gives no identifier. *)
Example sendMessageSync_private_api_keeps_request :
  let p := MessageInterface.mkSendParams (Some (lit "chat-1")) (Some (lit "hello"))
             (Some (lit "private-api")) None None None None None None in
  fst (sendMessageSync (Samples.world None) p Samples.idle)
  = Throw (Error (lit "Failed to send message!"))
  /\ length (messageManager (snd (sendMessageSync (Samples.world None) p Samples.idle))) = 1%nat.
Proof. vm_compute. split; reflexivity. Qed.

(** The text a reaction is matched on, wherever [sendReaction] gets to
    build it: the phrase of the reaction, from the negative mapping exactly
    when the name starts with a minus sign, a space, and then the target's
    text in curly quotes, or, for a target that is the media character
    alone and has an attachment whose first MIME type is set, [an image],
    [a movie] or [an attachment] by that MIME type. *)
Lemma reactionMessageText_typed (w : World) (message : Message.t) (reaction : JSString) :
  let phrase :=
    renderUndef (if startsWith reaction (lit "-") then negativeReactionTextMap w reaction
                 else reactionTextMap w reaction) in
  let attachmentOnly := isOnlyMedia w message && isNotEmptyList (Message.attachments message) in
  (attachmentOnly = false ->
   reactionMessageText w message reaction =
   Return (phrase ++ lit " " ++ openQuote ++ targetText message ++ closeQuote))
  /\ (forall first rest mime,
        attachmentOnly = true ->
        Message.attachments message = first :: rest ->
        Attachment.mimeType first = Some mime ->
        reactionMessageText w message reaction =
        Return (phrase ++ lit " " ++
                  (if startsWith mime (lit "image") then lit "an image"
                   else if startsWith mime (lit "video") then lit "a movie"
                   else lit "an attachment"))).
Proof.
  cbv zeta. unfold reactionMessageText, reactionTarget, reactionPrefix. split.
  - intros ->. reflexivity.
  - intros first rest mime -> -> ->.
    destruct (startsWith mime (lit "image")); [reflexivity|].
    destruct (startsWith mime (lit "video")); reflexivity.
Qed.

(** C2, where the code departs from it.  For a target that is the media
    character alone and whose first attachment has no MIME type, no match
    text is built: reading [mimeType.startsWith] throws a [TypeError], and
    [sendReaction] ends with it before any request is added, where the
    claim gives the text ending in [an attachment]. *)
Theorem sendReaction_untyped_attachment_throws (w : World) (p : SendReactionParams)
    (s : Server) (first : Attachment.t) (rest : list Attachment.t) :
  checkPrivateApiStatus w = Return tt ->
  isOnlyMedia w (sr_message p) = true ->
  Message.attachments (sr_message p) = first :: rest ->
  Attachment.mimeType first = None ->
  exists e,
    reactionMessageText w (sr_message p) (sr_reaction p) = Throw (TypeError e)
    /\ sendReaction w p s = (Throw (TypeError e), s).
Proof.
  intros Hstatus Hmedia Hatt Hmime.
  eexists.
  assert (Ht : reactionMessageText w (sr_message p) (sr_reaction p) =
               Throw (TypeError (lit "Cannot read properties of null (reading 'startsWith')"))).
  { unfold reactionMessageText, reactionTarget. now rewrite Hmedia, Hatt, Hmime. }
  split; [exact Ht|].
  unfold sendReaction. run. rewrite Hstatus. run. now rewrite Ht.
Qed.

(** C2 at the reaction [love] on a row that is one attachment without a
    MIME type. *)
Lemma sendReaction_untyped_attachment_throws_witness :
  exists e,
    reactionMessageText (Samples.world None) Samples.rowUntyped (lit "love") = Throw (TypeError e)
    /\ sendReaction (Samples.world None)
         (Samples.reactionParams Samples.rowUntyped) Samples.idle
       = (Throw (TypeError e), Samples.idle).
Proof.
  exact (sendReaction_untyped_attachment_throws (Samples.world None)
           (Samples.reactionParams Samples.rowUntyped) Samples.idle Samples.untyped []
           eq_refl eq_refl eq_refl eq_refl).
Defined.

Example reaction_on_photo :
  reactionMessageText (Samples.world None) Samples.rowPhoto (lit "love")
  = Return (lit "Loved an image").
Proof. vm_compute. reflexivity. Qed.

Example reaction_removed_on_text :
  reactionMessageText (Samples.world None) Samples.rowPending (lit "-love")
  = Return (lit "Removed a heart from " ++ openQuote ++ lit "hello" ++ closeQuote).
Proof. vm_compute. reflexivity. Qed.

End MessageInterfaceFacts.

(** ** The helper channel *)
Section HelperFacts.
Import HelperProcess.
Local Opaque lit.

Lemma isString_true (v : option JSON) (literal : string) :
  isString v literal = true <-> v = Some (JString (lit literal)).
Proof.
  unfold isString, strictEq. destruct v as [[| | | s | |]|]; split; try discriminate.
  - intros H. apply bool_decide_eq_true in H. now subst.
  - intros [= ->]. now apply bool_decide_eq_true.
Qed.

Lemma isString_false (v : option JSON) (literal : string) :
  isString v literal = false <-> v <> Some (JString (lit literal)).
Proof. rewrite <- isString_true. now destruct (isString v literal). Qed.

(** C8.  A received line whose [event] field is the string
    [started-typing] makes the handler emit exactly one [typing-indicator]
    notification, with [display] true and the [guid] field of the line;
    one whose [event] field is [stopped-typing], exactly one with
    [display] false and the [guid] field of the line; any other line, be
    it one that does not parse, emits none. *)
Theorem typing_events_are_re_emitted (parse : JSString -> Completion JSON) (event : JSString) :
  (fieldOf parse event "event" = Some (JString (lit "started-typing")) ->
   emitted (snd (onData parse event)) =
   [mkNotification (lit "typing-indicator") true (fieldOf parse event "guid")])
  /\ (fieldOf parse event "event" = Some (JString (lit "stopped-typing")) ->
      emitted (snd (onData parse event)) =
      [mkNotification (lit "typing-indicator") false (fieldOf parse event "guid")])
  /\ (fieldOf parse event "event" <> Some (JString (lit "started-typing")) ->
      fieldOf parse event "event" <> Some (JString (lit "stopped-typing")) ->
      emitted (snd (onData parse event)) = []).
Proof.
  unfold fieldOf, onData.
  destruct (parse event) as [data|e];
    [|split; [discriminate | split; [discriminate | reflexivity]]].
  destruct data as [| b | l | s | items | members]; cbn [getProp];
    try (split; [discriminate | split; [discriminate | reflexivity]]).
  split; [|split].
  - intros H. apply isString_true in H. now rewrite H.
  - intros H.
    assert (Hs : isString (member (lit "event") members) "started-typing" = false).
    { apply isString_false. rewrite H. intros Heq. vm_compute in Heq. discriminate Heq. }
    rewrite Hs. apply isString_true in H. now rewrite H.
  - intros H1 H2. apply isString_false in H1, H2. now rewrite H1, H2.
Qed.

(** C8 at a line that parses to a [started-typing] event for [chat-1]. *)
Lemma typing_events_are_re_emitted_witness :
  emitted (snd (onData Samples.parseTyping Samples.typingLine)) =
  [mkNotification (lit "typing-indicator") true (Some (JString (lit "chat-1")))].
Proof.
  exact (proj1 (typing_events_are_re_emitted Samples.parseTyping Samples.typingLine) eq_refl).
Defined.

Example other_event_emits_nothing :
  emitted (snd (onData (fun _ => Return (JObject [(lit "event", JString (lit "ping"))]))
                  (lit "line"))) = [].
Proof. reflexivity. Qed.

Example unparsable_line_emits_nothing :
  onData (fun _ => Throw (Error (lit "Unexpected token"))) (lit "line")
  = (Throw (Error (lit "Unexpected token")), mkEffects [] []).
Proof. reflexivity. Qed.

End HelperFacts.

(** ** The attributed-body transformer *)
Section TransformerFacts.
Import Transformers.
Local Opaque lit.
Context {DbValue V : Type}.

Lemma rename_no_value (e : gmap JSString V) : rename e !! lit "value" = None.
Proof.
  unfold rename. destruct (e !! lit "value") eqn:E; [|exact E]. apply lookup_delete_eq.
Qed.

Lemma rename_string (e : gmap JSString V) (v : V) :
  e !! lit "value" = Some v -> rename e !! lit "string" = Some v.
Proof.
  unfold rename. intros ->. rewrite lookup_delete_ne.
  - apply lookup_insert_eq.
  - intros H. vm_compute in H. discriminate H.
Qed.

Lemma rename_other (e : gmap JSString V) (k : JSString) :
  k <> lit "value" -> k <> lit "string" -> rename e !! k = e !! k.
Proof.
  unfold rename. intros Hv Hs. destruct (e !! lit "value"); [|reflexivity].
  rewrite lookup_delete_ne by congruence. now rewrite lookup_insert_ne by congruence.
Qed.

Lemma rename_without_value (e : gmap JSString V) : e !! lit "value" = None -> rename e = e.
Proof. unfold rename. now intros ->. Qed.

(** The filter keeps the attributed strings, and only them. *)
Lemma elem_of_omap_keep (vs : list (Archived V)) (fields : gmap JSString V) :
  fields ∈ omap keep vs <-> AttributedString fields ∈ vs.
Proof.
  rewrite list_elem_of_omap. split.
  - intros [x [Hx Hk]]. destruct x; try discriminate. injection Hk as ->. exact Hx.
  - intros H. now exists (AttributedString fields).
Qed.

(** C9, amended.  [from] never throws.  When it returns a list it has
    logged nothing, and the list is made of the attributed strings among
    the values of the first decoded group, in their order, each with its
    [value] field, if it has one, renamed to [string] and its other fields
    kept.  On a value that fails to deserialize it logs the failure and
    returns [null]; on a value that decodes to an empty result it returns
    [null] and logs nothing.  [to] returns [null] for every input. *)
Theorem from_gives_attributed_strings_or_null
    (unarchive : DbValue -> Completion (list (option (Group V)))) (dbValue : DbValue) :
  (exists r, fst (from unarchive dbValue) = Return r)
  /\ (forall l, fst (from unarchive dbValue) = Return (Some l) ->
       snd (from unarchive dbValue) = []
       /\ exists g rest vs,
            unarchive dbValue = Return (Some g :: rest) /\ values g = Some vs
            /\ l = map rename (omap keep vs)
            /\ forall e', e' ∈ l ->
                 e' !! lit "value" = None
                 /\ exists fields, AttributedString fields ∈ vs /\ e' = rename fields
                      /\ (forall v, fields !! lit "value" = Some v -> e' !! lit "string" = Some v)
                      /\ (forall k, k <> lit "value" -> k <> lit "string" -> e' !! k = fields !! k))
  /\ (forall e, unarchive dbValue = Throw e ->
       from unarchive dbValue =
       (Return None,
        [logAs (lit "Failed to deserialize attributedBody: " ++ exnMessage e) "debug"]))
  /\ (unarchive dbValue = Return [] -> from unarchive dbValue = (Return None, []))
  /\ (forall x : option (list (gmap JSString V)), @to _ V x = None).
Proof.
  unfold from, decodeBody. split; [|split; [|split; [|split]]].
  - destruct (unarchive dbValue) as [[|[g|] rest]|e]; try (eexists; reflexivity).
    destruct (values g); eexists; reflexivity.
  - intros l. destruct (unarchive dbValue) as [[|[g|] rest]|e]; try discriminate.
    destruct (values g) as [vs|] eqn:Hvs; [|discriminate].
    cbn [fst snd]. intros [= <-]. split; [reflexivity|].
    exists g, rest, vs. split; [reflexivity|]. split; [exact Hvs|]. split; [reflexivity|].
    intros e' He'. apply list_elem_of_fmap in He' as [fields [-> Hin]].
    split; [apply rename_no_value|]. exists fields.
    split; [now apply elem_of_omap_keep|]. split; [reflexivity|].
    split; [apply rename_string | apply rename_other].
  - now intros e ->.
  - now intros ->.
  - reflexivity.
Qed.

End TransformerFacts.

(** ** The transformer on three column values *)
Section TransformerExamples.
Import Transformers.

(** C9 at a value that decodes to an attributed string beside values of
    other kinds, and at one that does not decode. *)
Lemma from_gives_attributed_strings_or_null_witness :
  fst (from Samples.bodyArchive tt) = Return (Some [{[ lit "string" := lit "hello" ]}])
  /\ snd (from Samples.bodyArchive tt) = []
  /\ from Samples.brokenArchive tt =
     (Return None,
      [logAs (lit "Failed to deserialize attributedBody: unexpected end of stream") "debug"]).
Proof.
  destruct (from_gives_attributed_strings_or_null Samples.bodyArchive tt)
    as [_ [Hlist _]].
  destruct (from_gives_attributed_strings_or_null Samples.brokenArchive tt)
    as [_ [_ [Hfail _]]].
  assert (Hr : fst (from Samples.bodyArchive tt) =
               Return (Some [{[ lit "string" := lit "hello" ]}])).
  { unfold from, Samples.bodyArchive, decodeBody. cbn [values fst omap list_omap keep map].
    unfold rename. rewrite lookup_singleton_eq. rewrite delete_insert_ne by (vm_compute; discriminate).
    rewrite delete_singleton_eq. rewrite insert_empty. reflexivity. }
  split; [exact Hr|]. split; [exact (proj1 (Hlist _ Hr))|].
  exact (Hfail _ eq_refl).
Defined.

(** C9 as it is worded fails on a value that decodes to an empty
    result: [from] returns [null] there and logs nothing. *)
Lemma from_empty_result_logs_nothing :
  Samples.emptyArchive tt = Return []
  /\ fst (from Samples.emptyArchive tt) = Return None
  /\ snd (from Samples.emptyArchive tt) = [].
Proof. repeat split. Qed.

End TransformerExamples.

(** ** Starting the listeners *)
Section ServerFacts.
Import ServerMain.
Local Opaque lit.

(** C5.  When the message repository has no store handle,
    [startChatListener] returns after creating one [info] alert: the queue
    service is not started, no listener is constructed and no handler is
    registered.  [start] goes on: the socket services are started and the
    IPC handlers are registered. *)
Theorem chat_listener_refuses_without_store_handle (pollMs : Z) (st : BlueBubblesServer)
    (repo : MessageRepository) :
  iMessageRepo st = Some repo ->
  db repo = None ->
  (fst (startChatListener pollMs st) = Return tt
   /\ alerts (snd (startChatListener pollMs st)) =
      alerts st ++ [mkAlert (lit "info") (lit restartNotice)]
   /\ queueStarted (snd (startChatListener pollMs st)) = queueStarted st
   /\ listeners (snd (startChatListener pollMs st)) = listeners st
   /\ handlers (snd (startChatListener pollMs st)) = handlers st)
  /\ (fst (startListeners pollMs st) = Return tt
      /\ socketStarted (snd (startListeners pollMs st)) = true
      /\ fcmStarted (snd (startListeners pollMs st)) = true
      /\ ipcHandlers (snd (startListeners pollMs st)) = ipcHandlers st ++ map lit ipcChannels
      /\ listeners (snd (startListeners pollMs st)) = listeners st
      /\ queueStarted (snd (startListeners pollMs st)) = queueStarted st
      /\ alerts (snd (startListeners pollMs st)) =
         alerts st ++ [mkAlert (lit "info") (lit restartNotice)]).
Proof.
  intros Hrepo Hdb. split.
  - unfold startChatListener. rewrite Hrepo, Hdb. repeat split.
  - unfold startListeners, startChatListener. cbn [log startSockets iMessageRepo].
    rewrite Hrepo, Hdb. repeat split.
Qed.

(** C5 at a server whose store could not be opened: after the start
    there is one alert, no listener, and fourteen IPC handlers. *)
Lemma chat_listener_refuses_without_store_handle_witness :
  fst (startListeners 1000 Samples.withoutStore) = Return tt
  /\ listeners (snd (startListeners 1000 Samples.withoutStore)) = []
  /\ queueStarted (snd (startListeners 1000 Samples.withoutStore)) = false
  /\ length (alerts (snd (startListeners 1000 Samples.withoutStore))) = 1%nat
  /\ length (ipcHandlers (snd (startListeners 1000 Samples.withoutStore))) = 14%nat.
Proof.
  destruct (chat_listener_refuses_without_store_handle 1000 Samples.withoutStore
              (mkRepo None) eq_refl eq_refl)
    as [_ [Hret [_ [_ [Hipc [Hl [Hq Ha]]]]]]].
  split; [exact Hret|]. split; [exact Hl|]. split; [exact Hq|].
  split; [now rewrite Ha | now rewrite Hipc].
Defined.

(** With a store handle the queue service is started and the three
    listeners are constructed, the group listener at twice the period. *)
Lemma chat_listener_starts_with_store_handle (pollMs : Z) (st : BlueBubblesServer)
    (repo : MessageRepository) (handle : N) :
  iMessageRepo st = Some repo ->
  db repo = Some handle ->
  fst (startChatListener pollMs st) = Return tt
  /\ alerts (snd (startChatListener pollMs st)) = alerts st
  /\ queueStarted (snd (startChatListener pollMs st)) = true
  /\ listeners (snd (startChatListener pollMs st)) =
     listeners st ++ [mkListener NewMsgListener pollMs; mkListener UpdatedMsgListener pollMs;
                      mkListener GroupChangeListener (pollMs * 2)].
Proof.
  intros Hrepo Hdb. unfold startChatListener. rewrite Hrepo, Hdb. repeat split.
Qed.

End ServerFacts.

(** ** The message interface: polling, fallbacks and rejected methods *)
Section MessageInterfaceMore.
Import MessageInterface MessageEdits.
Local Opaque lit.

Ltac run :=
  repeat (rewrite bind_run; unfold log, add, await, throw, mret, M_ret; cbn beta iota).

Lemma refetch_step (w : World) (id : JSString) (r attempt : nat) (s : Server) :
  refetch w id (S (S r)) attempt None s =
  match getMessage w id attempt with
  | Return next => refetch w id (S r) (S attempt) next s
  | Throw e => (Throw e, s)
  end.
Proof. reflexivity. Qed.

Lemma refetch_some (w : World) (id : JSString) (remaining attempt : nat) (m : Message.t)
    (s : Server) :
  refetch w id remaining attempt (Some m) s = (Return (Some m), s).
Proof. destruct remaining; reflexivity. Qed.

(** The loop returns the first row the store gives, as long as it comes
    within the tries the loop has. *)
Lemma refetch_found (w : World) (id : JSString) (m : Message.t) (s : Server) :
  forall (d remaining attempt : nat),
    (d + 2 <= remaining)%nat ->
    (forall k, (k < d)%nat -> getMessage w id (attempt + k) = Return None) ->
    getMessage w id (attempt + d) = Return (Some m) ->
    refetch w id remaining attempt None s = (Return (Some m), s).
Proof.
  induction d as [|d IH]; intros remaining attempt Hle Hnone Hfound.
  - destruct remaining as [|[|r]]; try lia. rewrite refetch_step.
    rewrite Nat.add_0_r in Hfound. rewrite Hfound. apply refetch_some.
  - destruct remaining as [|[|r]]; try lia. rewrite refetch_step.
    pose proof (Hnone 0%nat ltac:(lia)) as H0. rewrite Nat.add_0_r in H0. rewrite H0.
    apply IH; [lia| |].
    + intros k Hk. replace (S attempt + k)%nat with (attempt + S k)%nat by lia.
      apply Hnone. lia.
    + now replace (S attempt + d)%nat with (attempt + S d)%nat by lia.
Qed.

(** Without a row in any of its tries the loop ends with none. *)
Lemma refetch_exhausted (w : World) (id : JSString) (s : Server) :
  forall (remaining attempt : nat),
    (forall k, (k + 1 < remaining)%nat -> getMessage w id (attempt + k) = Return None) ->
    refetch w id remaining attempt None s = (Return None, s).
Proof.
  induction remaining as [|r IH]; intros attempt Hnone; [reflexivity|].
  destruct r as [|r]; [reflexivity|]. rewrite refetch_step.
  pose proof (Hnone 0%nat ltac:(lia)) as H0. rewrite Nat.add_0_r in H0. rewrite H0.
  apply IH. intros k Hk.
  replace (S attempt + k)%nat with (attempt + S k)%nat by lia. apply Hnone. lia.
Qed.

(** A lookup that throws ends the loop with its error. *)
Lemma refetch_failed (w : World) (id : JSString) (e : Exn) (s : Server) :
  forall (d remaining attempt : nat),
    (d + 2 <= remaining)%nat ->
    (forall k, (k < d)%nat -> getMessage w id (attempt + k) = Return None) ->
    getMessage w id (attempt + d) = Throw e ->
    refetch w id remaining attempt None s = (Throw e, s).
Proof.
  induction d as [|d IH]; intros remaining attempt Hle Hnone Hfound.
  - destruct remaining as [|[|r]]; try lia. rewrite refetch_step.
    rewrite Nat.add_0_r in Hfound. now rewrite Hfound.
  - destruct remaining as [|[|r]]; try lia. rewrite refetch_step.
    pose proof (Hnone 0%nat ltac:(lia)) as H0. rewrite Nat.add_0_r in H0. rewrite H0.
    apply IH; [lia| |].
    + intros k Hk. replace (S attempt + k)%nat with (attempt + S k)%nat by lia.
      apply Hnone. lia.
    + now replace (S attempt + d)%nat with (attempt + S d)%nat by lia.
Qed.


(** The first lookup and the loop after it, as the private-API paths
    chain them before [k]. *)
Lemma fetch_found {A} (w : World) (id : JSString) (limit : nat) (s : Server)
    (k : option Message.t -> M A) (n : nat) (m : Message.t) :
  (n < limit)%nat ->
  (forall j, (j < n)%nat -> getMessage w id j = Return None) ->
  getMessage w id n = Return (Some m) ->
  (first ← await (getMessage w id 0); ret ← refetch w id limit 1 first; k ret) s
  = k (Some m) s.
Proof.
  intros Hn Hnone Hfound. run. destruct n as [|n].
  - rewrite Hfound. cbn beta iota. run. now rewrite refetch_some.
  - rewrite (Hnone 0%nat) by lia. cbn beta iota. run.
    rewrite (refetch_found w id m s n); [reflexivity|lia| |exact Hfound].
    intros j Hj. apply Hnone. simpl. lia.
Qed.

Lemma fetch_exhausted {A} (w : World) (id : JSString) (limit : nat) (s : Server)
    (k : option Message.t -> M A) :
  (0 < limit)%nat ->
  (forall j, (j < limit)%nat -> getMessage w id j = Return None) ->
  (first ← await (getMessage w id 0); ret ← refetch w id limit 1 first; k ret) s
  = k None s.
Proof.
  intros Hl Hnone. run. rewrite (Hnone 0%nat) by lia. cbn beta iota. run.
  rewrite refetch_exhausted; [reflexivity|]. intros j Hj. apply Hnone. simpl. lia.
Qed.

Lemma fetch_failed {A} (w : World) (id : JSString) (limit : nat) (s : Server)
    (k : option Message.t -> M A) (n : nat) (e : Exn) :
  (n < limit)%nat ->
  (forall j, (j < n)%nat -> getMessage w id j = Return None) ->
  getMessage w id n = Throw e ->
  (first ← await (getMessage w id 0); ret ← refetch w id limit 1 first; k ret) s
  = (Throw e, s).
Proof.
  intros Hn Hnone Hfound. run. destruct n as [|n].
  - now rewrite Hfound.
  - rewrite (Hnone 0%nat) by lia. cbn beta iota. run.
    rewrite (refetch_failed w id e s n); [reflexivity|lia| |exact Hfound].
    intros j Hj. apply Hnone. simpl. lia.
Qed.

(** X1.  Once the private API has given an identifier,
    [sendMessagePrivateApi] resolves to the first row the store gives for
    it among forty lookups, the one before the loop counted; when all
    forty give none it throws [Message not found after 5 seconds]; a lookup
    that throws ends the call with its error.  The server state is left as
    it was in each case. *)
Theorem sendMessagePrivateApi_polls_the_store (w : World) (p : SendMessagePrivateApiParams)
    (s : Server) (result : option ApiResult) (id : JSString) :
  checkPrivateApiStatus w = Return tt ->
  privateSendMessage w (pp_chatGuid p) (pp_message p) (pp_attributedBody p) (pp_subject p)
    (pp_effectId p) (pp_selectedMessageGuid p) (default 0 (pp_partIndex p)) = Return result ->
  identifierOf result = Some id ->
  (forall n m, (n < 40)%nat ->
     (forall j, (j < n)%nat -> getMessage w id j = Return None) ->
     getMessage w id n = Return (Some m) ->
     sendMessagePrivateApi w p s = (Return m, s))
  /\ ((forall j, (j < 40)%nat -> getMessage w id j = Return None) ->
      sendMessagePrivateApi w p s =
      (Throw (Error (lit "Failed to send message! Message not found after 5 seconds!")), s))
  /\ (forall n e, (n < 40)%nat ->
       (forall j, (j < n)%nat -> getMessage w id j = Return None) ->
       getMessage w id n = Throw e ->
       sendMessagePrivateApi w p s = (Throw e, s)).
Proof.
  intros Hstatus Hcall Hid.
  assert (Hpre : sendMessagePrivateApi w p s =
                 (first ← await (getMessage w id 0);
                  ret ← refetch w id 40 1 first;
                  match ret with
                  | Some m => mret m
                  | None => throw (Error (lit "Failed to send message! Message not found after 5 seconds!"))
                  end) s).
  { unfold sendMessagePrivateApi. rewrite bind_run. unfold await at 1. rewrite Hstatus.
    rewrite bind_run. unfold await at 1. rewrite Hcall. cbn beta iota. now rewrite Hid. }
  rewrite Hpre. split; [|split].
  - intros n m Hn Hnone Hfound. now rewrite (fetch_found w id 40 s _ n m Hn Hnone Hfound).
  - intros Hnone. rewrite fetch_exhausted; [reflexivity|lia|exact Hnone].
  - intros n e Hn Hnone Hfail. now rewrite (fetch_failed w id 40 s _ n e Hn Hnone Hfail).
Qed.

(** The loop reads the store only at the tries it has. *)
Lemma refetch_agrees (w : World) (g : JSString -> nat -> Completion (option Message.t))
    (id : JSString) (s : Server) :
  forall remaining attempt ret,
    (forall j, (j + 1 < remaining)%nat -> g id (attempt + j)%nat = getMessage w id (attempt + j)) ->
    refetch (withGetMessage w g) id remaining attempt ret s = refetch w id remaining attempt ret s.
Proof.
  induction remaining as [|r IH]; intros attempt [m|] Hagree; try reflexivity.
  destruct r as [|r]; [reflexivity|]. rewrite !refetch_step. cbn [getMessage withGetMessage].
  pose proof (Hagree 0%nat ltac:(lia)) as H0. rewrite Nat.add_0_r in H0. rewrite H0.
  destruct (getMessage w id attempt) as [next|e]; [|reflexivity].
  apply IH. intros j Hj. replace (S attempt + j)%nat with (attempt + S j)%nat by lia.
  apply Hagree. lia.
Qed.

Lemma bind_ext {A B} (c c' : M A) (f f' : A -> M B) (s : Server) :
  c s = c' s -> (forall a s', f a s' = f' a s') -> (c ≫= f) s = (c' ≫= f') s.
Proof.
  intros Hc Hf. rewrite !bind_run, Hc. destruct (c' s) as [[a|e] s']; [apply Hf|reflexivity].
Qed.

(** X1 in a world whose store finds the row at the fourth lookup, and in
    one whose store never finds it. *)
Lemma sendMessagePrivateApi_polls_the_store_witness :
  sendMessagePrivateApi MoreSamples.slowWorld Samples.privateParams Samples.idle
  = (Return Samples.rowDelivered, Samples.idle)
  /\ sendMessagePrivateApi MoreSamples.blindWorld Samples.privateParams Samples.idle
     = (Throw (Error (lit "Failed to send message! Message not found after 5 seconds!")),
        Samples.idle).
Proof.
  split.
  - destruct (sendMessagePrivateApi_polls_the_store MoreSamples.slowWorld Samples.privateParams
                Samples.idle _ (lit "msg-9") eq_refl eq_refl eq_refl) as [Hfound _].
    apply (Hfound 3%nat Samples.rowDelivered); [lia | | reflexivity].
    intros j Hj. destruct j as [|[|[|j]]]; try reflexivity. lia.
  - destruct (sendMessagePrivateApi_polls_the_store MoreSamples.blindWorld Samples.privateParams
                Samples.idle _ (lit "msg-9") eq_refl eq_refl eq_refl) as [_ [Hnone _]].
    apply Hnone. reflexivity.
Defined.

(** X2.  [sendMessagePrivateApi] reads the store at most forty times and
    [sendReaction] at most twenty: whatever the store would answer from
    the forty-first, or the twenty-first, lookup on changes neither the
    outcome nor the state of the call. *)
Theorem private_sends_bound_their_lookups (w : World)
    (g : JSString -> nat -> Completion (option Message.t)) (s : Server) :
  (forall p, (forall id j, (j < 40)%nat -> g id j = getMessage w id j) ->
     sendMessagePrivateApi (withGetMessage w g) p s = sendMessagePrivateApi w p s)
  /\ (forall p, (forall id j, (j < 20)%nat -> g id j = getMessage w id j) ->
     sendReaction (withGetMessage w g) p s = sendReaction w p s).
Proof.
  split; intros p Hagree.
  - unfold sendMessagePrivateApi.
    apply bind_ext; [reflexivity|]. intros _ s1.
    apply bind_ext; [reflexivity|]. intros result s2.
    destruct (identifierOf result) as [id|]; [|reflexivity].
    apply bind_ext.
    { unfold await. cbn [getMessage withGetMessage]. now rewrite Hagree by lia. }
    intros first s3. apply bind_ext; [|reflexivity].
    apply refetch_agrees. intros j Hj. apply Hagree. simpl. lia.
  - unfold sendReaction.
    apply bind_ext; [reflexivity|]. intros _ s1.
    apply bind_ext; [reflexivity|]. intros t s2.
    apply bind_ext; [reflexivity|]. intros _ s3.
    apply bind_ext; [reflexivity|]. intros result s4.
    destruct (identifierOf result) as [id|]; [|reflexivity].
    apply bind_ext; [reflexivity|]. intros _ s5.
    apply bind_ext.
    { unfold await. cbn [getMessage withGetMessage]. now rewrite Hagree by lia. }
    intros first s6. apply bind_ext; [|reflexivity].
    apply refetch_agrees. intros j Hj. apply Hagree. simpl. lia.
Qed.

(** X2 with a store that is closed after the last lookup of each loop. *)
Lemma private_sends_bound_their_lookups_witness :
  sendMessagePrivateApi
    (withGetMessage MoreSamples.blindWorld (MoreSamples.cutOff 40 MoreSamples.blindWorld))
    Samples.privateParams Samples.idle
  = sendMessagePrivateApi MoreSamples.blindWorld Samples.privateParams Samples.idle
  /\ sendReaction
       (withGetMessage MoreSamples.blindWorld (MoreSamples.cutOff 20 MoreSamples.blindWorld))
       (Samples.reactionParams Samples.rowPhoto) Samples.idle
     = sendReaction MoreSamples.blindWorld (Samples.reactionParams Samples.rowPhoto) Samples.idle.
Proof.
  split.
  - apply (proj1 (private_sends_bound_their_lookups MoreSamples.blindWorld
                    (MoreSamples.cutOff 40 MoreSamples.blindWorld) Samples.idle)).
    intros id j Hj. unfold MoreSamples.cutOff.
    now rewrite (proj2 (Nat.ltb_lt j 40) Hj).
  - apply (proj2 (private_sends_bound_their_lookups MoreSamples.blindWorld
                    (MoreSamples.cutOff 20 MoreSamples.blindWorld) Samples.idle)).
    intros id j Hj. unfold MoreSamples.cutOff.
    now rewrite (proj2 (Nat.ltb_lt j 20) Hj).
Defined.

(** X3.  Once the reaction text is built and the private API has given
    an identifier, [sendReaction] has logged the identifier and added its
    request; it resolves to the first row the store gives among twenty
    lookups, and when all twenty give none, to the row its own request
    resolves to: it throws [Message not found after 5 seconds] only when
    the request resolves to none, and ends with the request's error when
    the request is rejected. *)
Theorem sendReaction_falls_back_to_the_request (w : World) (p : SendReactionParams)
    (s : Server) (t : JSString) (result : option ApiResult) (id : JSString) :
  checkPrivateApiStatus w = Return tt ->
  reactionMessageText w (sr_message p) (sr_reaction p) = Return t ->
  privateSendReaction w (sr_chatGuid p) (Message.guid (sr_message p)) (sr_reaction p)
    (default 0 (sr_partIndex p)) = Return result ->
  identifierOf result = Some id ->
  let awaiter := mkPromise (sr_chatGuid p) (Some t) false (backdatedNow w) None (sr_tempGuid p) in
  let after :=
    mkServer (logs s ++ [logAs (lit "Reaction sent with Message GUID: " ++ id) "debug"])
      (messageManager s ++ [awaiter]) in
  (forall n m, (n < 20)%nat ->
     (forall j, (j < n)%nat -> getMessage w id j = Return None) ->
     getMessage w id n = Return (Some m) ->
     sendReaction w p s = (Return m, after))
  /\ ((forall j, (j < 20)%nat -> getMessage w id j = Return None) ->
      sendReaction w p s =
      match awaitPromise w awaiter with
      | Return (Some m) => (Return m, after)
      | Return None =>
          (Throw (Error (lit "Failed to send reaction! Message not found after 5 seconds!")),
           after)
      | Throw e => (Throw e, after)
      end).
Proof.
  intros Hstatus Htext Hcall Hid. cbv zeta.
  set (awaiter := mkPromise (sr_chatGuid p) (Some t) false (backdatedNow w) None (sr_tempGuid p)).
  set (after := mkServer _ _).
  assert (Hpre : sendReaction w p s =
    (first ← await (getMessage w id 0);
     fetched ← refetch w id 20 1 first;
     (retMessage ← match fetched with
                   | Some m => mret (Some m)
                   | None => await (awaitPromise w awaiter)
                   end;
      match retMessage with
      | Some m => mret m
      | None => throw (Error (lit "Failed to send reaction! Message not found after 5 seconds!"))
      end)) after).
  { unfold sendReaction. rewrite bind_run. unfold await at 1. rewrite Hstatus.
    rewrite bind_run. unfold await at 1. rewrite Htext.
    rewrite bind_run. unfold add at 1. cbn beta iota.
    rewrite bind_run. unfold await at 1. rewrite Hcall. cbn beta iota. rewrite Hid.
    rewrite bind_run. unfold log at 1. reflexivity. }
  rewrite Hpre. split.
  - intros n m Hn Hnone Hfound. now rewrite (fetch_found w id 20 after _ n m Hn Hnone Hfound).
  - intros Hnone. rewrite fetch_exhausted; [|lia|exact Hnone].
    rewrite bind_run. unfold await.
    destruct (awaitPromise w awaiter) as [[m|]|e]; reflexivity.
Qed.

(** X3 with a store that never finds the row: the reaction resolves to
    the row its request resolves to. *)
Lemma sendReaction_falls_back_to_the_request_witness :
  fst (sendReaction MoreSamples.blindWorld (Samples.reactionParams Samples.rowPhoto) Samples.idle)
  = Return Samples.rowDelivered.
Proof.
  destruct (sendReaction_falls_back_to_the_request MoreSamples.blindWorld
              (Samples.reactionParams Samples.rowPhoto) Samples.idle (lit "Loved an image") _
              (lit "msg-9") eq_refl eq_refl eq_refl eq_refl) as [_ Hnone].
  rewrite Hnone; reflexivity.
Defined.

(** X4.  With a chat guid and a method that is neither [apple-script] nor
    [private-api], [sendMessageSync] throws [Invalid send method], and by
    then its request is in the queue: the method is looked at only after
    the request was added. *)
Theorem sendMessageSync_rejects_unknown_method_after_enqueueing (w : World)
    (p : SendMessageParams) (s : Server) :
  falsy (sm_chatGuid p) = false ->
  methodOf p <> lit "apple-script" ->
  methodOf p <> lit "private-api" ->
  fst (sendMessageSync w p s) = Throw (Error (lit "Invalid send method: " ++ methodOf p))
  /\ enqueuedBy (sendMessageSync w p) s =
     [mkPromise (sm_chatGuid p) (sm_message p) false (backdatedNow w) (sm_subject p)
        (sm_tempGuid p)].
Proof.
  intros Hchat Ha Hp. split.
  - unfold sendMessageSync. rewrite Hchat. run. unfold strictEq.
    rewrite !bool_decide_eq_false_2 by assumption. reflexivity.
  - apply enqueuedBy_app. pose proof (sendMessageSync_queue w p s) as H.
    now rewrite Hchat in H.
Qed.

(** X4 at the method [carrier-pigeon]. *)
Lemma sendMessageSync_rejects_unknown_method_after_enqueueing_witness :
  fst (sendMessageSync (Samples.world None) MoreSamples.oddMethodParams Samples.idle)
  = Throw (Error (lit "Invalid send method: carrier-pigeon"))
  /\ length (messageManager
               (snd (sendMessageSync (Samples.world None) MoreSamples.oddMethodParams
                       Samples.idle))) = 1%nat.
Proof.
  destruct (sendMessageSync_rejects_unknown_method_after_enqueueing (Samples.world None)
              MoreSamples.oddMethodParams Samples.idle eq_refl) as [Hthrow Hqueue].
  - intros H. vm_compute in H. discriminate H.
  - intros H. vm_compute in H. discriminate H.
  - split; [exact Hthrow|]. vm_compute. reflexivity.
Defined.

Lemma endsWith_false (s suffix : JSString) :
  endsWith s suffix = false <-> forall base, s <> base ++ suffix.
Proof.
  split.
  - intros H base ->. rewrite (proj2 (endsWith_spec _ _)) in H; [discriminate|now exists base].
  - intros H. destruct (endsWith s suffix) eqn:E; [|reflexivity].
    apply endsWith_spec in E as [base ->]. now destruct (H base).
Qed.

(** X5.  The name a request waits for has the length of the caller's
    name, never ends in [.mp3], and is left as it is when the rewrite is
    applied to it again; without a caller's name there is none. *)
Theorem awaitedName_keeps_length_and_is_idempotent (name : JSString) :
  (exists awaited, awaitedName (Some name) = Some awaited
     /\ length awaited = length name
     /\ endsWith awaited (lit ".mp3") = false
     /\ awaitedName (Some awaited) = Some awaited)
  /\ awaitedName None = None.
Proof.
  split; [|reflexivity].
  destruct (endsWith name (lit ".mp3")) eqn:E.
  - apply endsWith_spec in E as [base ->]. exists (base ++ lit ".caf").
    assert (Hno : endsWith (base ++ lit ".caf") (lit ".mp3") = false).
    { apply endsWith_false. intros base' H.
      assert (Hl : length base = length base')
        by (apply (f_equal length) in H; rewrite !length_app in H; vm_compute (length (lit _)) in H; lia).
      apply app_inj_1 in H; [|exact Hl]. destruct H as [_ H]. vm_compute in H. discriminate H. }
    split; [apply awaitedName_mp3|]. split; [now rewrite !length_app|]. split; [exact Hno|].
    unfold awaitedName. now rewrite Hno.
  - exists name. unfold awaitedName. rewrite E. auto.
Qed.

(** X6.  With the private API enabled and the primitive resolved,
    whatever it resolves to, [unsendMessage] and [editMessage] resolve to
    the first row the store gives for the message guid among forty
    lookups, and throw [Message not found after 5 seconds] when all forty
    give none; the server state is left as it was. *)
Theorem edits_and_unsends_poll_the_store (ew : EditWorld) (s : Server) :
  checkPrivateApiStatus (world ew) = Return tt ->
  (forall p,
     privateUnsendMessage ew (um_chatGuid p) (um_messageGuid p) (default 0 (um_partIndex p))
     = Return tt ->
     (forall n m, (n < 40)%nat ->
        (forall j, (j < n)%nat -> getMessage (world ew) (um_messageGuid p) j = Return None) ->
        getMessage (world ew) (um_messageGuid p) n = Return (Some m) ->
        unsendMessage ew p s = (Return m, s))
     /\ ((forall j, (j < 40)%nat -> getMessage (world ew) (um_messageGuid p) j = Return None) ->
         unsendMessage ew p s =
         (Throw (Error (lit "Failed to unsend message! Message not found after 5 seconds!")), s)))
  /\ (forall p,
     privateEditMessage ew (em_chatGuid p) (em_messageGuid p) (em_editedMessage p)
       (em_backwardsCompatMessage p) (default 0 (em_partIndex p)) = Return tt ->
     (forall n m, (n < 40)%nat ->
        (forall j, (j < n)%nat -> getMessage (world ew) (em_messageGuid p) j = Return None) ->
        getMessage (world ew) (em_messageGuid p) n = Return (Some m) ->
        editMessage ew p s = (Return m, s))
     /\ ((forall j, (j < 40)%nat -> getMessage (world ew) (em_messageGuid p) j = Return None) ->
         editMessage ew p s =
         (Throw (Error (lit "Failed to edit message! Message not found after 5 seconds!")), s))).
Proof.
  intros Hstatus. split; intros p Hcall.
  - assert (Hpre : unsendMessage ew p s =
      (first ← await (getMessage (world ew) (um_messageGuid p) 0);
       ret ← refetch (world ew) (um_messageGuid p) 40 1 first;
       match ret with
       | Some m => mret m
       | None => throw (Error (lit "Failed to unsend message! Message not found after 5 seconds!"))
       end) s).
    { unfold unsendMessage. cbv zeta. rewrite bind_run. unfold await at 1. rewrite Hstatus.
      rewrite bind_run. unfold await at 1. now rewrite Hcall. }
    rewrite Hpre. split.
    + intros n m Hn Hnone Hfound. now rewrite (fetch_found _ _ 40 s _ n m Hn Hnone Hfound).
    + intros Hnone. rewrite fetch_exhausted; [reflexivity|lia|exact Hnone].
  - assert (Hpre : editMessage ew p s =
      (first ← await (getMessage (world ew) (em_messageGuid p) 0);
       ret ← refetch (world ew) (em_messageGuid p) 40 1 first;
       match ret with
       | Some m => mret m
       | None => throw (Error (lit "Failed to edit message! Message not found after 5 seconds!"))
       end) s).
    { unfold editMessage. cbv zeta. rewrite bind_run. unfold await at 1. rewrite Hstatus.
      rewrite bind_run. unfold await at 1. now rewrite Hcall. }
    rewrite Hpre. split.
    + intros n m Hn Hnone Hfound. now rewrite (fetch_found _ _ 40 s _ n m Hn Hnone Hfound).
    + intros Hnone. rewrite fetch_exhausted; [reflexivity|lia|exact Hnone].
Qed.

(** X6 with a store that finds the row at the fourth lookup. *)
Lemma edits_and_unsends_poll_the_store_witness :
  unsendMessage MoreSamples.slowEdits MoreSamples.unsendParams Samples.idle
  = (Return Samples.rowDelivered, Samples.idle)
  /\ editMessage MoreSamples.slowEdits MoreSamples.editParams Samples.idle
     = (Return Samples.rowDelivered, Samples.idle).
Proof.
  destruct (edits_and_unsends_poll_the_store MoreSamples.slowEdits Samples.idle eq_refl)
    as [Hunsend Hedit].
  split.
  - apply (proj1 (Hunsend MoreSamples.unsendParams eq_refl) 3%nat); [lia | | reflexivity].
    intros j Hj. destruct j as [|[|[|j]]]; try reflexivity. lia.
  - apply (proj1 (Hedit MoreSamples.editParams eq_refl) 3%nat); [lia | | reflexivity].
    intros j Hj. destruct j as [|[|[|j]]]; try reflexivity. lia.
Defined.

Lemma stateless_unsendMessage ew p : stateless (unsendMessage ew p).
Proof.
  unfold unsendMessage. cbv zeta.
  apply stateless_bind; [apply stateless_await|]; intros _.
  apply stateless_bind; [apply stateless_await|]; intros _.
  apply stateless_bind; [apply stateless_await|]; intros first.
  apply stateless_bind; [apply stateless_refetch|].
  intros [m|]; [apply stateless_ret | apply stateless_throw].
Qed.

Lemma stateless_editMessage ew p : stateless (editMessage ew p).
Proof.
  unfold editMessage. cbv zeta.
  apply stateless_bind; [apply stateless_await|]; intros _.
  apply stateless_bind; [apply stateless_await|]; intros _.
  apply stateless_bind; [apply stateless_await|]; intros first.
  apply stateless_bind; [apply stateless_refetch|].
  intros [m|]; [apply stateless_ret | apply stateless_throw].
Qed.

End MessageInterfaceMore.

(** ** The Dedup Cache key, without the guid fixed *)
Section CacheNameMore.

(** Two strings cut at their last colon agree part by part. *)
Lemma split_at_last_colon (a a' b b' : JSString) :
  Forall (fun c => c <> 58%N) b -> Forall (fun c => c <> 58%N) b' ->
  a ++ lit ":" ++ b = a' ++ lit ":" ++ b' -> a = a' /\ b = b'.
Proof.
  intros Hb Hb' H. apply (f_equal (@rev N)) in H.
  rewrite !rev_app_distr in H. change (rev (lit ":")) with (lit ":") in H.
  rewrite <- !app_assoc in H.
  apply split_at_colon in H; try (apply Forall_rev; assumption).
  destruct H as [H1 H2]. split; apply rev_inj; assumption.
Qed.

(** X7.  Two rows have the same cache name exactly when they have the
    same guid, the same delivery time and the same read time, a date that
    is not set counting as [0]: a guid that itself holds colons cannot make
    the keys of two different rows meet. *)
Theorem getCacheName_is_injective (m m' : Message.t) :
  getCacheName m = getCacheName m' <->
  Message.guid m = Message.guid m'
  /\ timeOrZero (Message.dateDelivered m) = timeOrZero (Message.dateDelivered m')
  /\ timeOrZero (Message.dateRead m) = timeOrZero (Message.dateRead m').
Proof.
  unfold getCacheName. split.
  - intros H.
    rewrite !(app_assoc (Message.guid _)), !(app_assoc (_ ++ _) (numToString _)) in H.
    apply split_at_last_colon in H; try apply numToString_noColon.
    destruct H as [H Hr].
    rewrite <- !app_assoc in H.
    apply split_at_last_colon in H; try apply numToString_noColon.
    destruct H as [Hg Hd]. apply numToString_inj in Hd, Hr. auto.
  - intros [-> [-> ->]]. reflexivity.
Qed.

End CacheNameMore.

(** ** Attachment conversion: the names given and the formats taken *)
Section ConversionNames.
Import AttachmentMetadata.
Local Opaque lit.

Lemma takeWhile_app_stop (p : N -> bool) (x y : JSString) (c : N) :
  Forall (fun d => p d = true) x -> p c = false -> takeWhile p (x ++ c :: y) = x.
Proof.
  induction x as [|d x IH]; intros Hx Hc; simpl; [now rewrite Hc|].
  rewrite (Forall_inv Hx). f_equal. apply IH; [now apply Forall_inv_tail in Hx|exact Hc].
Qed.

(** The last segment of a path that ends in a file name. *)
Lemma basename_of_file (dir name : JSString) :
  name <> [] -> Forall (fun c => c <> 47%N) name ->
  basename (dir ++ lit "/" ++ name) = name.
Proof.
  intros Hne Hname. unfold basename.
  rewrite !rev_app_distr. change (rev (lit "/")) with [47%N]. rewrite <- app_assoc.
  assert (Hrev : Forall (fun c => c <> 47%N) (rev name)) by now apply Forall_rev.
  destruct (rev name) as [|c r] eqn:Er.
  { apply (f_equal (@rev N)) in Er. rewrite rev_involutive in Er. now destruct Hne. }
  cbn [app dropWhile]. unfold isSlash.
  rewrite (proj2 (N.eqb_neq c 47) (Forall_inv Hrev)).
  change (c :: r ++ 47%N :: rev dir) with ((c :: r) ++ 47%N :: rev dir).
  rewrite takeWhile_app_stop.
  - rewrite <- Er. apply rev_involutive.
  - eapply Forall_impl; [exact Hrev|]. intros d Hd. cbn beta.
    now rewrite (proj2 (N.eqb_neq d 47) Hd).
  - reflexivity.
Qed.

(** A pattern that starts with a dot is not found in a name without a
    dot, followed by an extension in which it is not found either. *)
Lemma replace_no_match (g pattern ext replacement : JSString) :
  Forall (fun c => c <> 46%N) g ->
  replace ext (46%N :: pattern) replacement = ext ->
  replace (g ++ ext) (46%N :: pattern) replacement = g ++ ext.
Proof.
  intros Hg Hext. induction g as [|c g IH]; [exact Hext|].
  cbn [app replace startsWith].
  rewrite (proj2 (N.eqb_neq 46 c)) by (intros Heq; apply Forall_inv in Hg; congruence).
  f_equal. apply IH. now apply Forall_inv_tail in Hg.
Qed.

Lemma converted_name (dir g : JSString) (oldExt newExt : string) :
  plainGuid g ->
  Forall (fun c => c <> 47%N) (lit newExt) ->
  replace (lit newExt) (lit oldExt) (lit newExt) = lit newExt ->
  (exists pattern, lit oldExt = 46%N :: pattern) ->
  replace (basename (dir ++ lit "/" ++ g ++ lit newExt)) (lit oldExt) (lit newExt)
  = g ++ lit newExt.
Proof.
  intros [Hne Hg] Hext Hrep [pattern Hp].
  rewrite basename_of_file.
  - rewrite Hp in *. apply replace_no_match; [|exact Hrep].
    eapply Forall_impl; [exact Hg|]. now intros c [_ H].
  - destruct g; [now destruct Hne|discriminate].
  - apply Forall_app. split; [|exact Hext].
    eapply Forall_impl; [exact Hg|]. now intros c [H _].
Qed.

(** X8.  For an attachment whose guid is not empty and holds neither a
    slash nor a dot, a conversion that returns a path has set the file
    path to that path, which is the convert directory, a slash, the guid
    and the new extension, and has set the transfer name to the guid with
    the new extension: the name the attachment came with is dropped. *)
Theorem converted_attachment_is_named_after_its_guid (fs : FileSystem) (a : Attachment.t) :
  plainGuid (Attachment.guid a) ->
  (forall path, newPathOf (convertAudio fs a) = Some path ->
     Attachment.transferName (attachmentOf (convertAudio fs a))
     = Some (Attachment.guid a ++ lit ".mp3")
     /\ Attachment.filePath (attachmentOf (convertAudio fs a)) = Some path
     /\ path = convertDir fs ++ lit "/" ++ Attachment.guid a ++ lit ".mp3")
  /\ (forall path, newPathOf (convertImage fs a) = Some path ->
     Attachment.transferName (attachmentOf (convertImage fs a))
     = Some (Attachment.guid a ++ lit ".jpg")
     /\ Attachment.filePath (attachmentOf (convertImage fs a)) = Some path
     /\ path = convertDir fs ++ lit "/" ++ Attachment.guid a ++ lit ".jpg")
  /\ (forall path, newPathOf (convertVideo fs a) = Some path ->
     Attachment.transferName (attachmentOf (convertVideo fs a))
     = Some (Attachment.guid a ++ lit ".mp4")
     /\ Attachment.filePath (attachmentOf (convertVideo fs a)) = Some path
     /\ path = convertDir fs ++ lit "/" ++ Attachment.guid a ++ lit ".mp4").
Proof.
  intros Hg. split; [|split]; intros path Hpath.
  - destruct (convertAudio_frame fs a) as [_ [_ H]].
    destruct (H path Hpath) as [_ [_ [-> Hr]]]. rewrite Hr. cbn [Attachment.transferName Attachment.filePath].
    split; [|split; reflexivity]. f_equal.
    apply converted_name; [exact Hg| | |].
    + vm_compute. repeat constructor; discriminate.
    + vm_compute. reflexivity.
    + eexists. vm_compute. reflexivity.
  - destruct (convertImage_frame fs a) as [_ [_ H]].
    destruct (H path Hpath) as [_ [_ [-> Hr]]]. rewrite Hr. cbn [Attachment.transferName Attachment.filePath].
    split; [|split; reflexivity]. f_equal.
    apply converted_name; [exact Hg| | |].
    + vm_compute. repeat constructor; discriminate.
    + vm_compute. reflexivity.
    + eexists. vm_compute. reflexivity.
  - destruct (convertVideo_frame fs a) as [_ [_ H]].
    destruct (H path Hpath) as [_ [_ [-> Hr]]]. rewrite Hr. cbn [Attachment.transferName Attachment.filePath].
    split; [|split; reflexivity]. f_equal.
    apply converted_name; [exact Hg| | |].
    + vm_compute. repeat constructor; discriminate.
    + vm_compute. reflexivity.
    + eexists. vm_compute. reflexivity.
Qed.

(** X8 at a voice memo that came as [memo.caf]: it leaves as [att-3.mp3]. *)
Lemma converted_attachment_is_named_after_its_guid_witness :
  plainGuid (Attachment.guid Samples.voiceMemo)
  /\ Attachment.transferName (attachmentOf (convertAudio (Samples.disk true) Samples.voiceMemo))
     = Some (lit "att-3.mp3")
  /\ Attachment.filePath (attachmentOf (convertAudio (Samples.disk true) Samples.voiceMemo))
     = Some (lit "/tmp/convert/att-3.mp3").
Proof.
  assert (Hg : plainGuid (Attachment.guid Samples.voiceMemo)).
  { split; [vm_compute; discriminate|]. vm_compute. repeat constructor; discriminate. }
  destruct (converted_attachment_is_named_after_its_guid (Samples.disk true) Samples.voiceMemo Hg)
    as [Haudio _].
  destruct (Haudio (lit "/tmp/convert/att-3.mp3") eq_refl) as [Hname [Hpath _]].
  split; [exact Hg|]. split; [exact Hname | exact Hpath].
Defined.

(** X9.  Each conversion returns the new path when the attachment is of
    the format it recognises and the attempt does not throw; for
    [convertVideo] the MIME type must not be empty as well, and an
    attachment without a MIME type is never converted by it, whatever its
    uti. *)
Theorem recognised_formats_are_converted (fs : FileSystem) (a : Attachment.t) :
  (let newPath := convertDir fs ++ lit "/" ++ Attachment.guid a ++ lit ".mp3" in
   audioRecognised a ->
   ~ attemptThrows fs newPath (convertCafToMp3 fs a newPath) ->
   newPathOf (convertAudio fs a) = Some newPath)
  /\ (let newPath := convertDir fs ++ lit "/" ++ Attachment.guid a ++ lit ".jpg" in
      imageRecognised a ->
      ~ attemptThrows fs newPath (convertToJpg fs (lit "heic") a newPath) ->
      newPathOf (convertImage fs a) = Some newPath)
  /\ (let newPath := convertDir fs ++ lit "/" ++ Attachment.guid a ++ lit ".mp4" in
      videoRecognised a ->
      isNotEmptyStr (Attachment.mimeType a) = true ->
      ~ attemptThrows fs newPath (convertToMp4 fs a newPath) ->
      newPathOf (convertVideo fs a) = Some newPath)
  /\ (Attachment.mimeType a = None -> newPathOf (convertVideo fs a) = None).
Proof.
  split; [apply convertAudio_converts|]. split; [apply convertImage_converts|].
  split; [apply convertVideo_converts|].
  intros Hm. unfold convertVideo. rewrite Hm. cbn [isNotEmptyStr].
  destruct (attemptConversion _ _ _ _ _ _) as [[] lines]; reflexivity.
Qed.

End ConversionNames.

(** ** Attachment metadata *)
Section MetadataFacts.
Import AttachmentMetadata.
Local Opaque lit.
Context {V : Type} (truthy : V -> bool) (ex : Extractors V).

Lemma mimeStartsWith_present (mime : option JSString) (prefix : string) :
  isNotEmptyStr mime = true -> exists b, mimeStartsWith mime prefix = Return b.
Proof. destruct mime as [m|]; [intros _; now eexists | discriminate]. Qed.

(** X10.  [getAttachmentMetadata] asks one extractor at most: the audio
    one for a Core Audio uti whatever the MIME type; nothing, resolving to
    [undefined], for any other uti with a missing or empty MIME type; and
    for a MIME type that is neither audio nor image, the video one when it
    starts with [video] and nothing otherwise.  When the call throws, the
    error is one an extractor threw. *)
Theorem getAttachmentMetadata_picks_one_extractor (a : Attachment.t) :
  (Attachment.uti a = Some (lit "com.apple.coreaudio-format") ->
   getAttachmentMetadata truthy ex a = (getAudioMetadata ex (Attachment.filePath a), []))
  /\ (Attachment.uti a <> Some (lit "com.apple.coreaudio-format") ->
      isNotEmptyStr (Attachment.mimeType a) = false ->
      getAttachmentMetadata truthy ex a = (Return MUndefined, []))
  /\ (forall m, Attachment.uti a <> Some (lit "com.apple.coreaudio-format") ->
      Attachment.mimeType a = Some m ->
      startsWith m (lit "audio") = false -> startsWith m (lit "image") = false ->
      getAttachmentMetadata truthy ex a =
      if startsWith m (lit "video") then (getVideoMetadata ex (Attachment.filePath a), [])
      else (Return MUndefined, []))
  /\ (forall e, fst (getAttachmentMetadata truthy ex a) = Throw e ->
      getAudioMetadata ex (Attachment.filePath a) = Throw e
      \/ getImageMetadata ex (Attachment.filePath a) = Throw e
      \/ getVideoMetadata ex (Attachment.filePath a) = Throw e).
Proof.
  unfold getAttachmentMetadata. cbv zeta.
  destruct (decide (Attachment.uti a = Some (lit "com.apple.coreaudio-format"))) as [Hu|Hu].
  - rewrite (bool_decide_eq_true_2 _ Hu). cbn [negb andb].
    split; [reflexivity|]. split; [contradiction|]. split; [intros; contradiction|].
    intros e He. now left.
  - rewrite (bool_decide_eq_false_2 _ Hu). cbn [negb andb].
    split; [contradiction|]. split; [now intros _ ->|]. split.
    + intros m _ Hm Ha Hi. rewrite Hm. cbn [mimeStartsWith isNotEmptyStr].
      destruct (truthyStr m) eqn:Ht.
      * cbn [negb]. rewrite Ha, Hi. now destruct (startsWith m (lit "video")).
      * destruct m; [|discriminate]. reflexivity.
    + intros e. destruct (Attachment.mimeType a) as [m|]; cbn [isNotEmptyStr mimeStartsWith].
      * destruct (truthyStr m); cbn [negb]; [|discriminate].
        destruct (startsWith m (lit "audio")); [now left|].
        destruct (startsWith m (lit "image")).
        -- destruct (getImageMetadata ex _) as [meta|e']; [|intros [= ->]; right; now left].
           destruct (fillFromNativeImage truthy ex a meta) as [[r|e'] lines]; discriminate.
        -- destruct (startsWith m (lit "video")); [right; now right|discriminate].
      * discriminate.
Qed.

Lemma image_branch (a : Attachment.t) (m : JSString) (meta : Metadata V) :
  Attachment.uti a <> Some (lit "com.apple.coreaudio-format") ->
  Attachment.mimeType a = Some m ->
  startsWith m (lit "audio") = false ->
  startsWith m (lit "image") = true ->
  getImageMetadata ex (Attachment.filePath a) = Return meta ->
  getAttachmentMetadata truthy ex a =
  match fillFromNativeImage truthy ex a meta with
  | (Return filled, lines) => (Return filled, lines)
  | (Throw _, lines) =>
      (Return meta, lines ++ [logAs (lit "Failed to load size data from NativeImage!") "debug"])
  end.
Proof.
  intros Hu Hm Ha Hi Hmeta. unfold getAttachmentMetadata. cbv zeta.
  rewrite (bool_decide_eq_false_2 _ Hu), Hm. cbn [isNotEmptyStr mimeStartsWith].
  rewrite (startsWith_truthy _ _ Hi) by reflexivity. cbn [negb andb].
  now rewrite Ha, Hi, Hmeta.
Qed.

(** X11.  For an image whose extractor resolves, the call resolves too,
    whatever the native image does.  The metadata is returned as it came
    when it has a height and a width, or when the MIME type is not one of
    the handled ones.  Otherwise, with a native size whose height and
    width are both truthy, these two are written into the metadata and
    every other field is kept; [null] metadata becomes an object of the two
    and [undefined] metadata stays [undefined]. *)
Theorem image_metadata_is_completed_not_replaced (a : Attachment.t) (m : JSString)
    (meta : Metadata V) :
  Attachment.uti a <> Some (lit "com.apple.coreaudio-format") ->
  Attachment.mimeType a = Some m ->
  startsWith m (lit "audio") = false ->
  startsWith m (lit "image") = true ->
  getImageMetadata ex (Attachment.filePath a) = Return meta ->
  (exists r, fst (getAttachmentMetadata truthy ex a) = Return r)
  /\ (lacks truthy meta "height" = false -> lacks truthy meta "width" = false ->
      getAttachmentMetadata truthy ex a = (Return meta, []))
  /\ (m ∉ handledImageMimes ex -> getAttachmentMetadata truthy ex a = (Return meta, []))
  /\ (forall size,
        m ∈ handledImageMimes ex ->
        lacks truthy meta "height" || lacks truthy meta "width" = true ->
        nativeSize ex (Attachment.filePath a) = Return (Some size) ->
        truthy (height size) = true -> truthy (width size) = true ->
        match meta with
        | MUndefined => fst (getAttachmentMetadata truthy ex a) = Return MUndefined
        | MNull =>
            fst (getAttachmentMetadata truthy ex a) =
            Return (MObject (<[lit "width" := width size]> (<[lit "height" := height size]> ∅)))
        | MObject fields =>
            exists filled,
              fst (getAttachmentMetadata truthy ex a) = Return (MObject filled)
              /\ filled !! lit "height" = Some (height size)
              /\ filled !! lit "width" = Some (width size)
              /\ forall k, k <> lit "height" -> k <> lit "width" -> filled !! k = fields !! k
        end).
Proof.
  intros Hu Hm Ha Hi Hmeta. rewrite (image_branch a m meta Hu Hm Ha Hi Hmeta).
  unfold fillFromNativeImage. rewrite Hm. split; [|split; [|split]].
  - destruct (bool_decide _ && _); [|now eexists].
    destruct (nativeSize ex _) as [[size|]|e]; try (now eexists).
    destruct (truthy (height size) && truthy (width size)); [|now eexists].
    destruct meta; now eexists.
  - intros -> ->. now rewrite andb_false_r.
  - intros Hno. now rewrite (bool_decide_eq_false_2 _ Hno).
  - intros size Hin Hlacks Hsize Hh Hw.
    rewrite (bool_decide_eq_true_2 _ Hin), Hlacks, Hsize, Hh, Hw. cbn [andb].
    destruct meta as [| |fields]; try reflexivity.
    eexists. split; [reflexivity|]. split; [|split].
    + rewrite lookup_insert_ne by (intros H; vm_compute in H; discriminate H).
      apply lookup_insert_eq.
    + apply lookup_insert_eq.
    + intros k Hk1 Hk2. now rewrite !lookup_insert_ne by congruence.
Qed.

End MetadataFacts.

Section MetadataExamples.
Import AttachmentMetadata.

(** X11 at a PNG image whose metadata has an orientation and no size. *)
Lemma image_metadata_is_completed_not_replaced_witness :
  exists filled,
    fst (getAttachmentMetadata EventSamples.truthyZ EventSamples.extractors Samples.photo)
    = Return (MObject filled)
    /\ filled !! lit "height" = Some 480
    /\ filled !! lit "width" = Some 640
    /\ filled !! lit "orientation" = Some 1.
Proof.
  assert (Huti : Attachment.uti Samples.photo <> Some (lit "com.apple.coreaudio-format"))
    by (intros H; vm_compute in H; discriminate H).
  destruct (image_metadata_is_completed_not_replaced EventSamples.truthyZ EventSamples.extractors
              Samples.photo (lit "image/png") (MObject {[ lit "orientation" := 1 ]})
              Huti eq_refl eq_refl eq_refl eq_refl) as [_ [_ [_ Hfill]]].
  assert (Hin : lit "image/png" ∈ handledImageMimes EventSamples.extractors)
    by (vm_compute; apply list_elem_of_further, list_elem_of_here).
  pose proof (Hfill (mkSize 480 640) Hin eq_refl eq_refl eq_refl eq_refl) as Hf.
  cbv beta iota in Hf. destruct Hf as [filled [Hr [Hh [Hw Hrest]]]].
  exists filled. split; [exact Hr|]. split; [exact Hh|]. split; [exact Hw|].
  rewrite Hrest; [reflexivity | |]; intros H; vm_compute in H; discriminate H.
Defined.

End MetadataExamples.

(** ** The helper channel: outbound commands *)
Section HelperCommandFacts.
Import HelperCommands.
Local Opaque lit.

Lemma printable_app s t : printable (s ++ t) = printable s && printable t.
Proof. apply forallb_app. Qed.

Lemma hexDigit_printable n : (32 <=? hexDigit n)%N = true.
Proof. unfold hexDigit. destruct (n <? 10)%N; apply N.leb_le; lia. Qed.

Lemma unicodeEscape_printable c : printable (unicodeEscape c) = true.
Proof.
  unfold unicodeEscape, printable. cbn [forallb]. now rewrite !hexDigit_printable.
Qed.

Lemma escapeUnit_printable c : printable (escapeUnit c) = true.
Proof.
  unfold escapeUnit.
  repeat (match goal with |- context [if ?b then _ else _] => destruct b eqn:? end;
          [first [reflexivity | apply unicodeEscape_printable]|]).
  unfold printable. cbn [forallb]. rewrite andb_true_r.
  apply N.leb_le. apply N.ltb_ge in Heqb6. exact Heqb6.
Qed.

Lemma surrogate_printable c :
  isHighSurrogate c || isLowSurrogate c = true -> (32 <=? c)%N = true.
Proof.
  unfold isHighSurrogate, isLowSurrogate. intros H. apply N.leb_le.
  apply orb_true_iff in H as [H|H]; apply andb_true_iff in H as [H _];
    apply N.leb_le in H; lia.
Qed.

Lemma quoteBody_cons c rest :
  quoteBody (c :: rest) =
  if isHighSurrogate c then
    match rest with
    | d :: rest' =>
        if isLowSurrogate d then c :: d :: quoteBody rest'
        else unicodeEscape c ++ quoteBody rest
    | [] => unicodeEscape c
    end
  else if isLowSurrogate c then unicodeEscape c ++ quoteBody rest
  else escapeUnit c ++ quoteBody rest.
Proof. reflexivity. Qed.

Lemma quoteBody_printable s : printable (quoteBody s) = true.
Proof.
  enough (H : printable (quoteBody s) = true
              /\ forall c, printable (quoteBody (c :: s)) = true) by apply H.
  induction s as [|d rest [IH IHc]].
  - split; [reflexivity|]. intros c. cbn [quoteBody].
    destruct (isHighSurrogate c); [apply unicodeEscape_printable|].
    destruct (isLowSurrogate c); rewrite app_nil_r;
      [apply unicodeEscape_printable | apply escapeUnit_printable].
  - split; [apply IHc|]. intros c. rewrite quoteBody_cons.
    destruct (isHighSurrogate c) eqn:Hc.
    + destruct (isLowSurrogate d) eqn:Hd.
      * change (printable (c :: d :: quoteBody rest))
          with ((32 <=? c)%N && ((32 <=? d)%N && printable (quoteBody rest))).
        rewrite (surrogate_printable c), (surrogate_printable d), IH; try reflexivity.
        -- now rewrite Hd, orb_true_r.
        -- now rewrite Hc.
      * now rewrite printable_app, unicodeEscape_printable, IHc.
    + destruct (isLowSurrogate c).
      * now rewrite printable_app, unicodeEscape_printable, IHc.
      * now rewrite printable_app, escapeUnit_printable, IHc.
Qed.

Lemma stringifyCommand_printable event data :
  printable (stringifyCommand event data) = true.
Proof.
  unfold stringifyCommand, quoteJSONString.
  rewrite !printable_app, !quoteBody_printable. now vm_compute.
Qed.

Lemma command_sent event verb accepted chatGuid st :
  sent (command event verb accepted chatGuid st) =
  match helper st, chatGuid with
  | Some socket, Some guid =>
      if server st && truthyStr guid
      then sent st ++ [(socket, stringifyCommand event guid ++ [10%N])]
      else sent st
  | _, _ => sent st
  end.
Proof.
  unfold command. destruct (helper st) as [socket|]; [|reflexivity].
  destruct (server st); [|now destruct chatGuid].
  destruct chatGuid as [guid|]; [|reflexivity].
  cbn [andb]. destruct (truthyStr guid); [|reflexivity].
  now destruct (accepted _).
Qed.

Lemma command_refused event verb accepted chatGuid st :
  helper st = None \/ server st = false \/ isNotEmptyStr chatGuid = false ->
  exists message,
    logged (command event verb accepted chatGuid st) = logged st ++ [logAs message "error"].
Proof.
  unfold command. intros H.
  destruct (helper st) as [socket|]; [|eexists; reflexivity].
  destruct (server st); [|eexists; reflexivity].
  destruct chatGuid as [guid|]; [|eexists; reflexivity].
  cbn [isNotEmptyStr] in H. destruct (truthyStr guid); [|eexists; reflexivity].
  destruct H as [H|[H|H]]; discriminate H.
Qed.

(** X12.  With a helper connected and a chat guid that is not empty,
    [startTyping] and [stopTyping] hand the socket one chunk each: the
    JSON text of the command followed by a line feed.  The JSON text holds
    no code unit below 32, whatever the chat guid holds, so the line feed
    that ends the chunk is the only one in it. *)
Theorem typing_commands_are_single_lines accepted guid socket st :
  helper st = Some socket -> server st = true -> truthyStr guid = true ->
  sent (startTyping accepted (Some guid) st) =
    sent st ++ [(socket, stringifyCommand "start-typing" guid ++ [10%N])]
  /\ sent (stopTyping accepted (Some guid) st) =
    sent st ++ [(socket, stringifyCommand "stop-typing" guid ++ [10%N])]
  /\ forall event, Forall (fun c => (32 <= c)%N) (stringifyCommand event guid).
Proof.
  intros Hh Hs Hg. unfold startTyping, stopTyping.
  rewrite !command_sent, Hh, Hs, Hg. split; [reflexivity|split; [reflexivity|]].
  intros event. apply List.Forall_forall. intros c Hc.
  pose proof (stringifyCommand_printable event guid) as Hp.
  unfold printable in Hp. rewrite forallb_forall in Hp.
  apply N.leb_le, Hp, Hc.
Qed.

(** X12 at a chat guid that holds a line feed itself. *)
Lemma typing_commands_are_single_lines_witness :
  sent (startTyping (fun _ => true) (Some EventSamples.oddGuid) EventSamples.connected) =
    [(7%N, stringifyCommand "start-typing" EventSamples.oddGuid ++ [10%N])]
  /\ 10%N ∈ EventSamples.oddGuid
  /\ 10%N ∉ stringifyCommand "start-typing" EventSamples.oddGuid.
Proof.
  destruct (typing_commands_are_single_lines (fun _ => true) EventSamples.oddGuid 7%N
              EventSamples.connected eq_refl eq_refl eq_refl) as [Hstart [_ Hbody]].
  split; [exact Hstart|]. split.
  - vm_compute. do 6 apply list_elem_of_further. apply list_elem_of_here.
  - intros Hin. specialize (Hbody "start-typing"%string).
    rewrite Forall_forall in Hbody. specialize (Hbody _ Hin). lia.
Defined.

(** X13.  [startTyping] hands the socket nothing exactly when no helper
    is connected, the server is not set, or the chat guid is missing or
    empty; in each of these cases it logs one line, as an error, and the
    same holds of [stopTyping]. *)
Theorem typing_commands_need_helper_and_chat accepted chatGuid st :
  (sent (startTyping accepted chatGuid st) = sent st
   <-> helper st = None \/ server st = false \/ isNotEmptyStr chatGuid = false)
  /\ (helper st = None \/ server st = false \/ isNotEmptyStr chatGuid = false ->
      (exists message,
         logged (startTyping accepted chatGuid st) = logged st ++ [logAs message "error"])
      /\ sent (stopTyping accepted chatGuid st) = sent st
      /\ exists message,
         logged (stopTyping accepted chatGuid st) = logged st ++ [logAs message "error"]).
Proof.
  assert (Hsent : forall event verb,
            sent (command event verb accepted chatGuid st) = sent st
            <-> helper st = None \/ server st = false \/ isNotEmptyStr chatGuid = false).
  { intros event verb. rewrite command_sent.
    destruct (helper st) as [socket|]; [|tauto].
    destruct chatGuid as [guid|]; [|cbn; tauto].
    cbn [isNotEmptyStr]. destruct (server st), (truthyStr guid); cbn [andb]; try tauto.
    split.
    - intros H. apply (f_equal length) in H. rewrite length_app in H. cbn in H. lia.
    - intros [H|[H|H]]; discriminate H. }
  unfold startTyping, stopTyping. split; [apply Hsent|].
  intros H. split; [now apply command_refused|].
  split; [now apply Hsent | now apply command_refused].
Qed.

(** X14.  A command goes to the socket of the latest connection.  Once
    the [close] handler of any connection has run, be it of an earlier
    connection than the latest, commands are handed to no socket. *)
Theorem a_closed_connection_silences_the_helper accepted guid first second st :
  server st = true -> truthyStr guid = true ->
  sent (startTyping accepted (Some guid) (onConnection second (onConnection first st))) =
    sent st ++ [(second, stringifyCommand "start-typing" guid ++ [10%N])]
  /\ sent (startTyping accepted (Some guid)
             (onClose (onConnection second (onConnection first st)))) = sent st
  /\ sent (stopTyping accepted (Some guid)
             (onClose (onConnection second (onConnection first st)))) = sent st.
Proof.
  intros Hs Hg. unfold startTyping, stopTyping. rewrite !command_sent.
  destruct st as [sv h se lg]. cbn in Hs. subst sv. cbn. now rewrite Hg.
Qed.

(** X14 with two connections, on sockets [7] and [8]. *)
Lemma a_closed_connection_silences_the_helper_witness :
  sent (startTyping (fun _ => true) (Some (lit "chat-1"))
          (onConnection 8 (onConnection 7 construct))) =
    [(8%N, stringifyCommand "start-typing" (lit "chat-1") ++ [10%N])]
  /\ sent (startTyping (fun _ => true) (Some (lit "chat-1"))
             (onClose (onConnection 8 (onConnection 7 construct)))) = [].
Proof.
  destruct (a_closed_connection_silences_the_helper (fun _ => true) (lit "chat-1") 7%N 8%N
              construct eq_refl eq_refl) as [Hlatest [Hclosed _]].
  split; [exact Hlatest | exact Hclosed].
Defined.
End HelperCommandFacts.

(** ** The server: logging, defaults, notifications and the message handlers *)
Section ServerEventFacts.
Import ServerEvents.
Local Opaque lit.
Context {P : Type} (out : Outside P).

Lemma log_plain (message : JSString) (st : Server P) :
  log message None st = (Return tt, emitToUI "new-log" message (toConsole "log" message st)).
Proof. reflexivity. Qed.

Lemma sendNotification_console (type : JSString) (data : P) (st : Server P) :
  console (snd (sendNotification out type data st)) = console st.
Proof.
  destruct st as [w d tb a ss f c al ui se pu]. unfold sendNotification.
  cbn [socketService fcmService db]. destruct ss; [|reflexivity].
  destruct f as [[]|]; try reflexivity. destruct d; [|reflexivity].
  destruct (findDevices out) as [[[|dv dvs]|]|e]; reflexivity.
Qed.

Lemma sendNotification_emits (type : JSString) (data : P) (st : Server P) :
  socketService st = true ->
  socketEmits (snd (sendNotification out type data st)) = socketEmits st ++ [(type, data)].
Proof.
  destruct st as [w d tb a ss f c al ui se pu]. cbn [socketService]. intros ->.
  unfold sendNotification. cbn [socketService fcmService db].
  destruct f as [[]|]; try reflexivity. destruct d; [|reflexivity].
  destruct (findDevices out) as [[[|dv dvs]|]|e]; reflexivity.
Qed.

Lemma logged_plain_frame (message : JSString) (st : Server P) :
  let st' := emitToUI "new-log" message (toConsole "log" message st) in
  console st' = console st ++ [(lit "log", message)]
  /\ socketService st' = socketService st
  /\ socketEmits st' = socketEmits st.
Proof. destruct st as [[] d tb a ss f c al ui se pu]; repeat split. Qed.

(** X15.  [log] with type [error] or [warn] creates an alert of that
    type when the alert service is set.  When it is not, the line is
    written to the console and the call throws a [TypeError] before the
    window is told.  So on a server as constructed a failing
    [createConnection] makes [initializeDatabase] throw, leaving no
    database handle, and [setupDefaults] throws. *)
Theorem error_logging_needs_the_alert_service (message : JSString) (type : string)
    (st : Server P) :
  type = "error"%string \/ type = "warn"%string ->
  (alertService st = true ->
   fst (log message (Some (lit type)) st) = Return tt
   /\ alerts (snd (log message (Some (lit type)) st)) =
      alerts st ++ [ServerMain.mkAlert (lit type) message])
  /\ (alertService st = false ->
      (exists e, fst (log message (Some (lit type)) st) = Throw (TypeError e))
      /\ console (snd (log message (Some (lit type)) st)) = console st ++ [(lit type, message)]
      /\ alerts (snd (log message (Some (lit type)) st)) = alerts st
      /\ uiEvents (snd (log message (Some (lit type)) st)) = uiEvents st)
  /\ (forall ex w,
        createConnection out = Throw ex ->
        exists e, fst (initializeDatabase out (constructed w)) = Throw (TypeError e)
                  /\ db (snd (initializeDatabase out (constructed w))) = None)
  /\ (forall w, exists e, fst (setupDefaults out (constructed w)) = Throw (TypeError e)).
Proof.
  intros Htype. split; [|split; [|split]].
  - intros Ha. destruct st as [w d t a ss f c al ui se pu]. cbn [alertService] in Ha. subst a.
    destruct Htype as [-> | ->]; destruct w; split; reflexivity.
  - intros Ha. destruct st as [w d t a ss f c al ui se pu]. cbn [alertService] in Ha. subst a.
    destruct Htype as [-> | ->];
      (split; [eexists; reflexivity|split; [reflexivity|split; reflexivity]]).
  - intros ex w Hc. unfold initializeDatabase. rewrite Hc. eexists. split; reflexivity.
  - intros w. eexists. reflexivity.
Qed.

Lemma addDefaults_keeps (qf sf : JSString -> option Exn) (items : list (JSString * JSString)) :
  forall table k v,
    table !! k = Some v -> snd (addDefaults qf sf items table) !! k = Some v.
Proof.
  induction items as [|[name value] rest IH]; intros table k v Hk; [exact Hk|].
  cbn [addDefaults]. destruct (qf name); [exact Hk|].
  destruct (table !! name) eqn:Hn; [now apply IH|].
  destruct (sf name); [exact Hk|]. apply IH.
  rewrite lookup_insert_ne; [exact Hk|]. intros ->. congruence.
Qed.

Lemma addDefaults_only_defaults (qf sf : JSString -> option Exn)
    (items : list (JSString * JSString)) :
  forall table k v,
    snd (addDefaults qf sf items table) !! k = Some v ->
    table !! k = Some v \/ (k, v) ∈ items.
Proof.
  induction items as [|[name value] rest IH]; intros table k v Hk; [now left|].
  cbn [addDefaults] in Hk. destruct (qf name); [now left|].
  destruct (table !! name) eqn:Hn.
  - destruct (IH _ _ _ Hk) as [H|H]; [now left|right; now apply list_elem_of_further].
  - destruct (sf name); [now left|].
    destruct (IH _ _ _ Hk) as [H|H]; [|right; now apply list_elem_of_further].
    destruct (decide (name = k)) as [->|Hne].
    + rewrite lookup_insert_eq in H. injection H as ->. right. apply list_elem_of_here.
    + rewrite lookup_insert_ne in H by exact Hne. now left.
Qed.

Lemma addDefaults_complete (qf sf : JSString -> option Exn)
    (items : list (JSString * JSString)) :
  (forall name, qf name = None) -> (forall name, sf name = None) ->
  forall table,
    fst (addDefaults qf sf items table) = Return tt
    /\ forall k v, (k, v) ∈ items -> is_Some (snd (addDefaults qf sf items table) !! k).
Proof.
  intros Hq Hs. induction items as [|[name value] rest IH]; intros table.
  - split; [reflexivity|]. intros k v H. now apply elem_of_nil in H.
  - cbn [addDefaults]. rewrite Hq.
    destruct (table !! name) eqn:Hn.
    + destruct (IH table) as [Hr Hall]. split; [exact Hr|].
      intros k v Hin. apply elem_of_cons in Hin as [[= -> ->]|Hin]; [|now apply (Hall k v)].
      eexists. apply addDefaults_keeps. exact Hn.
    + rewrite Hs. destruct (IH (<[name := value]> table)) as [Hr Hall]. split; [exact Hr|].
      intros k v Hin. apply elem_of_cons in Hin as [[= -> ->]|Hin]; [|now apply (Hall k v)].
      eexists. apply addDefaults_keeps. apply lookup_insert_eq.
Qed.

Lemma addDefaults_settled (qf sf : JSString -> option Exn) (items : list (JSString * JSString)) :
  (forall name, qf name = None) ->
  forall table,
    (forall k v, (k, v) ∈ items -> is_Some (table !! k)) ->
    addDefaults qf sf items table = (Return tt, table).
Proof.
  intros Hq. induction items as [|[name value] rest IH]; intros table Hall; [reflexivity|].
  cbn [addDefaults]. rewrite Hq.
  destruct (Hall name value (list_elem_of_here _ _)) as [v ->].
  apply IH. intros k v' Hin. apply (Hall k v'). now apply list_elem_of_further.
Qed.

(** X16.  [setupDefaults] keeps every configuration item that is in the
    table, and an item in the table afterwards was there before or is a
    default with its default value.  With a database and no failing query
    or insertion it resolves, every default name is in the table
    afterwards, and running it again changes nothing. *)
Theorem setupDefaults_adds_only_what_is_missing (st : Server P) :
  (forall k v, configTable st !! k = Some v ->
     configTable (snd (setupDefaults out st)) !! k = Some v)
  /\ (forall k v, configTable (snd (setupDefaults out st)) !! k = Some v ->
       configTable st !! k = Some v \/ (k, v) ∈ defaultItems out)
  /\ (forall connection,
        db st = Some connection ->
        (forall name, queryFails out name = None) ->
        (forall name, saveFails out name = None) ->
        fst (setupDefaults out st) = Return tt
        /\ (forall k v, (k, v) ∈ defaultItems out ->
             is_Some (configTable (snd (setupDefaults out st)) !! k))
        /\ setupDefaults out (snd (setupDefaults out st))
           = (Return tt, snd (setupDefaults out st))).
Proof.
  assert (Hlog : forall m t (s : Server P), configTable (snd (log m t s)) = configTable s).
  { intros m t [w d tb a ss f c al ui se pu]. unfold log, createAlert, emitToUI.
    cbn [alertService toConsole window].
    destruct (bool_decide (t = Some (lit "error"))); [destruct a, w; reflexivity|].
    destruct (bool_decide (t = Some (lit "dir"))); [destruct w; reflexivity|].
    destruct (bool_decide (t = Some (lit "warn"))); [destruct a, w; reflexivity|].
    destruct w; reflexivity. }
  assert (Htable : configTable (snd (setupDefaults out st)) =
                   match db st with
                   | Some _ => snd (addDefaults (queryFails out) (saveFails out)
                                      (defaultItems out) (configTable st))
                   | None => configTable st
                   end).
  { unfold setupDefaults. destruct (db st); [|apply Hlog].
    destruct (addDefaults _ _ _ _) as [[[]|ex] table]; cbn [snd]; [now destruct st|].
    rewrite Hlog. now destruct st. }
  split; [|split].
  - intros k v Hk. rewrite Htable. destruct (db st); [now apply addDefaults_keeps|exact Hk].
  - intros k v Hk. rewrite Htable in Hk.
    destruct (db st); [now apply addDefaults_only_defaults in Hk|now left].
  - intros connection Hdb Hq Hs.
    destruct (addDefaults_complete _ _ (defaultItems out) Hq Hs (configTable st)) as [Hr Hall].
    assert (Hrun : setupDefaults out st =
                   (Return tt, withTable (snd (addDefaults (queryFails out) (saveFails out)
                                                 (defaultItems out) (configTable st))) st)).
    { unfold setupDefaults. rewrite Hdb.
      destruct (addDefaults _ _ _ _) as [[[]|ex] table]; [reflexivity|discriminate]. }
    rewrite Hrun. cbn [fst snd]. split; [reflexivity|]. split.
    + intros k v Hin. destruct st. now apply (Hall k v).
    + unfold setupDefaults at 1. destruct st as [w d tb a ss f c al ui se pu].
      cbn [db withTable configTable] in *. rewrite Hdb.
      rewrite addDefaults_settled; [reflexivity|exact Hq|exact Hall].
Qed.

Lemma substring_from_start (t : JSString) (n : nat) :
  substring t 0 (Z.of_nat n) = take n t.
Proof.
  unfold substring, clampIndex.
  replace (Z.to_nat (Z.min (Z.max 0 0) (Z.of_nat (length t)))) with 0%nat by lia.
  replace (Z.to_nat (Z.min (Z.max (Z.of_nat n) 0) (Z.of_nat (length t))))
    with (Nat.min n (length t)) by lia.
  rewrite Nat.min_0_l, Nat.max_0_l, Nat.sub_0_r, drop_0.
  destruct (Nat.le_ge_cases n (length t)) as [H|H].
  - now rewrite Nat.min_l.
  - rewrite Nat.min_r by exact H. now rewrite !take_ge by lia.
Qed.

(** X17.  [sendNotification] throws a [TypeError] and does nothing
    without a socket service.  With one it emits the event to the socket
    server first, whatever happens next, and pushes at most once: only
    when the push service has an app, the database is open and the device
    table is not empty, to the identifiers of all devices and with the
    JSON text of the data.  With a push service without an app it
    resolves. *)
Theorem sendNotification_reaches_the_socket_first (type : JSString) (data : P)
    (st : Server P) :
  (socketService st = false ->
   exists e, sendNotification out type data st = (Throw (TypeError e), st))
  /\ (socketService st = true ->
      socketEmits (snd (sendNotification out type data st)) = socketEmits st ++ [(type, data)]
      /\ (pushes (snd (sendNotification out type data st)) = pushes st
          \/ exists connection d ds,
               fcmService st = Some true
               /\ db st = Some connection
               /\ findDevices out = Return (Some (d :: ds))
               /\ pushes (snd (sendNotification out type data st)) =
                  pushes st ++ [(map identifier (d :: ds), type, stringify out data)]
               /\ fst (sendNotification out type data st) =
                  push out (map identifier (d :: ds)) type (stringify out data)))
  /\ (fcmService st = Some false -> socketService st = true ->
      fst (sendNotification out type data st) = Return tt).
Proof.
  destruct st as [w d tb a ss f c al ui se pu].
  cbn [socketService fcmService socketEmits pushes db].
  split; [|split].
  - intros ->. eexists. reflexivity.
  - intros ->. unfold sendNotification. cbn [socketService fcmService db].
    destruct f as [[]|]; try (split; [reflexivity|now left]).
    destruct d as [connection|]; [|split; [reflexivity|now left]].
    destruct (findDevices out) as [[[|dv dvs]|]|e]; try (split; [reflexivity|now left]).
    split; [reflexivity|]. right. exists connection, dv, dvs. repeat split.
  - intros -> ->. reflexivity.
Qed.

(** X18.  The [new-entry] handler throws a [TypeError], leaving the
    server as it was, for a row without text.  For a row with text it logs
    one line that shows at most fifty code units of it, the first fifty of
    the text itself when the row has no attachments, and with a socket
    service it emits [new-message] with the message response. *)
Theorem onNewEntry_needs_a_text (item : EventRow) (st : Server P) :
  (text item = None -> exists e, onNewEntry out item st = (Throw (TypeError e), st))
  /\ (forall t, text item = Some t ->
       exists preview,
         (length preview <= 50)%nat
         /\ (cacheHasAttachments item = false -> preview = take 50 t)
         /\ console (snd (onNewEntry out item st)) =
            console st ++ [(lit "log",
                            lit "New message from [" ++ sender item ++ lit "]: [" ++ preview
                              ++ lit "]")])
  /\ (forall t response, text item = Some t ->
       getMessageResponse out item = Return response ->
       socketService st = true ->
       socketEmits (snd (onNewEntry out item st)) =
       socketEmits st ++ [(lit "new-message", response)]).
Proof.
  assert (Hshown : forall t, text item = Some t ->
            exists shown, shownText item = Return (Some shown)
                          /\ (cacheHasAttachments item = false -> shown = t)).
  { intros t Ht. unfold shownText. rewrite Ht.
    destruct (cacheHasAttachments item); eexists; (split; [reflexivity|]);
      [discriminate|reflexivity]. }
  unfold onNewEntry. split; [|split].
  - intros Ht. unfold shownText. rewrite Ht.
    destruct (cacheHasAttachments item); eexists; reflexivity.
  - intros t Ht. destruct (Hshown t Ht) as [shown [Hs Hplain]]. rewrite Hs.
    exists (take 50 shown). split; [rewrite length_take; lia|]. split.
    + intros Hc. now rewrite (Hplain Hc).
    + rewrite log_plain.
      change (substring shown 0 50) with (substring shown 0 (Z.of_nat 50)).
      rewrite (substring_from_start shown 50).
      destruct (getMessageResponse out item) as [r|e]; cbn [snd].
      * rewrite sendNotification_console. apply logged_plain_frame.
      * apply logged_plain_frame.
  - intros t response Ht Hr Hss. destruct (Hshown t Ht) as [shown [Hs _]]. rewrite Hs.
    rewrite log_plain, Hr.
    destruct (logged_plain_frame
                (lit "New message from [" ++ sender item ++ lit "]: ["
                   ++ substring shown 0 50 ++ lit "]") st) as [_ [Hsock Hemits]].
    rewrite sendNotification_emits by now rewrite Hsock.
    now rewrite Hemits.
Qed.

(** X19.  The [updated-entry] handler throws a [TypeError], leaving the
    server as it was, for a row with neither a delivery nor a read date.
    With one of them and a socket service it emits [updated-message] with
    the message response.  For a row with both dates the line it logs is
    labelled [Text Read] and shows the delivery date. *)
Theorem onUpdatedEntry_needs_a_date (item : EventRow) (st : Server P) :
  (dateDelivered item = None -> dateRead item = None ->
   exists e, onUpdatedEntry out item st = (Throw (TypeError e), st))
  /\ (forall response,
        dateDelivered item <> None \/ dateRead item <> None ->
        getMessageResponse out item = Return response ->
        socketService st = true ->
        socketEmits (snd (onUpdatedEntry out item st)) =
        socketEmits st ++ [(lit "updated-message", response)])
  /\ (forall delivered read,
        dateDelivered item = Some delivered -> dateRead item = Some read ->
        console (snd (onUpdatedEntry out item st)) =
        console st ++ [(lit "log",
                        lit "Updated message from [" ++ sender item ++ lit "]: [" ++ lit "Text Read"
                          ++ lit " -> " ++ toLocaleString out delivered ++ lit "]")]).
Proof.
  unfold onUpdatedEntry. cbv zeta. split; [|split].
  - intros -> ->. eexists. reflexivity.
  - intros response Hdate Hr Hss.
    assert (Ht : exists t, match dateDelivered item with
                           | Some d => Some d
                           | None => dateRead item
                           end = Some t).
    { destruct (dateDelivered item) as [d|]; [now exists d|].
      destruct (dateRead item) as [d|]; [now exists d|]. now destruct Hdate. }
    destruct Ht as [t ->]. rewrite log_plain, Hr.
    match goal with
    | |- context [toConsole "log" ?m st] =>
        destruct (logged_plain_frame m st) as [_ [Hsock Hemits]]
    end.
    rewrite sendNotification_emits by now rewrite Hsock.
    now rewrite Hemits.
  - intros delivered read -> ->. rewrite log_plain.
    destruct (getMessageResponse out item) as [r|e]; cbn [snd].
    + rewrite sendNotification_console. apply logged_plain_frame.
    + apply logged_plain_frame.
Qed.
End ServerEventFacts.

Section ServerEventExamples.
Import ServerEvents.

(** X15 on a server as constructed, and on a running one. *)
Lemma error_logging_needs_the_alert_service_witness :
  (exists e, fst (log (lit "disk full") (Some (lit "error")) (constructed (P:=JSString) true))
             = Throw (TypeError e))
  /\ alerts (snd (log (lit "disk full") (Some (lit "error")) EventSamples.running))
     = [ServerMain.mkAlert (lit "error") (lit "disk full")].
Proof.
  destruct (error_logging_needs_the_alert_service EventSamples.outside (lit "disk full") "error"
              (constructed true) (or_introl eq_refl)) as [_ [Hnull _]].
  destruct (error_logging_needs_the_alert_service EventSamples.outside (lit "disk full") "error"
              EventSamples.running (or_introl eq_refl)) as [Hset _].
  split; [exact (proj1 (Hnull eq_refl)) | exact (proj2 (Hset eq_refl))].
Defined.

End ServerEventExamples.
